(** * FGAme drawing core: colours, shapes, textures

    A shallow embedding of
      - [FGAme/draw/color.py]   (class [Color], helpers [rgb] and [rgba]),
      - [FGAme/draw/base.py]    ([Drawable], [Shape] and its subclasses),
      - [FGAme/draw/image.py]   ([get_texture], [Texture], [Image]),
      - [mathtools/pymath/circle.py] (class [Circle]).

    Python objects live in a store indexed by addresses, so that object
    identity ([is]) is equality of addresses.  Code that raises is modelled
    in a state-and-exception monad. *)

From Stdlib Require Import ZArith QArith.
From stdpp Require Import gmap strings list fin_maps countable.

Local Open Scope Z_scope.

(** ** Python values *)

(** Addresses of heap objects. *)
Abbreviation loc := positive.

(** The address a new object gets: one past the largest address in
    use. *)
Definition fresh_loc {A} (m : gmap loc A) : loc :=
  map_fold (λ k _ r, Pos.max (Pos.succ k) r) 1%positive m.

(** The values the modelled code handles: [None], integers, strings,
    tuples and references to objects.  On these values Python's [==]
    between dictionary keys is structural equality (objects compare by
    identity: no class of the modelled modules defines [__eq__]). *)
#[warnings="-register-all"]
Inductive pyval : Type :=
  | VNone
  | VInt (z : Z)
  | VStr (s : string)
  | VTuple (l : list pyval)
  | VRef (r : loc).

Section pyval_induction.
Variable P : pyval → Prop.
Hypothesis HNone : P VNone.
Hypothesis HInt : ∀ z, P (VInt z).
Hypothesis HStr : ∀ s, P (VStr s).
Hypothesis HTuple : ∀ l, Forall P l → P (VTuple l).
Hypothesis HRef : ∀ r, P (VRef r).

Fixpoint pyval_ind' (v : pyval) : P v :=
  match v with
  | VNone => HNone
  | VInt z => HInt z
  | VStr s => HStr s
  | VTuple l =>
      HTuple l ((fix go (l : list pyval) : Forall P l :=
                   match l with
                   | [] => Forall_nil_2 P
                   | x :: l' => Forall_cons_2 P x l' (pyval_ind' x) (go l')
                   end) l)
  | VRef r => HRef r
  end.
End pyval_induction.

Fixpoint pyval_to_tree (v : pyval) : gen_tree (Z + string + positive) :=
  match v with
  | VNone => GenNode 0 []
  | VInt z => GenLeaf (inl (inl z))
  | VStr s => GenLeaf (inl (inr s))
  | VRef r => GenLeaf (inr r)
  | VTuple l => GenNode 1 (map pyval_to_tree l)
  end.

Fixpoint pyval_of_tree (t : gen_tree (Z + string + positive)) : pyval :=
  match t with
  | GenLeaf (inl (inl z)) => VInt z
  | GenLeaf (inl (inr s)) => VStr s
  | GenLeaf (inr r) => VRef r
  | GenNode 0 _ => VNone
  | GenNode _ ts => VTuple (map pyval_of_tree ts)
  end.

Lemma pyval_of_to_tree (v : pyval) : pyval_of_tree (pyval_to_tree v) = v.
Proof.
  induction v as [| | |l IH|] using pyval_ind'; simpl; try done.
  f_equal. induction IH as [|x l Hx _ IHl]; simpl; [done|].
  by rewrite Hx, IHl.
Qed.

#[global] Instance pyval_eq_dec : EqDecision pyval.
Proof.
  refine (fix go (x y : pyval) {struct x} : Decision (x = y) :=
    match x, y with
    | VNone, VNone => left eq_refl
    | VInt a, VInt b => cast_if (decide (a = b))
    | VStr a, VStr b => cast_if (decide (a = b))
    | VRef a, VRef b => cast_if (decide (a = b))
    | VTuple a, VTuple b =>
        cast_if ((fix gol (l k : list pyval) {struct l} : Decision (l = k) :=
                    match l, k with
                    | [], [] => left eq_refl
                    | u :: l', w :: k' =>
                        cast_if_and (go u w) (gol l' k')
                    | _, _ => right _
                    end) a b)
    | _, _ => right _
    end); clear go; try clear gol; congruence.
Defined.

#[global] Instance pyval_countable : Countable pyval :=
  inj_countable' pyval_to_tree pyval_of_tree pyval_of_to_tree.

(** ** Exceptions and the state-and-exception monad *)

(** The exception classes the modelled code raises.  The payload of an
    exception is not modelled. *)
Inductive exn : Type :=
  | KeyError
  | TypeError
  | IndexError
  | ValueError
  | AttributeError
  | NotImplementedError
  | RecursionError
  | ReferenceError
  | OSError.

#[global] Instance exn_eq_dec : EqDecision exn.
Proof. solve_decision. Defined.

(** The outcome of evaluating a piece of Python code: a value or a raised
    exception. *)
Inductive outcome (A : Type) : Type :=
  | Ret (a : A)
  | Raise (e : exn).
Arguments Ret {A} a.
Arguments Raise {A} e.

(** Pure code that may raise. *)
Definition obind {A B} (o : outcome A) (k : A → outcome B) : outcome B :=
  match o with
  | Ret a => k a
  | Raise e => Raise e
  end.

Fixpoint omapM {A B} (f : A → outcome B) (l : list A) : outcome (list B) :=
  match l with
  | [] => Ret []
  | x :: l' => obind (f x) (λ y, obind (omapM f l') (λ ys, Ret (y :: ys)))
  end.

(** Code that reads and writes a store [S] and may raise.  The store at
    the point where an exception is raised is kept: Python does not roll
    back side effects. *)
Definition M (S A : Type) : Type := S → outcome A * S.

Definition ret {S A} (a : A) : M S A := λ st, (Ret a, st).
Definition raise {S A} (e : exn) : M S A := λ st, (Raise e, st).
Definition bind {S A B} (m : M S A) (k : A → M S B) : M S B :=
  λ st, match m st with
        | (Ret a, st') => k a st'
        | (Raise e, st') => (Raise e, st')
        end.
Definition lift {S A} (o : outcome A) : M S A := λ st, (o, st).

(** [try: m except e: h] *)
Definition try_except {S A} (m : M S A) (e : exn) (h : M S A) : M S A :=
  λ st, match m st with
        | (Raise e', st') => if decide (e' = e) then h st' else (Raise e', st')
        | r => r
        end.

Declare Scope py_scope.
Delimit Scope py_scope with py.
Notation "x <- m ;; k" := (bind m (λ x, k))
  (at level 100, m at next level, right associativity) : py_scope.
Notation "m ;;; k" := (bind m (λ _, k))
  (at level 100, right associativity) : py_scope.
Local Open Scope py_scope.

(** ** [FGAme/draw/color.py] *)

Module Color.

(** Objects of the store: instances of [Color] with their four slots
    [_red], [_green], [_blue], [_alpha] (which hold whatever the
    constructor was given), and instances of other classes, of which only
    the attribute dictionary matters here. *)
Inductive obj : Type :=
  | Instance (red green blue alpha : pyval)
  | Plain (attrs : gmap string pyval).

(** The store: the class attribute [Color._CACHE] and the heap. *)
Record state : Type := State {
  CACHE : gmap pyval pyval;
  heap : gmap loc obj
}.

(** [object.__new__(cls)] followed by the assignment of the four slots. *)
Definition alloc (o : obj) : M state pyval := λ st,
  let r := fresh_loc (heap st) in
  (Ret (VRef r), State (CACHE st) (<[r := o]> (heap st))).

(** [hash(v)] succeeds.  [Color.__hash__] is
    [(red ^ green) ^ (blue ^ alpha)], which raises [TypeError] unless the
    slots are integers; a tuple is hashable when its items are. *)
Fixpoint hashable (h : gmap loc obj) (v : pyval) : bool :=
  match v with
  | VTuple l => forallb (hashable h) l
  | VRef r =>
      match h !! r with
      | Some (Instance (VInt _) (VInt _) (VInt _) (VInt _)) => true
      | Some (Instance _ _ _ _) => false
      | _ => true
      end
  | _ => true
  end.

(** [cls._CACHE[k]] *)
Definition CACHE_getitem (k : pyval) : M state pyval := λ st,
  if hashable (heap st) k then
    match CACHE st !! k with
    | Some v => (Ret v, st)
    | None => (Raise KeyError, st)
    end
  else (Raise TypeError, st).

(** [cls._CACHE[k] = v] *)
Definition CACHE_setitem (k v : pyval) : M state unit := λ st,
  if hashable (heap st) k then
    (Ret tt, State (<[k := v]> (CACHE st)) (heap st))
  else (Raise TypeError, st).

(** [del cls._CACHE[k]] *)
Definition CACHE_delitem (k : pyval) : M state unit := λ st,
  if hashable (heap st) k then
    match CACHE st !! k with
    | Some _ => (Ret tt, State (delete k (CACHE st)) (heap st))
    | None => (Raise KeyError, st)
    end
  else (Raise TypeError, st).

(** [len(v)]: tuples and strings have a length, a [Color] has
    [__len__] returning 4, nothing else has one. *)
Definition py_len (v : pyval) : M state Z := λ st,
  match v with
  | VTuple l => (Ret (Z.of_nat (length l)), st)
  | VStr s => (Ret (Z.of_nat (String.length s)), st)
  | VRef r =>
      match heap st !! r with
      | Some (Instance _ _ _ _) => (Ret 4, st)
      | _ => (Raise TypeError, st)
      end
  | _ => (Raise TypeError, st)
  end.

(** The characters of a string, as one-character strings. *)
Fixpoint chars (s : string) : list pyval :=
  match s with
  | EmptyString => []
  | String c s' => VStr (String c EmptyString) :: chars s'
  end.

(** [iter(v)] run to the end: the items of a tuple, the characters of a
    string, the four slots of a [Color] ([Color.__iter__]). *)
Definition py_items (v : pyval) : M state (list pyval) := λ st,
  match v with
  | VTuple l => (Ret l, st)
  | VStr s => (Ret (chars s), st)
  | VRef r =>
      match heap st !! r with
      | Some (Instance cr cg cb ca) => (Ret [cr; cg; cb; ca], st)
      | _ => (Raise TypeError, st)
      end
  | _ => (Raise TypeError, st)
  end.

(** [args + (255,)]: defined between tuples only. *)
Definition add_255 (v : pyval) : M state (list pyval) :=
  match v with
  | VTuple l => ret (l ++ [VInt 255])
  | _ => raise TypeError
  end.

(** [object.__new__(cls)] with
    [new._red, new._green, new._blue, new._alpha = args].  (The source
    stores the new object in the cache before it assigns the slots; the
    assignment cannot fail there, [args] having four items.) *)
Definition new_instance (v : pyval) : M state pyval :=
  items <- py_items v ;;
  match items with
  | [cr; cg; cb; ca] => alloc (Instance cr cg cb ca)
  | _ => raise ValueError
  end.

(** The body of [Color.__new__(cls, *args)], with the constructor it
    calls on [args + (255,)] as a parameter.  When the final [else]
    branch deletes an entry the method falls off its end and returns
    [None]. *)
Definition new_body (Color : list pyval → M state pyval)
    (args : list pyval) : M state pyval :=
  try_except (CACHE_getitem (VTuple args)) KeyError (
    let args := match args with [x] => x | _ => VTuple args end in
    n <- py_len args ;;
    if decide (n = 3) then
      try_except (CACHE_getitem args) KeyError (
        ext <- add_255 args ;;
        new <- Color ext ;;
        CACHE_setitem args new ;;;
        ret new)
    else if decide (n = 4) then
      try_except (CACHE_getitem args) KeyError (
        new <- new_instance args ;;
        CACHE_setitem args new ;;;
        ret new)
    else
      CACHE_delitem args ;;;
      ret VNone).

(** The recursive call of the constructor is always on four arguments,
    and a call on four arguments does not recurse: two unfoldings of the
    body are the whole function ([new_unfold] below proves that [new]
    satisfies the recursive equation of the source). *)
Definition new4 : list pyval → M state pyval :=
  new_body (λ _, raise RecursionError).
Definition new : list pyval → M state pyval :=
  new_body new4.

(** The state after the module is loaded: the five [Color(...)] calls of
    the dictionary display, then [Color._CACHE.update]. *)
Definition load : M state unit :=
  white <- new [VInt 255; VInt 255; VInt 255] ;;
  black <- new [VInt 0; VInt 0; VInt 0] ;;
  red <- new [VInt 255; VInt 0; VInt 0] ;;
  green <- new [VInt 0; VInt 255; VInt 0] ;;
  blue <- new [VInt 0; VInt 0; VInt 255] ;;
  CACHE_setitem (VTuple [VStr "white"]) white ;;;
  CACHE_setitem (VTuple [VStr "black"]) black ;;;
  CACHE_setitem (VTuple [VStr "red"]) red ;;;
  CACHE_setitem (VTuple [VStr "green"]) green ;;;
  CACHE_setitem (VTuple [VStr "blue"]) blue.

Definition init_state : state := (load (State ∅ ∅)).2.

(** *** Indexing *)

(** The keys [Color.__getitem__] distinguishes: an [int], a [slice]
    (each of its bounds is [None] or an integer), anything else. *)
Inductive index : Type :=
  | IdxInt (k : Z)
  | IdxSlice (start stop step : option Z)
  | IdxOther (v : pyval).

Definition _RANGE : list Z := [0; 1; 2; 3].

(** [t[start:stop:step]] on a tuple: the bounds are clipped as
    [slice.indices(len(t))] does, then the items are read off. *)
Definition slice_bounds (n : Z) (start stop step : option Z)
    : outcome (Z * Z * Z) :=
  let step := default 1 step in
  if decide (step = 0) then Raise ValueError else
  let lower := if decide (0 < step) then 0 else -1 in
  let upper := if decide (0 < step) then n else n - 1 in
  let clip (o : option Z) (dflt : Z) :=
    match o with
    | None => dflt
    | Some i => if decide (i < 0) then Z.max (i + n) lower
                else Z.min i upper
    end in
  Ret (clip start (if decide (0 < step) then lower else upper),
       clip stop (if decide (0 < step) then upper else lower),
       step).

(** [range(a, b, step)] for [step ≠ 0]. *)
Definition py_range (a b step : Z) : list Z :=
  let count :=
    if decide (0 < step)
    then (if decide (a < b) then (b - a - 1) / step + 1 else 0)
    else (if decide (b < a) then (a - b - 1) / (- step) + 1 else 0) in
  map (λ i : nat, a + Z.of_nat i * step) (seq 0 (Z.to_nat count)).

Definition tuple_slice {A} (t : list A) (start stop step : option Z)
    : outcome (list A) :=
  obind (slice_bounds (Z.of_nat (length t)) start stop step)
    (λ '(a, b, step),
       Ret (omap (λ i, t !! Z.to_nat i) (py_range a b step))).

(** The body of [Color.__getitem__(self, key)] on the instance with
    slots [cr cg cb ca]; [getitem] stands for [self[...]]. *)
Definition getitem_body (getitem : index → outcome pyval)
    (cr cg cb ca : pyval) (key : index) : outcome pyval :=
  match key with
  | IdxInt key =>
      if decide (key = 0) then Ret cr
      else if decide (key = 1) then Ret cg
      else if decide (key = 2) then Ret cb
      else if decide (key = 3) then Ret ca
      else if decide (key < 0) then
        let key := 4 - key in
        if decide (key < 0) then Raise IndexError
        else getitem (IdxInt key)
      else Raise IndexError
  | IdxSlice start stop step =>
      obind (tuple_slice _RANGE start stop step)
        (λ idx, obind (omapM (λ i, getitem (IdxInt i)) idx)
                  (λ items, Ret (VTuple items)))
  | IdxOther _ => Raise TypeError
  end.

(** [self[key]] is called from the body with an integer key that is
    either in [0..3] or at least 5, where the body answers without a
    further call: two unfoldings are the whole method
    ([getitem_unfold]). *)
Definition getitem1 (cr cg cb ca : pyval) : index → outcome pyval :=
  getitem_body (λ _, Raise RecursionError) cr cg cb ca.
Definition getitem (cr cg cb ca : pyval) : index → outcome pyval :=
  getitem_body (getitem1 cr cg cb ca) cr cg cb ca.

(** [self[key]] for a reference [self]. *)
Definition getitem_of (self : pyval) (key : index) : M state pyval := λ st,
  match self with
  | VRef r =>
      match heap st !! r with
      | Some (Instance cr cg cb ca) => (getitem cr cg cb ca key, st)
      | _ => (Raise TypeError, st)
      end
  | _ => (Raise TypeError, st)
  end.

(** *** The attributes [rgb] and [rgba] *)

(** [v.rgb]: on a [Color] the property returns [self[:3]]; another
    object has the attribute or not; [None], integers, strings and
    tuples do not. *)
Definition attr_rgb (v : pyval) : M state pyval := λ st,
  match v with
  | VRef r =>
      match heap st !! r with
      | Some (Instance cr cg cb ca) =>
          (getitem cr cg cb ca (IdxSlice None (Some 3) None), st)
      | Some (Plain attrs) =>
          match attrs !! "rgb"%string with
          | Some x => (Ret x, st)
          | None => (Raise AttributeError, st)
          end
      | None => (Raise AttributeError, st)
      end
  | _ => (Raise AttributeError, st)
  end.

(** [v.rgba]: on a [Color] the property returns [tuple(self)]. *)
Definition attr_rgba (v : pyval) : M state pyval := λ st,
  match v with
  | VRef r =>
      match heap st !! r with
      | Some (Instance cr cg cb ca) => (Ret (VTuple [cr; cg; cb; ca]), st)
      | Some (Plain attrs) =>
          match attrs !! "rgba"%string with
          | Some x => (Ret x, st)
          | None => (Raise AttributeError, st)
          end
      | None => (Raise AttributeError, st)
      end
  | _ => (Raise AttributeError, st)
  end.

(** [bool(v)]: [Color] has [__len__] returning 4, other objects are
    true. *)
Definition truthy (v : pyval) : bool :=
  match v with
  | VNone => false
  | VInt z => negb (z =? 0)
  | VStr s => negb (String.eqb s "")
  | VTuple l => negb (Nat.eqb (length l) 0)
  | VRef _ => true
  end.

(** [color or 'black'] *)
Definition or_black (color : pyval) : pyval :=
  if truthy color then color else VStr "black".

(** [def rgb(color)] *)
Definition rgb (color : pyval) : M state pyval :=
  try_except (attr_rgb color) AttributeError (
    c <- new [or_black color] ;;
    attr_rgb c).

(** [def rgba(color)] *)
Definition rgba (color : pyval) : M state pyval :=
  try_except (attr_rgba color) AttributeError (
    c <- new [or_black color] ;;
    attr_rgba c).


(** *** Notions used to state the properties of the constructor *)

(** [args] after [if len(args) == 1: args = args[0]]. *)
Definition unwrap (args : list pyval) : pyval :=
  match args with [x] => x | _ => VTuple args end.

(** The keys under which the constructor stores colours: tuples of three
    or four items. *)
Definition color_key (k : pyval) : Prop :=
  ∃ l, k = VTuple l ∧ (length l = 3 ∨ length l = 4)%nat.

(** The cache is coherent when its values are references and the entry
    of a triple is the entry of the triple extended by 255. *)
Definition coherent (st : state) : Prop :=
  (∀ k v, CACHE st !! k = Some v → ∃ r, v = VRef r) ∧
  (∀ cr cg cb v, CACHE st !! VTuple [cr; cg; cb] = Some v →
                 CACHE st !! VTuple [cr; cg; cb; VInt 255] = Some v).

(** The effects a call of the constructor body can have, with the
    outcome: none (a hit, or a failure before any effect); a new entry
    for a triple after the inner call; the inner call's effects alone; a
    new instance with its entry; a new instance alone; an entry
    deleted. *)
Inductive new_step (f : list pyval → M state pyval) (args : list pyval)
    (st : state) : outcome pyval → state → Prop :=
  | new_hit k v :
      k = VTuple args ∨ k = unwrap args →
      CACHE st !! k = Some v →
      new_step f args st (Ret v) st
  | new_fail e :
      new_step f args st (Raise e) st
  | new_three l v st1 :
      unwrap args = VTuple l → length l = 3%nat →
      CACHE st !! VTuple l = None →
      f (l ++ [VInt 255]) st = (Ret v, st1) →
      new_step f args st (Ret v)
        (State (<[VTuple l := v]> (CACHE st1)) (heap st1))
  | new_three_fail l o e st1 :
      unwrap args = VTuple l → length l = 3%nat →
      f (l ++ [VInt 255]) st = (o, st1) →
      new_step f args st (Raise e) st1
  | new_four r o :
      (py_len (unwrap args) st).1 = Ret 4 →
      CACHE st !! unwrap args = None →
      heap st !! r = None →
      new_step f args st (Ret (VRef r))
        (State (<[unwrap args := VRef r]> (CACHE st)) (<[r := o]> (heap st)))
  | new_four_fail r o e :
      heap st !! r = None →
      new_step f args st (Raise e) (State (CACHE st) (<[r := o]> (heap st)))
  | new_del n :
      (py_len (unwrap args) st).1 = Ret n → n ≠ 3 → n ≠ 4 →
      new_step f args st (Ret VNone)
        (State (delete (unwrap args) (CACHE st)) (heap st)).

(** What the proofs need of a constructor: it keeps every entry of the
    cache, except possibly that of its unwrapped argument when this is
    not a colour key; it keeps the objects of the heap; it keeps the
    cache coherent; and what it returns for four arguments is the entry
    of these arguments. *)
Record good (f : list pyval → M state pyval) : Prop := {
  good_keeps l st k v :
    color_key k ∨ k ≠ unwrap l →
    CACHE st !! k = Some v → CACHE (f l st).2 !! k = Some v;
  good_heap l st r o :
    heap st !! r = Some o → heap (f l st).2 !! r = Some o;
  good_coh l st : coherent st → coherent (f l st).2;
  good_cached l st v :
    length l = 4%nat → (f l st).1 = Ret v →
    CACHE (f l st).2 !! VTuple l = Some v
}.

(** A channel value: an integer in [0, 255]. *)
Definition channel (v : pyval) : Prop := ∃ z, v = VInt z ∧ 0 ≤ z ≤ 255.

(** A valid 3-tuple or 4-tuple of channel values. *)
Definition valid_tuple (t : list pyval) : Prop :=
  (length t = 3 ∨ length t = 4)%nat ∧ Forall channel t.

(** The four components a tuple stands for: alpha is 255 when left
    out. *)
Definition canon (t : list pyval) : list pyval :=
  match t with
  | [cr; cg; cb] => [cr; cg; cb; VInt 255]
  | _ => t
  end.

(** Any sequence of constructor calls, each with any arguments, whatever
    their outcome. *)
Fixpoint run_calls (calls : list (list pyval)) (st : state) : state :=
  match calls with
  | [] => st
  | args :: calls => run_calls calls (new args st).2
  end.

(** The name [black] is in the cache and bound to the colour
    (0, 0, 0, 255), as it is when the module is loaded. *)
Definition black_seeded (st : state) : Prop :=
  ∃ r, CACHE st !! VTuple [VStr "black"] = Some (VRef r) ∧
       heap st !! r = Some (Instance (VInt 0) (VInt 0) (VInt 0) (VInt 255)).

(** The values of the model that count as false in [color or 'black']:
    [None], zero, the empty string and the empty tuple. *)
Definition falsy_values : list pyval := [VNone; VInt 0; VStr ""; VTuple []].

(** *** The invariant of the cache *)

(** The names that [Color._CACHE.update] binds when the module is
    loaded. *)
Definition names : list string :=
  ["white"; "black"; "red"; "green"; "blue"]%string.

(** [v] is a [Color] of the store. *)
Definition live (st : state) (v : pyval) : Prop :=
  ∃ r cr cg cb ca, v = VRef r ∧ heap st !! r = Some (Instance cr cg cb ca).

(** The keys of the cache: the 1-tuple of a name, a tuple of three items,
    or a value of length 4 (a tuple, a string of four characters, a
    [Color]). *)
Definition key_shape (st : state) (k : pyval) : Prop :=
  (∃ s, k = VTuple [VStr s] ∧ s ∈ names) ∨
  (∃ l, k = VTuple l ∧ length l = 3%nat) ∨
  (py_len k st).1 = Ret 4.

(** The invariant: the cache is coherent, its values are colours of the
    store under keys of these shapes, and the colour under a key of
    length 4 is another object than the key and has the items of the key
    in its slots. *)
Definition wf (st : state) : Prop :=
  coherent st ∧
  (∀ k v, CACHE st !! k = Some v → live st v ∧ key_shape st k) ∧
  (∀ k r, CACHE st !! k = Some (VRef r) → (py_len k st).1 = Ret 4 →
     k ≠ VRef r ∧
     ∃ cr cg cb ca, (py_items k st).1 = Ret [cr; cg; cb; ca] ∧
                    heap st !! r = Some (Instance cr cg cb ca)).

(** What a call of the constructor's body does to the store, case by
    case, with the facts that hold in each case: a hit, an exception
    that leaves the store as it is, a triple stored under the result of
    the inner call, the inner call failing, a new instance stored under
    its key, a new instance whose key cannot be hashed, and an entry
    deleted. *)
Inductive new_effect (f : list pyval → M state pyval) (args : list pyval)
    (st : state) : outcome pyval → state → Prop :=
  | eff_hit k v :
      k = VTuple args ∨ k = unwrap args →
      CACHE st !! k = Some v →
      new_effect f args st (Ret v) st
  | eff_raise e :
      new_effect f args st (Raise e) st
  | eff_three l v st1 :
      unwrap args = VTuple l → length l = 3%nat →
      CACHE st !! VTuple l = None →
      f (l ++ [VInt 255]) st = (Ret v, st1) →
      new_effect f args st (Ret v)
        (State (<[VTuple l := v]> (CACHE st1)) (heap st1))
  | eff_three_fail l o e st1 :
      unwrap args = VTuple l → length l = 3%nat →
      f (l ++ [VInt 255]) st = (o, st1) →
      new_effect f args st (Raise e) st1
  | eff_four r cr cg cb ca :
      (py_len (unwrap args) st).1 = Ret 4 →
      (py_items (unwrap args) st).1 = Ret [cr; cg; cb; ca] →
      CACHE st !! unwrap args = None →
      heap st !! r = None →
      new_effect f args st (Ret (VRef r))
        (State (<[unwrap args := VRef r]> (CACHE st))
           (<[r := Instance cr cg cb ca]> (heap st)))
  | eff_four_fail r o e :
      heap st !! r = None →
      new_effect f args st (Raise e) (State (CACHE st) (<[r := o]> (heap st)))
  | eff_del n :
      (py_len (unwrap args) st).1 = Ret n → n ≠ 3 → n ≠ 4 →
      CACHE st !! VTuple args = None →
      is_Some (CACHE st !! unwrap args) →
      new_effect f args st (Ret VNone)
        (State (delete (unwrap args) (CACHE st)) (heap st)).

(** *** The setters *)

(** The receiver of a method of [Color] with its slots; on a value that is
    not a [Color] the attribute lookup fails. *)
Definition with_slots {A} (self : pyval)
    (k : pyval → pyval → pyval → pyval → M state A) : M state A := λ st,
  match self with
  | VRef r =>
      match heap st !! r with
      | Some (Instance cr cg cb ca) => k cr cg cb ca st
      | _ => (Raise AttributeError, st)
      end
  | _ => (Raise AttributeError, st)
  end.

(** [set_red], [set_green], [set_blue] and [set_alpha]: the constructor
    on the slots with one of them replaced. *)
Definition set_red (self value : pyval) : M state pyval :=
  with_slots self (λ cr cg cb ca, new [value; cg; cb; ca]).
Definition set_green (self value : pyval) : M state pyval :=
  with_slots self (λ cr cg cb ca, new [cr; value; cb; ca]).
Definition set_blue (self value : pyval) : M state pyval :=
  with_slots self (λ cr cg cb ca, new [cr; cg; value; ca]).
Definition set_alpha (self value : pyval) : M state pyval :=
  with_slots self (λ cr cg cb ca, new [cr; cg; cb; value]).

(** *** The named colours *)

(** The display passed to [Color._CACHE.update]: each name with the
    arguments of the [Color(...)] call it is bound to. *)
Definition seeds : list (string * list pyval) :=
  [("white", [VInt 255; VInt 255; VInt 255]);
   ("black", [VInt 0; VInt 0; VInt 0]);
   ("red", [VInt 255; VInt 0; VInt 0]);
   ("green", [VInt 0; VInt 255; VInt 0]);
   ("blue", [VInt 0; VInt 0; VInt 255])]%string.

(** *** [class color_property(property)] *)

(** A property object: the attributes [name] and [default] that
    [__init__] sets, and the variables [attr] and [default] that the three
    accessors close over.  The closed-over [default] is the argument of
    [__init__] as it was given, not the colour made of it. *)
Record color_property : Type := ColorProperty {
  prop_name : string;
  prop_default : pyval;
  closure_attr : string;
  closure_default : pyval
}.

(** [color_property.__init__(self, name, default=None)] *)
Definition color_property_init (name : string) (default : pyval) :
    M state color_property :=
  d <- (if decide (default = VNone) then ret VNone else new [default]) ;;
  ret (ColorProperty name d ("_" +:+ name) default).

(** The accessors run on an object that keeps its attributes in an
    instance dictionary: the store is the store of the colours together
    with that dictionary. *)
Definition owner_state : Type := state * gmap string pyval.

Definition on_colors {A} (m : M state A) : M owner_state A := λ s,
  let '(o, st') := m s.1 in (o, (st', s.2)).

(** [getattr(self, attr, default)] *)
Definition fget (p : color_property) : M owner_state pyval := λ s,
  match s.2 !! closure_attr p with
  | Some v => (Ret v, s)
  | None => (Ret (closure_default p), s)
  end.

(** [if hasattr(self, attr): delattr(self, attr)] *)
Definition fdel (p : color_property) : M owner_state unit := λ s,
  match s.2 !! closure_attr p with
  | Some _ => (Ret tt, (s.1, delete (closure_attr p) s.2))
  | None => (Ret tt, s)
  end.

(** [fset(self, value)] *)
Definition fset (p : color_property) (value : pyval) : M owner_state unit :=
  if decide (value = VNone) then fdel p
  else
    c <- on_colors (new [value]) ;;
    λ s, (Ret tt, (s.1, <[closure_attr p := c]> s.2)).

(** *** Packed forms and hash *)

(** [a << n] and [a ^ b]: between integers only, for the values of the
    model. *)
Definition py_lshift (a : pyval) (n : Z) : outcome pyval :=
  match a with
  | VInt x => Ret (VInt (Z.shiftl x n))
  | _ => Raise TypeError
  end.

Definition py_xor (a b : pyval) : outcome pyval :=
  match a, b with
  | VInt x, VInt y => Ret (VInt (Z.lxor x y))
  | _, _ => Raise TypeError
  end.

(** [a + b]: integers add, strings and tuples concatenate. *)
Definition py_add (a b : pyval) : outcome pyval :=
  match a, b with
  | VInt x, VInt y => Ret (VInt (x + y))
  | VStr x, VStr y => Ret (VStr (x +:+ y))
  | VTuple x, VTuple y => Ret (VTuple (x ++ y))
  | _, _ => Raise TypeError
  end.

(** The property [u_rgba]:
    [(c[0] << 24) + (c[1] << 16) + (c[2] << 8) + c[3]]. *)
Definition u_rgba (cr cg cb ca : pyval) : outcome pyval :=
  let c := getitem cr cg cb ca in
  obind (c (IdxInt 0)) (λ c0, obind (py_lshift c0 24) (λ x0,
  obind (c (IdxInt 1)) (λ c1, obind (py_lshift c1 16) (λ x1,
  obind (py_add x0 x1) (λ s1,
  obind (c (IdxInt 2)) (λ c2, obind (py_lshift c2 8) (λ x2,
  obind (py_add s1 x2) (λ s2,
  obind (c (IdxInt 3)) (λ c3,
  py_add s2 c3))))))))).

(** The property [u_rgb]: [(c[0] << 16) + (c[1] << 8) + c[2]]. *)
Definition u_rgb (cr cg cb ca : pyval) : outcome pyval :=
  let c := getitem cr cg cb ca in
  obind (c (IdxInt 0)) (λ c0, obind (py_lshift c0 16) (λ x0,
  obind (c (IdxInt 1)) (λ c1, obind (py_lshift c1 8) (λ x1,
  obind (py_add x0 x1) (λ s1,
  obind (c (IdxInt 2)) (λ c2,
  py_add s1 c2)))))).

(** [Color.__hash__]: [(red ^ green) ^ (blue ^ alpha)]. *)
Definition hash (cr cg cb ca : pyval) : outcome pyval :=
  obind (py_xor cr cg) (λ x, obind (py_xor cb ca) (λ y, py_xor x y)).

(** A value without parts: [None], an integer or a string. *)
Definition atom (v : pyval) : Prop :=
  match v with
  | VNone | VInt _ | VStr _ => True
  | VTuple _ | VRef _ => False
  end.

End Color.

(** ** [mathtools/pymath/circle.py] *)

Module PyMath.

(** [class Circle]: the slots [radius] and [pos].  Coordinates are
    rationals. *)
Record Circle : Type := mkCircle {
  radius : Q;
  pos : Q * Q
}.

(** The methods of the class below [__repr__] consist of a docstring only:
    their body is empty and the call returns [None]. *)
Definition distance_center (self other : Circle) : pyval := VNone.
Definition distance_circle (self other : Circle) : pyval := VNone.
Definition intersects_circle (self other : Circle) : pyval := VNone.
Definition intersects_point (self : Circle) (point : Q * Q) (tol : Q)
  : pyval := VNone.
Definition contains_circle (self other : Circle) : pyval := VNone.
Definition contains_point (self : Circle) (point : Q * Q) : pyval := VNone.

(** What the docstring of [intersects_circle] and the specification
    describe: the squared distance between the centres is at most the
    square of the sum of the radii. *)
Definition touching_or_overlapping (a b : Circle) : Prop :=
  let dx := ((pos a).1 - (pos b).1)%Q in
  let dy := ((pos a).2 - (pos b).2)%Q in
  (dx * dx + dy * dy <= (radius a + radius b) * (radius a + radius b))%Q.

End PyMath.

(** ** [FGAme/draw/base.py] *)

Module Draw.

(** The classes of shapes: those of [base.py], and [ImageTex] for the
    class [Image] of [image.py] (a subclass of [AABB] too). *)
Inductive cls : Type :=
  | Shape
  | Circle
  | AABB
  | Poly
  | Rectangle
  | Image
  | ImageTex.

#[global] Instance cls_eq_dec : EqDecision cls.
Proof. solve_decision. Defined.

(** The class attribute [canvas_primitive], as inherited. *)
Definition canvas_primitive (c : cls) : option string :=
  match c with
  | Shape => None
  | Circle => Some "circle"
  | AABB => Some "aabb"
  | Poly | Rectangle => Some "poly"
  | Image | ImageTex => Some "image"
  end%string.

(** Values stored in, or passed to, objects of classes outside the
    modelled modules: numbers, points, vertex lists, references and the
    values of the colour module. *)
Inductive dval : Type :=
  | DNum (q : Q)
  | DPoint (p : Q * Q)
  | DPoints (l : list (Q * Q))
  | DShape (s : loc)
  | DExt (e : loc)
  | DPy (v : pyval).

(** An instance of a shape class with its slots ([sync] is never
    assigned).  [geometric] is the address of the owned primitive, [color]
    and [line_color] hold what [Color(...)] returned. *)
Record shape : Type := mkShape {
  class_of : cls;
  geometric : loc;
  color : pyval;
  line_color : pyval;
  line_width : Q
}.

(** An object of a class that is not part of the modelled modules (a
    geometric primitive of [FGAme.mathutils], a canvas): its data
    attributes and the names of its methods.  What a method does is not
    known; calling one is recorded as an event. *)
Record ext : Type := mkExt {
  attrs : gmap string dval;
  methods : list string
}.

Inductive event : Type :=
  | ECall (receiver : loc) (method : string) (args : list dval).

(** The store: the colour module's state, the shapes and the external
    objects (two address spaces), and the calls made on external
    objects so far, latest first. *)
Record state : Type := mkState {
  colors : Color.state;
  shapes : gmap loc shape;
  exts : gmap loc ext;
  trace : list event
}.

(** Run code of the colour module. *)
Definition in_colors {A} (m : M Color.state A) : M state A := λ st,
  let (o, c) := m (colors st) in
  (o, mkState c (shapes st) (exts st) (trace st)).

(** Read the instance at an address.  An address outside the store does
    not occur in Python; the model raises [ReferenceError] for it. *)
Definition read_shape (self : loc) : M state shape := λ st,
  match shapes st !! self with
  | Some s => (Ret s, st)
  | None => (Raise ReferenceError, st)
  end.

Definition alloc_shape (s : shape) : M state loc := λ st,
  let r := fresh_loc (shapes st) in
  (Ret r, mkState (colors st) (<[r := s]> (shapes st)) (exts st) (trace st)).

Definition alloc_ext (e : ext) : M state loc := λ st,
  let r := fresh_loc (exts st) in
  (Ret r, mkState (colors st) (shapes st) (<[r := e]> (exts st)) (trace st)).

(** [getattr(obj, name)] on an external object, for reading. *)
Definition ext_getattr (obj : loc) (name : string) : M state dval := λ st,
  match exts st !! obj with
  | Some e =>
      match attrs e !! name with
      | Some v => (Ret v, st)
      | None => (Raise AttributeError, st)
      end
  | None => (Raise ReferenceError, st)
  end.

(** [getattr(obj, name)] called on [args] on an external object: [AttributeError]
    when it has no such attribute, [TypeError] when the attribute is data
    and not callable; otherwise the call happens. *)
Definition ext_call (obj : loc) (name : string) (args : list dval)
    : M state unit := λ st,
  match exts st !! obj with
  | Some e =>
      if decide (name ∈ methods e) then
        (Ret tt, mkState (colors st) (shapes st) (exts st)
                   (ECall obj name args :: trace st))
      else if decide (is_Some (attrs e !! name)) then (Raise TypeError, st)
      else (Raise AttributeError, st)
  | None => (Raise ReferenceError, st)
  end.

(** *** [class Drawable] *)



(** [Shape.__getattr__(self, attr)] followed by a call,
    [getattr(self.geometric, attr)] called on [args]: what calling
    [self.attr] does
    for a name that no shape class defines. *)
Definition delegate_call (self : loc) (attr : string) (args : list dval)
    : M state unit :=
  s <- read_shape self ;;
  ext_call (geometric s) attr args.





(** *** [class Shape] and its subclasses *)

(** [Shape.__init__(self, geometric, color, line_color, line_width)] on a
    new instance of class [c]; the instance enters the store when the
    initializer returns (one that raised is unreachable). *)
Definition Shape_init (c : cls) (geometric : loc)
    (color line_color : pyval) (line_width : Q) : M state loc :=
  col <- in_colors (Color.new [color]) ;;
  lcol <- in_colors (Color.new [line_color]) ;;
  alloc_shape (mkShape c geometric col lcol line_width).

(** Keyword arguments [**kwds] as they reach [Shape.__init__]: the four
    parameters it knows, and the names of any other keywords. *)
Record kwds : Type := mkKwds {
  kw_geometric : option loc;
  kw_color : option pyval;
  kw_line_color : option pyval;
  kw_line_width : option Q;
  kw_other : list string
}.

(** [Shape.__init__(self, **kwds)]: binding the parameters raises
    [TypeError] for an unexpected keyword and for a missing [geometric];
    the other parameters have defaults. *)
Definition Shape_init_kwds (c : cls) (k : kwds) : M state loc :=
  match kw_other k, kw_geometric k with
  | [], Some g =>
      Shape_init c g (default (VStr "black") (kw_color k))
        (default (VStr "black") (kw_line_color k))
        (default 0%Q (kw_line_width k))
  | _, _ => raise TypeError
  end.

(** The arguments of [m.Rectangle]. *)
Record rect_args : Type := mkRectArgs {
  bbox : option (Q * Q * Q * Q);
  rect : option (Q * Q * Q * Q);
  shape_arg : option (Q * Q);
  pos_arg : option (Q * Q);
  xmin : option Q;
  ymin : option Q;
  xmax : option Q;
  ymax : option Q
}.

(** [Rectangle.__init__]: builds [obj = m.Rectangle(...)] (a constructor
    of [FGAme.mathutils], taken as a parameter), then calls
    [super(Poly, self).__init__] on [**kwds], which is [Shape.__init__]
    without [obj]. *)
Definition Rectangle_init (m_Rectangle : rect_args → outcome ext)
    (a : rect_args) (k : kwds) : M state loc :=
  e <- lift (m_Rectangle a) ;;
  obj <- alloc_ext e ;;
  Shape_init_kwds Rectangle k.

(** [get_vertices(self, tol)], by class. *)
Definition Shape_get_vertices (self : loc) (tol : Q) : M state dval :=
  raise NotImplementedError.
Definition AABB_get_vertices (self : loc) (tol : Q) : M state dval :=
  raise NotImplementedError.
Definition Poly_get_vertices (self : loc) (tol : Q) : M state dval :=
  s <- read_shape self ;;
  ext_getattr (geometric s) "vertices".

(** Method resolution: [Circle] inherits from [Shape], [Rectangle] from
    [Poly], both [Image] classes from [AABB]. *)
Definition get_vertices (self : loc) (tol : Q) : M state dval :=
  s <- read_shape self ;;
  match class_of s with
  | Shape | Circle => Shape_get_vertices self tol
  | AABB | Image | ImageTex => AABB_get_vertices self tol
  | Poly | Rectangle => Poly_get_vertices self tol
  end.

(** [draw(self, canvas)], by class. *)
Definition Shape_draw (self canvas : loc) : M state unit :=
  s <- read_shape self ;;
  match canvas_primitive (class_of s) with
  | Some tag => ext_call canvas ("draw_" +:+ tag) [DShape self]
  | None => raise TypeError
  end.
Definition Circle_draw (self canvas : loc) : M state unit :=
  ext_call canvas "draw_circle" [DShape self].
Definition AABB_draw (self canvas : loc) : M state unit :=
  ext_call canvas "draw_aabb" [DShape self].
Definition Poly_draw (self canvas : loc) : M state unit :=
  ext_call canvas "draw_poly" [DShape self].
(** [Image.draw] of [base.py]: [self.draw_image(self)]. *)
Definition Image_draw (self canvas : loc) : M state unit :=
  delegate_call self "draw_image" [DShape self].
(** [Image.draw] of [image.py]: [screen.draw_image(self)]. *)
Definition ImageTex_draw (self screen : loc) : M state unit :=
  ext_call screen "draw_image" [DShape self].

Definition draw (self canvas : loc) : M state unit :=
  s <- read_shape self ;;
  match class_of s with
  | Shape => Shape_draw self canvas
  | Circle => Circle_draw self canvas
  | AABB => AABB_draw self canvas
  | Poly | Rectangle => Poly_draw self canvas
  | Image => Image_draw self canvas
  | ImageTex => ImageTex_draw self canvas
  end.


(** *** Concrete objects used to evaluate the methods *)

(** Primitives as [FGAme.mathutils] would build them, and a canvas with
    the four drawing methods. *)
Definition disc : ext :=
  mkExt {[ "radius"%string := DNum 1; "pos"%string := DPoint (0, 0)%Q ]} [].
Definition box : ext :=
  mkExt {[ "xmin"%string := DNum 0; "xmax"%string := DNum 1;
           "ymin"%string := DNum 0; "ymax"%string := DNum 1 ]} [].
Definition square : ext :=
  mkExt {[ "vertices"%string :=
             DPoints [(0, 0)%Q; (1, 0)%Q; (1, 1)%Q; (0, 1)%Q] ]} [].
Definition canvas : ext :=
  mkExt ∅ ["draw_circle"; "draw_aabb"; "draw_poly"; "draw_image"]%string.

(** A store after loading the colour module.  Shapes, all black: a
    circle at address 1, an image (class [Image] of [base.py]) at
    address 2, a polygon at address 3.  External objects: their
    primitives 1, 2 and 4, the canvas 3, and a polygon 5 that no shape
    owns. *)
Definition demo_state : state :=
  mkState Color.init_state
    {[ 1%positive := mkShape Circle 1 (VRef 2) (VRef 2) 0;
       2%positive := mkShape Image 2 (VRef 2) (VRef 2) 0;
       3%positive := mkShape Poly 4 (VRef 2) (VRef 2) 0 ]}
    {[ 1%positive := disc; 2%positive := box;
       3%positive := canvas; 4%positive := square;
       5%positive := square ]}
    [].

(** A stand-in for [m.Rectangle]: the polygon of the corners of [bbox],
    given as (xmin, xmax, ymin, ymax). *)
Definition demo_Rectangle (a : rect_args) : outcome ext :=
  match bbox a with
  | Some (x0, x1, y0, y1) =>
      Ret (mkExt {[ "vertices"%string :=
                      DPoints [(x0, y0); (x1, y0); (x1, y1); (x0, y1)] ]} [])
  | None => Raise ValueError
  end.

Definition demo_args : rect_args :=
  mkRectArgs (Some (0, 1, 0, 1)%Q) None None None None None None None.

(** *** Constructors that pass the primitive by position *)

(** [Shape.__init__(self, geometric, **kwds)] as [Circle], [AABB] and
    [Poly] call it: binding the parameters raises [TypeError] for an
    unexpected keyword, and for a keyword [geometric], which would be a
    second value for the parameter given by position. *)
Definition Shape_init_args (c : cls) (geometric : loc) (k : kwds)
    : M state loc :=
  match kw_other k, kw_geometric k with
  | [], None =>
      Shape_init c geometric (default (VStr "black") (kw_color k))
        (default (VStr "black") (kw_line_color k))
        (default 0%Q (kw_line_width k))
  | _, _ => raise TypeError
  end.

(** [Circle.__init__(self, radius, pos, **kwds)], with the constructor
    [m.Circle] of [FGAme.mathutils] as a parameter. *)
Definition Circle_init (m_Circle : Q → Q * Q → outcome ext)
    (radius : Q) (pos : Q * Q) (k : kwds) : M state loc :=
  e <- lift (m_Circle radius pos) ;;
  obj <- alloc_ext e ;;
  Shape_init_args Circle obj k.

(** [AABB.__init__], with [m.AABB] as a parameter. *)
Definition AABB_init (m_AABB : rect_args → outcome ext)
    (a : rect_args) (k : kwds) : M state loc :=
  e <- lift (m_AABB a) ;;
  obj <- alloc_ext e ;;
  Shape_init_args AABB obj k.

(** [Poly.__init__(self, vertices, **kwds)], with [m.Poly] as a
    parameter. *)
Definition Poly_init (m_Poly : list (Q * Q) → outcome ext)
    (vertices : list (Q * Q)) (k : kwds) : M state loc :=
  e <- lift (m_Poly vertices) ;;
  obj <- alloc_ext e ;;
  Shape_init_args Poly obj k.

(** [Shape.from_primitive(cls, obj, color, line_color, line_width)].  The
    three [isinstance] tests against classes of [FGAme.mathutils] are
    parameters.  The instance is made by [Shape.__new__] and initialized
    by [Shape.__init__] itself, not by the initializer of the class
    chosen. *)
Definition from_primitive (AbstractCircle AbstractPoly AbstractAABB : ext → bool)
    (obj : loc) (color line_color : pyval) (line_width : Q) : M state loc :=
  e <- (λ st, match exts st !! obj with
              | Some e => (Ret e, st)
              | None => (Raise ReferenceError, st)
              end) ;;
  obj_cls <- (if AbstractCircle e then ret Circle
              else if AbstractPoly e then ret Poly
              else if AbstractAABB e then ret AABB
              else raise ValueError) ;;
  Shape_init obj_cls obj color line_color line_width.

(** *** Properties that read the primitive *)

(** The properties a class body defines with [delegate_property] or
    [@property]: the name bound and the attribute of [self.geometric]
    that the getter reads, in the order of the source. *)
Definition Circle_body : list (string * string) :=
  [("radius", "radius"); ("pos", "pos")]%string.
Definition AABB_body : list (string * string) :=
  [("xmin", "xmin"); ("xmax", "xmax"); ("ymin", "ymin"); ("ymax", "ymax");
   ("bbox", "bbox"); ("rect", "rect"); ("shape", "shape");
   ("pos", "pos"); ("pos", "pos_sw"); ("pos", "pos_nw"); ("pos", "pos_se");
   ("pos", "pos_ne")]%string.
Definition Poly_body : list (string * string) :=
  [("shape", "vertices")]%string.

(** Executing a class body: each binding replaces an earlier binding of
    the same name. *)
Definition class_dict (body : list (string * string)) : gmap string string :=
  foldl (λ d b, <[b.1 := b.2]> d) ∅ body.

(** The properties an instance of a class sees: [Rectangle] adds none to
    [Poly], the [Image] classes add none to [AABB]. *)
Definition properties (c : cls) : gmap string string :=
  match c with
  | Shape => ∅
  | Circle => class_dict Circle_body
  | AABB | Image | ImageTex => class_dict AABB_body
  | Poly | Rectangle => class_dict Poly_body
  end.

(** What reading an attribute yields: a value, a method of the shape's
    class bound to the shape, or a method of an external object bound to
    that object. *)
Inductive attribute : Type :=
  | AValue (v : dval)
  | AMethod (name : string)
  | AExtMethod (obj : loc) (name : string).

(** [getattr(obj, name)] on an external object. *)
Definition ext_attribute (obj : loc) (name : string) : M state attribute :=
  λ st,
  match exts st !! obj with
  | Some e =>
      if decide (name ∈ methods e) then (Ret (AExtMethod obj name), st)
      else match attrs e !! name with
           | Some v => (Ret (AValue v), st)
           | None => (Raise AttributeError, st)
           end
  | None => (Raise ReferenceError, st)
  end.

(** [Shape.__getattr__(self, attr)] *)
Definition Shape_getattr (self : loc) (attr : string) : M state attribute :=
  s <- read_shape self ;;
  ext_attribute (geometric s) attr.

(** The methods that the classes define under ordinary names, all of
    them in [Drawable] and [Shape] (the subclasses redefine [draw] and
    [get_vertices]), and the other names that an instance answers
    itself: the slots, the property [visualization] and the class
    attribute [canvas_primitive]. *)
Definition shape_methods : list string :=
  ["irotate"; "move"; "rescale"; "transform"; "copy"; "rescaled";
   "rotate"; "moved"; "transformed"; "update";
   "from_primitive"; "get_vertices"; "draw"]%string.
Definition own_names : list string :=
  ["geometric"; "color"; "line_color"; "line_width"; "sync";
   "visualization"; "canvas_primitive"]%string ++ shape_methods.

(** Names that the model does not answer: the special names, which
    [object] answers or not by the version of Python, and the
    attributes that hold objects outside the store, [manager] and
    [_data] of [Image] in [base.py] and [texture] of [Image] in
    [image.py]. *)
Definition unmodelled (c : cls) (name : string) : bool :=
  String.prefix "__" name
  || match c with
     | Image => bool_decide (name ∈ ["manager"; "_data"]%string)
     | ImageTex => bool_decide (name = "texture"%string)
     | _ => false
     end.

Definition found (m : M state attribute) : M state (option attribute) :=
  a <- m ;; ret (Some a).

(** Reading [self.name]: a property or a slot of the class first, then
    the methods and class attributes, and [Shape.__getattr__] when these
    fail with [AttributeError]: for a name that no class defines, for
    the slot [sync], which is never assigned, and for a property whose
    getter finds no such attribute on the primitive.  The result is
    [None] for a name that the model does not answer. *)
Definition shape_getattr (self : loc) (name : string)
    : M state (option attribute) :=
  s <- read_shape self ;;
  if unmodelled (class_of s) name then ret None
  else found (
    match properties (class_of s) !! name with
    | Some target =>
        try_except (ext_attribute (geometric s) target) AttributeError
          (Shape_getattr self name)
    | None =>
        if decide (name = "visualization"%string) then
          ret (AValue (DShape self))
        else if decide (name = "geometric"%string) then
          ret (AValue (DExt (geometric s)))
        else if decide (name = "color"%string) then
          ret (AValue (DPy (color s)))
        else if decide (name = "line_color"%string) then
          ret (AValue (DPy (line_color s)))
        else if decide (name = "line_width"%string) then
          ret (AValue (DNum (line_width s)))
        else if decide (name = "canvas_primitive"%string) then
          ret (AValue (DPy (match canvas_primitive (class_of s) with
                            | Some tag => VStr tag
                            | None => VNone
                            end)))
        else if decide (name ∈ shape_methods) then ret (AMethod name)
        else Shape_getattr self name
    end).

(** The primitive has an attribute of this name. *)
Definition ext_has (e : ext) (name : string) : bool :=
  bool_decide (name ∈ methods e) || bool_decide (is_Some (attrs e !! name)).

(** What a constructor that returned has done: one new shape of class
    [c] that owns one new primitive [e], and no call on an external
    object. *)
Definition built (c : cls) (e : ext) (col lcol : pyval) (lw : Q)
    (st : state) (r : outcome loc * state) : Prop :=
  let g := fresh_loc (exts st) in
  let s := fresh_loc (shapes st) in
  r.1 = Ret s ∧
  shapes r.2 = <[s := mkShape c g col lcol lw]> (shapes st) ∧
  exts r.2 = <[g := e]> (exts st) ∧
  trace r.2 = trace st ∧
  shapes st !! s = None ∧ exts st !! g = None.

End Draw.

(** ** [FGAme/draw/image.py] *)

Module Image.

(** What [PIL.Image.open(path)] followed by [load()] yields: the size and
    the mode of the decoded picture. *)
Record pil : Type := mkPil {
  width : Z;
  height : Z;
  mode : string
}.

(** [class Texture]: the attributes [_pil] and [path] set by
    [__init__].  The class has no method [rotate] and no method
    [rescale]. *)
Record Texture : Type := mkTexture {
  _pil : pil;
  path : string
}.

(** A positional call of [get_texture]: [get_texture(path)],
    [get_texture(path, theta)] or [get_texture(path, theta, scale)].
    [functools.lru_cache] builds its key from the arguments as they are
    passed, so the three forms never share a key. *)
Inductive call : Type :=
  | Call1 (path : string)
  | Call2 (path : string) (theta : Z)
  | Call3 (path : string) (theta scale : Z).

#[global] Instance call_eq_dec : EqDecision call.
Proof. solve_decision. Defined.

Definition path_of (c : call) : string :=
  match c with Call1 p | Call2 p _ | Call3 p _ _ => p end.
(** The parameters with their defaults [theta=0] and [scale=1]. *)
Definition theta_of (c : call) : Z :=
  match c with Call1 _ => 0 | Call2 _ t | Call3 _ t _ => t end.
Definition scale_of (c : call) : Z :=
  match c with Call1 _ | Call2 _ _ => 1 | Call3 _ _ s => s end.

(** The store: the cache of [lru_cache] (most recently used first), and
    the textures. *)
Record state : Type := mkState {
  lru : list (call * loc);
  textures : gmap loc Texture
}.

Definition maxsize : nat := 512.

Fixpoint cache_get (k : call) (l : list (call * loc)) : option loc :=
  match l with
  | [] => None
  | (k', t) :: l' => if decide (k' = k) then Some t else cache_get k l'
  end.

Fixpoint cache_remove (k : call) (l : list (call * loc))
    : list (call * loc) :=
  match l with
  | [] => []
  | (k', t) :: l' =>
      if decide (k' = k) then cache_remove k l'
      else (k', t) :: cache_remove k l'
  end.

(** Storing a result after a miss: nothing to do when the key got in
    during the call; when the cache is full the least recently used
    entry makes room. *)
Definition cache_store (k : call) (t : loc) (l : list (call * loc))
    : list (call * loc) :=
  match cache_get k l with
  | Some _ => l
  | None =>
      if decide (maxsize ≤ length l)%nat then (k, t) :: removelast l
      else (k, t) :: l
  end.

(** [functools.lru_cache(maxsize=512)] around [f]: a hit returns the
    cached result and makes the entry the most recent one; a miss calls
    [f] and stores what it returns; an exception of [f] passes through
    and nothing is stored. *)
Definition lru_cache (f : call → M state loc) (k : call) : M state loc :=
  λ st,
  match cache_get k (lru st) with
  | Some t =>
      (Ret t, mkState ((k, t) :: cache_remove k (lru st)) (textures st))
  | None =>
      match f k st with
      | (Ret t, st') =>
          (Ret t, mkState (cache_store k t (lru st')) (textures st'))
      | r => r
      end
  end.

Section decoder.

(** The decoder, [PIL.Image.open(path)] and [load()]: a picture or an
    exception. *)
Variable PIL_open : string → outcome pil.

(** [Texture(path)] *)
Definition Texture_new (p : string) : M state loc :=
  img <- lift (PIL_open p) ;;
  λ st, let r := fresh_loc (textures st) in
        (Ret r, mkState (lru st) (<[r := mkTexture img p]> (textures st))).

(** The function under the decorator.  [get_texture] in its body is the
    decorated function.  [.rotate(theta)] on the texture it returns
    raises [AttributeError]: [Texture] has no such method. *)
Definition get_texture_body (get_texture : call → M state loc) (c : call)
    : M state loc :=
  if decide (theta_of c = 0 ∧ scale_of c = 1) then
    Texture_new (path_of c)
  else
    base <- get_texture (Call1 (path_of c)) ;;
    raise AttributeError.

(** The inner call has the default [theta] and [scale] and does not
    call further: two unfoldings are the whole function
    ([get_texture_unfold]). *)
Definition get_texture1 : call → M state loc :=
  lru_cache (get_texture_body (λ _, raise RecursionError)).
Definition get_texture : call → M state loc :=
  lru_cache (get_texture_body get_texture1).

(** The first statement of [Image.__init__]: bind [self.texture] to the
    texture given, or to [get_texture(path)].  (The rest of the
    initializer reads the texture's size and calls the base initializer;
    it is not modelled.) *)
Definition Image_texture (path_or_texture : string + loc) : M state loc :=
  match path_or_texture with
  | inr t => ret t
  | inl p => get_texture (Call1 p)
  end.

End decoder.


(** *** Concrete objects used to evaluate the functions *)

(** A decoder for which every path holds the same one-pixel picture. *)
Definition demo_open (p : string) : outcome pil := Ret (mkPil 1 1 "RGB").

(** The store when the module is loaded: nothing cached. *)
Definition init_state : state := mkState [] ∅.




(** All cached keys are calls for an unrotated, unscaled texture. *)
Definition base_only (st : state) : Prop :=
  Forall (λ e : call * loc, theta_of e.1 = 0 ∧ scale_of e.1 = 1) (lru st).


(** *** The cache and the textures *)

(** [t] is a texture for the key [k]: it is in the store, its attribute
    [path] is the path of [k] and its [_pil] is the picture decoded from
    that path. *)
Definition fits (PIL_open : string → outcome pil) (st : state)
    (k : call) (t : loc) : Prop :=
  ∃ tex, textures st !! t = Some tex ∧ path tex = path_of k ∧
         PIL_open (path_of k) = Ret (_pil tex).

(** Every cached texture is a texture for its key. *)
Definition sound (PIL_open : string → outcome pil) (st : state) : Prop :=
  Forall (λ e : call * loc, fits PIL_open st e.1 e.2) (lru st).

(** [f] keeps the cache sound and the textures that exist, and returns
    a texture for the key it is called on. *)
Definition keeps_sound (PIL_open : string → outcome pil)
    (f : call → M state loc) : Prop :=
  ∀ k st, sound PIL_open st →
    sound PIL_open (f k st).2 ∧
    (∀ t tex, textures st !! t = Some tex →
              textures (f k st).2 !! t = Some tex) ∧
    (∀ t, (f k st).1 = Ret t → fits PIL_open (f k st).2 k t).

(** *** [Image.__init__] *)

(** The property [Texture.shape]: [(self._pil.width, self._pil.height)]. *)
Definition Texture_shape (t : loc) : M state (Z * Z) := λ st,
  match textures st !! t with
  | Some tex => (Ret (width (_pil tex), height (_pil tex)), st)
  | None => (Raise ReferenceError, st)
  end.

(** The initializer runs on the store of the textures and the store of
    the shapes. *)
Definition on_textures {A} (m : M state A) : M (state * Draw.state) A :=
  λ s, let '(o, st') := m s.1 in (o, (st', s.2)).
Definition on_shapes {A} (m : M Draw.state A) : M (state * Draw.state) A :=
  λ s, let '(o, st') := m s.2 in (o, (s.1, st')).

Section constructor.

Variable PIL_open : string → outcome pil.
(** [asvector] of [FGAme.mathtools]. *)
Variable asvector : Draw.dval → outcome Draw.dval.

(** [Image.__init__(self, path_or_texture, pos, reference)].  With
    [reference == 'origin'] the initializer reads [self.shape], a
    property that reads [self.geometric]: the slot is not yet assigned
    and [Shape.__getattr__], which reads [self.geometric] again, recurses
    until [RecursionError].  The last statement calls
    [super(AABB, self).__init__(pos=pos, shape=shape)], which is
    [Shape.__init__] with the keywords [pos] and [shape]. *)
Definition Image_init (path_or_texture : string + loc) (pos : Draw.dval)
    (reference : string) : M (state * Draw.state) loc :=
  texture <- on_textures (Image_texture PIL_open path_or_texture) ;;
  size <- on_textures (Texture_shape texture) ;;
  shape <- lift (asvector (Draw.DPoint (inject_Z size.1, inject_Z size.2))) ;;
  pos <- (if decide (reference = "center"%string) then lift (asvector pos)
          else if decide (reference = "origin"%string)
               then raise RecursionError
               else raise ValueError) ;;
  on_shapes (Draw.Shape_init_kwds Draw.ImageTex
               (Draw.mkKwds None None None None ["pos"; "shape"]%string)).

End constructor.

(** *** Recency *)

(** The position of the entry of [k] in the cache, counted from the most
    recently used one. *)
Fixpoint cache_rank (k : call) (l : list (call * loc)) : option nat :=
  match l with
  | [] => None
  | (k', _) :: l' =>
      if decide (k' = k) then Some 0%nat else S <$> cache_rank k l'
  end.




End Image.

(** * Properties *)

(** ** Addresses *)

Lemma fresh_loc_lt {A} (m : gmap loc A) k :
  is_Some (m !! k) → (k < fresh_loc m)%positive.
Proof.
  unfold fresh_loc.
  induction m as [|i x m Hi Hfold IH] using map_first_key_ind.
  - intros [? H]. by rewrite lookup_empty in H.
  - rewrite map_fold_insert_first_key by done.
    rewrite lookup_insert. case_decide as Hk.
    + subst. intros _. lia.
    + intros H. specialize (IH H). lia.
Qed.

Lemma fresh_loc_fresh {A} (m : gmap loc A) : m !! fresh_loc m = None.
Proof.
  destruct (m !! fresh_loc m) eqn:H; [|done].
  assert (fresh_loc m < fresh_loc m)%positive
    by (apply fresh_loc_lt; eauto).
  lia.
Qed.


(** ** The colour module *)

Module ColorProofs.
Import Color.

Lemma length_chars s : length (chars s) = String.length s.
Proof. induction s; simpl; congruence. Qed.

Lemma py_len_inv v st n st' :
  py_len v st = (Ret n, st') →
  st' = st ∧ (py_len v st).1 = Ret n.
Proof. intros H. rewrite H. split; [|done]. destruct v; simpl in H; repeat case_match; by simplify_eq. Qed.

Lemma py_len_raise v st e st' :
  py_len v st = (Raise e, st') → st' = st.
Proof. destruct v; simpl; repeat case_match; intros; by simplify_eq. Qed.

Lemma CACHE_getitem_inv k st o st' :
  CACHE_getitem k st = (o, st') →
  st' = st ∧
  (o = Raise KeyError → CACHE st !! k = None) ∧
  (∀ v, o = Ret v → CACHE st !! k = Some v).
Proof.
  unfold CACHE_getitem. intros H.
  repeat case_match; simplify_eq; split_and!; try done; congruence.
Qed.

Lemma py_items_state v st : (py_items v st).2 = st.
Proof. destruct v; simpl; try done. by repeat case_match. Qed.

Lemma new_body_inv f args st :
  new_step f args st (new_body f args st).1 (new_body f args st).2.
Proof.
  unfold new_body, try_except. fold (unwrap args).
  destruct (CACHE_getitem (VTuple args) st) as [[v|e] st0] eqn:H0;
    apply CACHE_getitem_inv in H0 as (-> & Hmiss & Hhit); simpl.
  { eapply new_hit; [by left|by apply Hhit]. }
  case_decide as He; [subst e|apply new_fail].
  unfold bind.
  destruct (py_len (unwrap args) st) as [[n|e] st0] eqn:Hn.
  2:{ apply py_len_raise in Hn as ->. apply new_fail. }
  apply py_len_inv in Hn as [-> Hn].
  case_decide as H3; [|case_decide as H4].
  - (* three items *)
    subst n.
    destruct (CACHE_getitem (unwrap args) st) as [[v|e] st0] eqn:H1;
      apply CACHE_getitem_inv in H1 as (-> & Hmiss1 & Hhit1); simpl.
    { eapply new_hit; [by right|by apply Hhit1]. }
    case_decide as He; [subst e|apply new_fail].
    destruct (unwrap args) as [| | |l|] eqn:Ha; simpl; try apply new_fail.
    assert (length l = 3%nat) as Hl by (simpl in Hn; injection Hn; lia).
    unfold ret at 1.
    destruct (f (l ++ [VInt 255]) st) as [[v|e] st1] eqn:Hf; simpl.
    2:{ by eapply new_three_fail. }
    unfold CACHE_setitem, ret.
    destruct (hashable (heap st1) (VTuple l)); simpl.
    + eapply new_three; eauto.
    + by eapply new_three_fail.
  - (* four items *)
    subst n.
    destruct (CACHE_getitem (unwrap args) st) as [[v|e] st0] eqn:H1;
      apply CACHE_getitem_inv in H1 as (-> & Hmiss1 & Hhit1); simpl.
    { eapply new_hit; [by right|by apply Hhit1]. }
    case_decide as He; [subst e|apply new_fail].
    unfold new_instance, bind.
    pose proof (py_items_state (unwrap args) st) as Hst.
    destruct (py_items (unwrap args) st) as [[its|e] st0]; simpl in Hst;
      subst st0; [|apply new_fail].
    destruct its as [|cr [|cg [|cb [|ca [|]]]]]; try apply new_fail.
    unfold alloc, CACHE_setitem, ret; simpl.
    destruct (hashable _ (unwrap args)); simpl.
    + apply new_four; auto using fresh_loc_fresh.
    + apply new_four_fail, fresh_loc_fresh.
  - (* any other length *)
    unfold CACHE_delitem, ret.
    destruct (hashable (heap st) (unwrap args)); [|apply new_fail].
    destruct (CACHE st !! unwrap args); simpl; [|apply new_fail].
    by eapply new_del.
Qed.

(** Case analysis on the effects of [new_body f args st]. *)
Ltac new_cases f args st :=
  let Hs := fresh "Hs" in
  pose proof (new_body_inv f args st) as Hs;
  destruct (new_body f args st) as [out st']; simpl in *;
  inversion Hs as
    [ kh vh Hkh Hvh
    | ex
    | l3 v3 st1 Hu Hl3 Hmiss Hf
    | l3 o3 ex st1 Hu Hl3 Hf
    | r4 o4 Hlen Hmiss Hfresh
    | r4 o4 ex Hfresh
    | nd Hlen Hn3 Hn4 ]; subst; simpl; clear Hs.

Lemma py_len_color_key k st :
  color_key k → (py_len k st).1 = Ret 3 ∨ (py_len k st).1 = Ret 4.
Proof. intros (l & -> & [Hl|Hl]); simpl; rewrite Hl; auto. Qed.

Lemma unwrap_len4 args : length args = 4%nat → unwrap args = VTuple args.
Proof. by do 5 (destruct args as [|? args]; try discriminate). Qed.

Lemma color_key_len4 l : length l = 4%nat → color_key (VTuple l).
Proof. intros Hl. exists l. auto. Qed.

Lemma good_raise e : good (λ _, raise e).
Proof. by split. Qed.

Lemma good_new_body f : good f → good (new_body f).
Proof.
  intros [Hkeep Hheap Hcoh Hcached]. split.
  - (* entries are kept *)
    intros args st k v Hkey Hv. new_cases f args st; try done.
    + rewrite lookup_insert_ne by congruence.
      replace st1 with (f (l3 ++ [VInt 255]) st).2 by (by rewrite Hf).
      apply Hkeep; [|done].
      destruct (decide (k = VTuple (l3 ++ [VInt 255]))) as [->|Hne].
      * left. apply color_key_len4. rewrite length_app, Hl3. done.
      * right. rewrite unwrap_len4; [done|]. by rewrite length_app, Hl3.
    + replace st' with (f (l3 ++ [VInt 255]) st).2 by (by rewrite Hf).
      apply Hkeep; [|done].
      destruct (decide (k = VTuple (l3 ++ [VInt 255]))) as [->|Hne].
      * left. apply color_key_len4. rewrite length_app, Hl3. done.
      * right. rewrite unwrap_len4; [done|]. by rewrite length_app, Hl3.
    + rewrite lookup_insert_ne by congruence. done.
    + rewrite lookup_delete_ne; [done|]. intros <-.
      destruct Hkey as [Hkey|Hkey]; [|done].
      destruct (py_len_color_key _ st Hkey); congruence.
  - (* objects are kept *)
    intros args st r o Hr. new_cases f args st; try done.
    + replace st1 with (f (l3 ++ [VInt 255]) st).2 by (by rewrite Hf). auto.
    + replace st' with (f (l3 ++ [VInt 255]) st).2 by (by rewrite Hf). auto.
    + rewrite lookup_insert_ne; [done|]. congruence.
    + rewrite lookup_insert_ne; [done|]. congruence.
  - (* coherence is kept *)
    intros args st [Hr H34]. new_cases f args st; try done.
    + pose proof (Hcoh (l3 ++ [VInt 255]) st (conj Hr H34)) as [Hr1 H341].
      pose proof (Hcached (l3 ++ [VInt 255]) st v3) as Hv.
      rewrite Hf in Hr1, H341, Hv; simpl in *.
      rewrite length_app, Hl3 in Hv. specialize (Hv eq_refl eq_refl).
      split; simpl.
      * intros k w. rewrite lookup_insert. case_decide; [|by apply Hr1].
        intros [= <-]. by eapply Hr1.
      * intros cr cg cb w. rewrite lookup_insert. case_decide as Hk'.
        -- intros [= <-]. injection Hk' as ->.
           by rewrite lookup_insert_ne by congruence.
        -- intros Hw. rewrite lookup_insert_ne; [by apply H341|].
           intros [= ->]. done.
    + pose proof (Hcoh (l3 ++ [VInt 255]) st (conj Hr H34)) as Hc'.
      by rewrite Hf in Hc'.
    + split; simpl.
      * intros k w. rewrite lookup_insert. case_decide; [|by apply Hr].
        intros [= <-]. eauto.
      * intros cr cg cb w. rewrite lookup_insert. case_decide as Hk'.
        { rewrite Hk' in Hlen. done. }
        intros Hw. apply H34 in Hw. rewrite lookup_insert_ne; [done|].
        congruence.
    + split; simpl.
      * intros k w [_ Hw]%lookup_delete_Some. eauto.
      * intros cr cg cb w [_ Hw]%lookup_delete_Some.
        rewrite lookup_delete_ne; [auto|].
        intros Hk'. rewrite Hk' in Hlen. by simplify_eq/=.
  - (* the result for four arguments is cached *)
    intros args st v Hl Hv. rewrite <- (unwrap_len4 args Hl).
    new_cases f args st; simplify_eq; try done.
    + destruct Hkh as [->| ->]; [by rewrite unwrap_len4|done].
    + rewrite unwrap_len4 in Hu by done. simplify_eq. lia.
    + apply lookup_insert_eq.
    + rewrite unwrap_len4 in Hlen by done. simpl in Hlen.
      rewrite Hl in Hlen. by simplify_eq/=.
Qed.

Lemma good_new4 : good new4.
Proof. apply good_new_body, good_raise. Qed.

Lemma good_new : good new.
Proof. apply good_new_body, good_new4. Qed.

Lemma hashable_channels h t : Forall channel t → hashable h (VTuple t) = true.
Proof.
  simpl. intros Ht. induction Ht as [|v l (z & -> & _) _ IH]; simpl; [done|].
  exact IH.
Qed.


Lemma new_body_four f t st :
  length t = 4%nat → Forall channel t →
  (∀ v, CACHE st !! VTuple t = Some v → ∃ r, v = VRef r) →
  ∃ r st1, new_body f t st = (Ret (VRef r), st1) ∧
           CACHE st1 !! VTuple t = Some (VRef r).
Proof.
  intros Hl Ht Href. pose proof (hashable_channels (heap st) t Ht) as Hh.
  unfold new_body, try_except, CACHE_getitem. fold (unwrap t).
  rewrite (unwrap_len4 t Hl), Hh.
  destruct (CACHE st !! VTuple t) as [v|] eqn:Hv.
  { destruct (Href v eq_refl) as [r ->]. eauto. }
  rewrite decide_True by done.
  unfold bind. simpl py_len. rewrite Hl. cbn match.
  rewrite decide_False by done. rewrite decide_True by done.
  rewrite Hh, Hv, decide_True by done.
  do 5 (destruct t as [|? t]; try discriminate).
  unfold new_instance, bind, alloc, CACHE_setitem, ret. simpl py_items. cbn match.
  cbn [heap CACHE].
  rewrite (hashable_channels _ _ Ht).
  do 2 eexists. split; [reflexivity|]. simpl. apply lookup_insert_eq.
Qed.

Lemma new_valid st t :
  coherent st → valid_tuple t →
  ∃ r st1, new t st = (Ret (VRef r), st1) ∧
           CACHE st1 !! VTuple (canon t) = Some (VRef r) ∧ coherent st1.
Proof.
  intros Hcoh [Hl Ht].
  assert (∃ r st1, new t st = (Ret (VRef r), st1) ∧
                   CACHE st1 !! VTuple (canon t) = Some (VRef r))
    as (r & st1 & Hnew & Hc).
  2:{ exists r, st1. split_and!; try done.
      replace st1 with (new t st).2 by (by rewrite Hnew).
      by apply good_new. }
  destruct Hl as [Hl|Hl].
  2:{ replace (canon t) with t
        by (by do 5 (destruct t as [|? t]; try discriminate)).
      apply new_body_four; try done. intros v Hv. by eapply Hcoh. }
  pose proof (hashable_channels (heap st) t Ht) as Hh.
  do 4 (destruct t as [|? t]; try discriminate). clear Hl.
  unfold new, new_body at 1, try_except, CACHE_getitem. rewrite Hh.
  destruct (CACHE st !! VTuple [p; p0; p1]) as [v|] eqn:Hv.
  { destruct Hcoh as [Href H34]. destruct (Href _ _ Hv) as [r ->].
    exists r, st. split; [done|]. by apply H34. }
  rewrite decide_True by done.
  unfold bind. simpl py_len. cbn match.
  rewrite decide_True by done. rewrite Hh, Hv, decide_True by done.
  unfold add_255, ret at 1. cbn match.
  destruct (new_body_four (λ _, raise RecursionError)
              ([p; p0; p1] ++ [VInt 255]) st)
    as (r & st1 & Hnew & Hc).
  { done. }
  { apply Forall_app; split; [done|]. repeat constructor. exists 255. split; [done|lia]. }
  { intros v Hv'. by eapply Hcoh. }
  unfold new4. rewrite Hnew. unfold CACHE_setitem, ret.
  rewrite (hashable_channels _ _ Ht).
  exists r. eexists. split; [reflexivity|]. simpl.
  by rewrite lookup_insert_ne.
Qed.




Lemma coherent_empty : coherent (State ∅ ∅).
Proof. split; intros *; simpl; by rewrite lookup_empty. Qed.

Lemma new_body_len4 f g l st :
  length l = 4%nat → new_body f l st = new_body g l st.
Proof.
  intros Hl. unfold new_body, try_except. fold (unwrap l).
  rewrite (unwrap_len4 l Hl).
  destruct (CACHE_getitem (VTuple l) st) as [[v|e] st0]; [done|].
  case_decide; [|done]. unfold bind. simpl py_len. rewrite Hl. cbn match.
  rewrite decide_False by done. done.
Qed.

Lemma new_unfold args st : new args st = new_body new args st.
Proof.
  unfold new at 1. unfold new_body, try_except.
  destruct (CACHE_getitem (VTuple args) st) as [[v|e] st0]; [done|].
  case_decide; [|done]. fold (unwrap args). unfold bind.
  destruct (py_len (unwrap args) st0) as [[n|e'] st1] eqn:Hn; [|done].
  case_decide; [|done]. subst n.
  destruct (CACHE_getitem (unwrap args) st1) as [[v|e'] st2]; [done|].
  case_decide; [|done].
  destruct (unwrap args) as [| | |l|]; try done. simpl.
  assert (length (l ++ [VInt 255]) = 4%nat) as Hl.
  { simpl in Hn. rewrite length_app. simpl. injection Hn. lia. }
  unfold new, new4. by rewrite (new_body_len4 _ new4 _ _ Hl).
Qed.

Lemma init_state_CACHE :
  map_to_list (CACHE init_state) =
  [(VTuple [VInt 255; VInt 255; VInt 255; VInt 255], VRef 1);
   (VTuple [VInt 0; VInt 0; VInt 255; VInt 255], VRef 5);
   (VTuple [VInt 0; VInt 255; VInt 0; VInt 255], VRef 4);
   (VTuple [VInt 255; VInt 0; VInt 0; VInt 255], VRef 3);
   (VTuple [VInt 0; VInt 0; VInt 0; VInt 255], VRef 2);
   (VTuple [VStr "green"], VRef 4); (VTuple [VStr "black"], VRef 2);
   (VTuple [VStr "blue"], VRef 5); (VTuple [VStr "white"], VRef 1);
   (VTuple [VStr "red"], VRef 3);
   (VTuple [VInt 255; VInt 255; VInt 255], VRef 1);
   (VTuple [VInt 0; VInt 0; VInt 255], VRef 5);
   (VTuple [VInt 0; VInt 255; VInt 0], VRef 4);
   (VTuple [VInt 255; VInt 0; VInt 0], VRef 3);
   (VTuple [VInt 0; VInt 0; VInt 0], VRef 2)].
Proof. vm_compute. reflexivity. Qed.

Lemma coherent_init : coherent init_state.
Proof.
  split.
  - change (map_Forall (λ _ v, ∃ r, v = VRef r) (CACHE init_state)).
    apply map_Forall_to_list. rewrite init_state_CACHE.
    repeat constructor; simpl; eauto.
  - assert (map_Forall
             (λ k v, match k with
                     | VTuple [cr; cg; cb] =>
                         CACHE init_state !! VTuple [cr; cg; cb; VInt 255]
                         = Some v
                     | _ => True
                     end) (CACHE init_state)) as H.
    { apply map_Forall_to_list. rewrite init_state_CACHE.
      repeat constructor; simpl; vm_compute; reflexivity. }
    intros cr cg cb v Hv. exact (H _ _ Hv).
Qed.

(** Every store reached from the loaded module by constructor calls is
    coherent. *)
Lemma coherent_reachable calls : coherent (run_calls calls init_state).
Proof.
  generalize coherent_init. generalize init_state as st.
  induction calls as [|args calls IH]; intros st Hcoh; simpl; [done|].
  by apply IH, good_new.
Qed.

Lemma new_bad_arity st args :
  length args ≠ 1%nat → length args ≠ 3%nat → length args ≠ 4%nat →
  hashable (heap st) (VTuple args) = true →
  CACHE st !! VTuple args = None →
  new args st = (Raise KeyError, st).
Proof.
  intros H1 H3 H4 Hh Hmiss.
  unfold new, new_body, try_except, CACHE_getitem. fold (unwrap args).
  rewrite Hh, Hmiss, decide_True by done.
  replace (unwrap args) with (VTuple args)
    by (by destruct args as [|? [|? ?]]).
  unfold bind. simpl py_len. cbn match.
  rewrite !decide_False by lia.
  unfold CACHE_delitem. by rewrite Hh, Hmiss.
Qed.

(** C4.  Evaluation of the constructor on an unknown colour name and on
    a malformed argument, in the state after loading the module:
    [Color('gray')] does not fail but returns a new instance whose slots
    are the four characters, and adds it to the cache; [Color(('white',))]
    does not fail either, deletes the entry of the name [white] and
    returns [None], after which [Color('white')] raises [KeyError]; an
    unknown name of three letters raises [TypeError]. *)
Theorem new_unknown_name :
  let st := init_state in
  let gray := new [VStr "gray"] st in
  let unwhite := new [VTuple [VStr "white"]] st in
  CACHE st !! VStr "gray" = None ∧
  gray.1 = Ret (VRef 6) ∧
  heap gray.2 !! 6%positive
    = Some (Instance (VStr "g") (VStr "r") (VStr "a") (VStr "y")) ∧
  CACHE gray.2 !! VStr "gray" = Some (VRef 6) ∧
  CACHE st !! VTuple [VStr "white"] = Some (VRef 1) ∧
  unwhite.1 = Ret VNone ∧
  CACHE unwhite.2 !! VTuple [VStr "white"] = None ∧
  (new [VStr "white"] unwhite.2).1 = Raise KeyError ∧
  (new [VStr "tan"] st).1 = Raise TypeError.
Proof. vm_compute. repeat split. Qed.

Lemma tuple_slice_elem {A} (t : list A) a b c l :
  tuple_slice t a b c = Ret l → Forall (λ x, x ∈ t) l.
Proof.
  unfold tuple_slice.
  destruct (slice_bounds _ a b c) as [[[lo hi] step]|]; simpl; [|done].
  intros [= <-]. apply Forall_forall. intros x Hx.
  apply list_elem_of_In, list_elem_of_omap in Hx as (i & _ & Hi).
  by eapply list_elem_of_lookup_2.
Qed.

Lemma omapM_ext {A B} (f g : A → outcome B) l :
  Forall (λ x, f x = g x) l → omapM f l = omapM g l.
Proof. induction 1 as [|x l Hx _ IH]; simpl; [done|]. by rewrite Hx, IH. Qed.

Section getitem.
Variables cr cg cb ca : pyval.

Lemma getitem_unfold key :
  getitem cr cg cb ca key = getitem_body (getitem cr cg cb ca) cr cg cb ca key.
Proof.
  destruct key as [k|a b c|v]; [| |done].
  - unfold getitem. set (g1 := getitem1 cr cg cb ca).
    unfold getitem_body. repeat (case_decide; [done|]).
    case_decide; [|done]. case_decide; [done|].
    unfold g1, getitem1, getitem_body. repeat (case_decide; try lia). done.
  - unfold getitem. unfold getitem_body at 1 2.
    destruct (tuple_slice _RANGE a b c) as [idx|] eqn:Hidx; simpl; [|done].
    rewrite (omapM_ext (λ i, getitem1 cr cg cb ca (IdxInt i))
               (λ i, getitem_body (getitem1 cr cg cb ca) cr cg cb ca (IdxInt i)));
      [done|].
    pose proof (tuple_slice_elem _ _ _ _ _ Hidx) as Hel.
    clear Hidx. induction Hel as [|i idx' Hi _ IH]; constructor; [|done].
    unfold _RANGE in Hi. set_unfold in Hi.
    by destruct Hi as [->|[->|[->|[->|[]]]]].
Qed.

Lemma getitem_in_range (k : nat) v :
  [cr; cg; cb; ca] !! k = Some v → getitem cr cg cb ca (IdxInt (Z.of_nat k)) = Ret v.
Proof.
  do 4 (destruct k as [|k]; [by intros [= <-]|]). done.
Qed.

Lemma getitem_too_large k :
  4 ≤ k → getitem cr cg cb ca (IdxInt k) = Raise IndexError.
Proof.
  intros Hk. unfold getitem, getitem_body.
  repeat (case_decide; try lia). done.
Qed.

Lemma getitem_negative k :
  k < 0 → getitem cr cg cb ca (IdxInt k) = Raise IndexError.
Proof.
  intros Hk. unfold getitem, getitem_body.
  repeat (case_decide; try lia).
  unfold getitem1, getitem_body. repeat (case_decide; try lia). done.
Qed.

Lemma getitem_slice a b c :
  getitem cr cg cb ca (IdxSlice a b c)
  = obind (tuple_slice [cr; cg; cb; ca] a b c) (λ items, Ret (VTuple items)).
Proof.
  unfold getitem, getitem_body, tuple_slice. simpl length.
  destruct (slice_bounds _ a b c) as [[[lo hi] step]|]; [|done].
  cbn [obind].
  assert (omapM (λ i, getitem1 cr cg cb ca (IdxInt i))
            (omap (λ i, _RANGE !! Z.to_nat i) (py_range lo hi step))
          = Ret (omap (λ i, [cr; cg; cb; ca] !! Z.to_nat i) (py_range lo hi step)))
    as ->; [|done].
  set (f := λ i : Z, getitem1 cr cg cb ca (IdxInt i)).
  assert (f 0 = Ret cr ∧ f 1 = Ret cg ∧ f 2 = Ret cb ∧ f 3 = Ret ca)
    as (H0 & H1 & H2 & H3) by done.
  clearbody f. unfold omap.
  induction (py_range lo hi step) as [|i R IH]; simpl; [done|].
  destruct (Z.to_nat i) as [|[|[|[|n]]]]; simpl;
    rewrite ?H0, ?H1, ?H2, ?H3; cbn [obind]; by rewrite ?IH.
Qed.

Lemma getitem_other v : getitem cr cg cb ca (IdxOther v) = Raise TypeError.
Proof. done. Qed.

(** C7.  Evaluation of [Color.__getitem__] on a negative index: for
    every colour, [c[-1]] and [c[-4]] raise [IndexError] (the method
    computes [len(self) - key] where [len(self) + key] selects from the
    end). *)
Theorem getitem_minus_one :
  getitem cr cg cb ca (IdxInt (-1)) = Raise IndexError ∧
  getitem cr cg cb ca (IdxInt (-4)) = Raise IndexError.
Proof. split; by apply getitem_negative. Qed.

End getitem.

Lemma black_seeded_init : black_seeded init_state.
Proof. exists 2%positive. by vm_compute. Qed.

(** The entry of [black] stays unless the constructor is called on the
    1-tuple of that name itself. *)
Lemma black_seeded_new args st :
  black_seeded st → unwrap args ≠ VTuple [VStr "black"] →
  black_seeded (new args st).2.
Proof.
  intros (r & Hc & Hh) Hne. exists r. split.
  - apply good_new; [right; congruence|done].
  - by apply good_new.
Qed.

Lemma attr_rgb_state v st : (attr_rgb v st).2 = st.
Proof. unfold attr_rgb. by repeat case_match. Qed.

Lemma attr_rgba_state v st : (attr_rgba v st).2 = st.
Proof. unfold attr_rgba. by repeat case_match. Qed.

Lemma attr_rgb_falsy x st :
  truthy x = false → attr_rgb x st = (Raise AttributeError, st).
Proof. by destruct x. Qed.

Lemma attr_rgba_falsy x st :
  truthy x = false → attr_rgba x st = (Raise AttributeError, st).
Proof. by destruct x. Qed.

Lemma new_black st r :
  CACHE st !! VTuple [VStr "black"] = Some (VRef r) →
  new [VStr "black"] st = (Ret (VRef r), st).
Proof.
  intros H. unfold new, new_body, try_except, CACHE_getitem. simpl hashable.
  by rewrite H.
Qed.

(** C10.  Evaluation of [rgb] and [rgba] on falsy inputs.  After the
    module is loaded they return (0, 0, 0) and (0, 0, 0, 255) for [None],
    for 0 and for the empty string.  The call [Color(('black',))]
    returns [None] and deletes the name from the cache; from then on
    [rgb] and [rgba] raise [KeyError] for the same inputs. *)
Theorem rgb_black_deleted :
  let st := (new [VTuple [VStr "black"]] init_state).2 in
  (rgb VNone init_state).1 = Ret (VTuple [VInt 0; VInt 0; VInt 0]) ∧
  (rgb (VInt 0) init_state).1 = Ret (VTuple [VInt 0; VInt 0; VInt 0]) ∧
  (rgb (VStr "") init_state).1 = Ret (VTuple [VInt 0; VInt 0; VInt 0]) ∧
  (rgba VNone init_state).1
    = Ret (VTuple [VInt 0; VInt 0; VInt 0; VInt 255]) ∧
  (rgba (VInt 0) init_state).1
    = Ret (VTuple [VInt 0; VInt 0; VInt 0; VInt 255]) ∧
  (rgba (VStr "") init_state).1
    = Ret (VTuple [VInt 0; VInt 0; VInt 0; VInt 255]) ∧
  (new [VTuple [VStr "black"]] init_state).1 = Ret VNone ∧
  (rgb VNone st).1 = Raise KeyError ∧
  (rgb (VInt 0) st).1 = Raise KeyError ∧
  (rgb (VStr "") st).1 = Raise KeyError ∧
  (rgba VNone st).1 = Raise KeyError ∧
  (rgba (VInt 0) st).1 = Raise KeyError ∧
  (rgba (VStr "") st).1 = Raise KeyError.
Proof. vm_compute. repeat split. Qed.


(** *** The invariant of the cache *)

Lemma new_body_effect f args st :
  new_effect f args st (new_body f args st).1 (new_body f args st).2.
Proof.
  unfold new_body, try_except. fold (unwrap args).
  destruct (CACHE_getitem (VTuple args) st) as [[v|e] st0] eqn:H0;
    apply CACHE_getitem_inv in H0 as (-> & Hmiss & Hhit); simpl.
  { eapply eff_hit; [by left|by apply Hhit]. }
  case_decide as He; [subst e|apply eff_raise].
  specialize (Hmiss eq_refl).
  unfold bind.
  destruct (py_len (unwrap args) st) as [[n|e] st0] eqn:Hn.
  2:{ apply py_len_raise in Hn as ->. apply eff_raise. }
  apply py_len_inv in Hn as [-> Hn].
  case_decide as H3; [|case_decide as H4].
  - subst n.
    destruct (CACHE_getitem (unwrap args) st) as [[v|e] st0] eqn:H1;
      apply CACHE_getitem_inv in H1 as (-> & Hmiss1 & Hhit1); simpl.
    { eapply eff_hit; [by right|by apply Hhit1]. }
    case_decide as He; [subst e|apply eff_raise].
    destruct (unwrap args) as [| | |l|] eqn:Ha; simpl; try apply eff_raise.
    assert (length l = 3%nat) as Hl by (simpl in Hn; injection Hn; lia).
    unfold ret at 1.
    destruct (f (l ++ [VInt 255]) st) as [[v|e] st1] eqn:Hf; simpl.
    2:{ by eapply eff_three_fail. }
    unfold CACHE_setitem, ret.
    destruct (hashable (heap st1) (VTuple l)); simpl.
    + eapply eff_three; eauto.
    + by eapply eff_three_fail.
  - subst n.
    destruct (CACHE_getitem (unwrap args) st) as [[v|e] st0] eqn:H1;
      apply CACHE_getitem_inv in H1 as (-> & Hmiss1 & Hhit1); simpl.
    { eapply eff_hit; [by right|by apply Hhit1]. }
    case_decide as He; [subst e|apply eff_raise].
    unfold new_instance, bind.
    pose proof (py_items_state (unwrap args) st) as Hst.
    destruct (py_items (unwrap args) st) as [[its|e] st0] eqn:Hit;
      simpl in Hst; subst st0; [|apply eff_raise].
    destruct its as [|cr [|cg [|cb [|ca [|]]]]]; try apply eff_raise.
    unfold alloc, CACHE_setitem, ret; simpl.
    destruct (hashable _ (unwrap args)); simpl.
    + apply eff_four; auto using fresh_loc_fresh. by rewrite Hit.
    + apply eff_four_fail, fresh_loc_fresh.
  - unfold CACHE_delitem, ret.
    destruct (hashable (heap st) (unwrap args)); [|apply eff_raise].
    destruct (CACHE st !! unwrap args) eqn:Hd; simpl; [|apply eff_raise].
    eapply eff_del; eauto.
Qed.

Ltac effect_cases f args st :=
  let Hs := fresh "Hs" in
  pose proof (new_body_effect f args st) as Hs;
  destruct (new_body f args st) as [out st']; simpl in *;
  inversion Hs as
    [ kh vh Hkh Hhit
    | eh
    | l3 v3 st1 Hu Hl3 Hmiss Hf
    | l3 o3 ex st1 Hu Hl3 Hf
    | r4 c1 c2 c3 c4 Hlen Hitems Hmiss Hfresh
    | r4 o4 ex Hfresh
    | nd Hlen Hn3 Hn4 Hmiss Hdel ]; subst; simpl; clear Hs.

(** Allocation at a free address changes neither lengths nor items of the
    values that had them. *)
Lemma py_len_alloc k st c r o n :
  heap st !! r = None →
  (py_len k st).1 = Ret n →
  (py_len k (State c (<[r := o]> (heap st)))).1 = Ret n.
Proof.
  intros Hr. destruct k as [| | | |x]; simpl; try done.
  destruct (heap st !! x) as [[]|] eqn:Hx; simpl; try done.
  rewrite lookup_insert_ne by congruence. by rewrite Hx.
Qed.

Lemma py_items_alloc k st c r o l :
  heap st !! r = None →
  (py_items k st).1 = Ret l →
  (py_items k (State c (<[r := o]> (heap st)))).1 = Ret l.
Proof.
  intros Hr. destruct k as [| | | |x]; simpl; try done.
  destruct (heap st !! x) as [[]|] eqn:Hx; simpl; try done.
  rewrite lookup_insert_ne by congruence. by rewrite Hx.
Qed.

Lemma live_alloc st c r o v :
  heap st !! r = None → live st v → live (State c (<[r := o]> (heap st))) v.
Proof.
  intros Hr (x & cr & cg & cb & ca & -> & Hx). exists x, cr, cg, cb, ca.
  split; [done|]. simpl. rewrite lookup_insert_ne by congruence. done.
Qed.

Lemma key_shape_alloc st c r o k :
  heap st !! r = None → key_shape st k →
  key_shape (State c (<[r := o]> (heap st))) k.
Proof.
  intros Hr [H|[H|H]]; [by left|by right; left|].
  right; right. by apply py_len_alloc.
Qed.

(** [py_len] and [py_items] read the heap only. *)
Lemma py_len_heap k st st' :
  heap st' = heap st → (py_len k st').1 = (py_len k st).1.
Proof. intros H. destruct k; simpl; try done. rewrite H. by repeat case_match. Qed.

Lemma py_items_heap k st st' :
  heap st' = heap st → (py_items k st').1 = (py_items k st).1.
Proof. intros H. destruct k; simpl; try done. rewrite H. by repeat case_match. Qed.

Lemma live_heap st st' v : heap st' = heap st → live st v → live st' v.
Proof. intros H (x & ? & ? & ? & ? & -> & Hx). exists x. rewrite H. eauto 10. Qed.

Lemma key_shape_heap st st' k :
  heap st' = heap st → key_shape st k → key_shape st' k.
Proof.
  intros H [?|[?|Hk]]; [by left|by right; left|].
  right; right. by rewrite (py_len_heap k st st').
Qed.

Lemma key_shape_len4 st k :
  key_shape st k → ∀ st', (py_len k st').1 = Ret 4 → (py_len k st).1 = Ret 4.
Proof.
  intros [(s & -> & _)|[(l & -> & Hl)|H]] st' H'; simpl in *; try done.
Qed.

Lemma wf_new_body f :
  good f → (∀ l st, wf st → wf (f l st).2) →
  ∀ args st, wf st → wf (new_body f args st).2.
Proof.
  intros Hgood Hpres args st Hwf.
  split; [by apply (good_coh _ (good_new_body f Hgood)), Hwf|].
  destruct Hwf as (Hcoh & H12 & H3).
  pose proof (good_cached _ Hgood) as Hcached.
  effect_cases f args st.
  - done.
  - done.
  - (* a triple gets the entry of the inner call's result *)
    pose proof (Hpres (l3 ++ [VInt 255]) st (conj Hcoh (conj H12 H3)))
      as (_ & H12' & H3').
    specialize (Hcached (l3 ++ [VInt 255]) st v3).
    rewrite Hf in H12', H3', Hcached. simpl in *.
    rewrite length_app, Hl3 in Hcached. specialize (Hcached eq_refl eq_refl).
    split.
    + intros k v. rewrite lookup_insert. case_decide as Hk.
      * intros [= <-]. subst k. split.
        -- apply (live_heap st1); [done|]. by apply (H12' _ _ Hcached).
        -- right; left. eauto.
      * intros Hv. destruct (H12' _ _ Hv). split.
        -- by apply (live_heap st1).
        -- by apply (key_shape_heap st1).
    + intros k r. rewrite lookup_insert. case_decide as Hk.
      * subst k. simpl. rewrite Hl3. done.
      * intros Hv Hl. rewrite (py_len_heap k st1) in Hl by done.
        destruct (H3' _ _ Hv Hl) as (Hne & cr & cg & cb & ca & Hi & Hr).
        split; [done|]. exists cr, cg, cb, ca.
        split; [by rewrite (py_items_heap k st1)|done].
  - pose proof (Hpres (l3 ++ [VInt 255]) st (conj Hcoh (conj H12 H3))) as Hwf'.
    rewrite Hf in Hwf'. apply Hwf'.
  - (* a new instance with its entry *)
    split.
    + intros k v. rewrite lookup_insert. case_decide as Hk.
      * intros [= <-]. subst k. split.
        -- exists r4, c1, c2, c3, c4. split; [done|]. simpl.
           apply lookup_insert_eq.
        -- right; right. by apply py_len_alloc.
      * intros Hv. destruct (H12 _ _ Hv). split.
        -- by apply live_alloc.
        -- by apply key_shape_alloc.
    + intros k r. rewrite lookup_insert. case_decide as Hk.
      * intros [= <-] _. subst k. split.
        -- intros Heq. rewrite Heq in Hlen. simpl in Hlen.
           by rewrite Hfresh in Hlen.
        -- exists c1, c2, c3, c4. split; [by apply py_items_alloc|].
           simpl. apply lookup_insert_eq.
      * intros Hv Hl. destruct (H12 _ _ Hv) as [_ Hshape].
        apply (key_shape_len4 _ _ Hshape) in Hl.
        destruct (H3 _ _ Hv Hl) as (Hne & cr & cg & cb & ca & Hi & Hr).
        split; [done|]. exists cr, cg, cb, ca.
        split; [by apply py_items_alloc|]. simpl.
        rewrite lookup_insert_ne; [done|]. congruence.
  - (* a new instance without entry *)
    split.
    + intros k v Hv. destruct (H12 _ _ Hv). split.
      * by apply live_alloc.
      * by apply key_shape_alloc.
    + intros k r Hv Hl. destruct (H12 _ _ Hv) as [_ Hshape].
      apply (key_shape_len4 _ _ Hshape) in Hl.
      destruct (H3 _ _ Hv Hl) as (Hne & cr & cg & cb & ca & Hi & Hr).
      split; [done|]. exists cr, cg, cb, ca.
      split; [by apply py_items_alloc|]. simpl.
      rewrite lookup_insert_ne; [done|]. congruence.
  - (* an entry deleted *)
    split.
    + intros k v [_ Hv]%lookup_delete_Some. destruct (H12 _ _ Hv). split.
      * by apply (live_heap st).
      * by apply (key_shape_heap st).
    + intros k r [_ Hv]%lookup_delete_Some Hl.
      rewrite (py_len_heap k st) in Hl by done.
      destruct (H3 _ _ Hv Hl) as (Hne & cr & cg & cb & ca & Hi & Hr).
      split; [done|]. exists cr, cg, cb, ca.
      split; [by rewrite (py_items_heap k st)|done].
Qed.

Lemma wf_new args st : wf st → wf (new args st).2.
Proof.
  revert args st. apply wf_new_body; [apply good_new4|].
  apply wf_new_body; [apply good_raise|]. by intros.
Qed.

Lemma wf_run_calls calls st : wf st → wf (run_calls calls st).
Proof.
  revert st. induction calls as [|args calls IH]; intros st Hwf; simpl;
    [done|].
  by apply IH, wf_new.
Qed.

Lemma wf_init : wf init_state.
Proof.
  split; [exact coherent_init|]. split.
  - assert (map_Forall (λ k v, live init_state v ∧ key_shape init_state k)
              (CACHE init_state)) as H; [|exact H].
    apply map_Forall_to_list. rewrite init_state_CACHE.
    repeat first [apply List.Forall_nil | apply List.Forall_cons]; simpl;
      (split;
       [ do 5 eexists; split; [reflexivity|vm_compute; reflexivity]
       | first [ left; eexists; split; [reflexivity|set_solver]
               | right; left; eexists; split; reflexivity
               | right; right; reflexivity ] ]).
  - assert (map_Forall
              (λ k v, ∀ r, v = VRef r → (py_len k init_state).1 = Ret 4 →
                 k ≠ VRef r ∧
                 ∃ cr cg cb ca,
                   (py_items k init_state).1 = Ret [cr; cg; cb; ca] ∧
                   heap init_state !! r = Some (Instance cr cg cb ca))
              (CACHE init_state)) as H.
    { apply map_Forall_to_list. rewrite init_state_CACHE.
      repeat first [apply List.Forall_nil | apply List.Forall_cons]; simpl;
        intros r [= <-] Hl; try discriminate Hl;
        (split; [discriminate|]); do 4 eexists;
        (split; [reflexivity|vm_compute; reflexivity]). }
    intros k r Hk. by apply (H _ _ Hk).
Qed.

Lemma wf_reachable calls : wf (run_calls calls init_state).
Proof. apply wf_run_calls, wf_init. Qed.

(** *** Colours made of tuples and of colours *)

Lemma cache_miss_wrapped st x :
  wf st → (∀ s, x ≠ VStr s) → CACHE st !! VTuple [x] = None.
Proof.
  intros (_ & H12 & _) Hx.
  destruct (CACHE st !! VTuple [x]) as [v|] eqn:Hv; [|done].
  destruct (H12 _ _ Hv) as [_ [(s & [= ->] & _)|[(l & [= <-] & Hl)|Hl]]];
    try done. by destruct (Hx s).
Qed.

Lemma canon_four t :
  valid_tuple t → ∃ cr cg cb ca, canon t = [cr; cg; cb; ca].
Proof.
  intros [[Hl|Hl] _];
    [do 4 (destruct t as [|? t]; try discriminate)
    |do 5 (destruct t as [|? t]; try discriminate)]; simpl; eauto.
Qed.

Lemma new_valid_slots st t :
  wf st → valid_tuple t →
  ∃ r st1 cr cg cb ca,
    canon t = [cr; cg; cb; ca] ∧
    new t st = (Ret (VRef r), st1) ∧
    CACHE st1 !! VTuple (canon t) = Some (VRef r) ∧
    heap st1 !! r = Some (Instance cr cg cb ca) ∧
    wf st1.
Proof.
  intros Hwf Hvalid.
  destruct (new_valid st t (proj1 Hwf) Hvalid) as (r & st1 & Hnew & Hc & _).
  assert (wf st1) as Hwf1.
  { replace st1 with (new t st).2 by (by rewrite Hnew). by apply wf_new. }
  destruct (canon_four t Hvalid) as (cr & cg & cb & ca & Hcanon).
  exists r, st1, cr, cg, cb, ca. split_and!; try done.
  destruct Hwf1 as (_ & _ & H3). rewrite Hcanon in Hc.
  destruct (H3 _ _ Hc eq_refl) as (_ & ? & ? & ? & ? & [= <- <- <- <-] & Hr).
  done.
Qed.

(** X1.  In a state that satisfies the invariant, the constructor on a
    valid tuple returns a colour whose four slots are the components the
    tuple stands for (alpha 255 when left out); its property [rgba] is
    the tuple of the four slots and [rgb] the tuple of the first
    three. *)
Theorem Color_channels st t :
  wf st → valid_tuple t →
  ∃ r st1 cr cg cb ca,
    canon t = [cr; cg; cb; ca] ∧
    new t st = (Ret (VRef r), st1) ∧
    heap st1 !! r = Some (Instance cr cg cb ca) ∧
    attr_rgba (VRef r) st1 = (Ret (VTuple [cr; cg; cb; ca]), st1) ∧
    attr_rgb (VRef r) st1 = (Ret (VTuple [cr; cg; cb]), st1).
Proof.
  intros Hwf Hvalid.
  destruct (new_valid_slots st t Hwf Hvalid)
    as (r & st1 & cr & cg & cb & ca & Hcanon & Hnew & _ & Hr & _).
  exists r, st1, cr, cg, cb, ca. split_and!; try done.
  - unfold attr_rgba. by rewrite Hr.
  - unfold attr_rgb. by rewrite Hr.
Qed.

Lemma Color_channels_witness :
  ∃ r st1 cr cg cb ca,
    canon [VInt 10; VInt 20; VInt 30] = [cr; cg; cb; ca] ∧
    new [VInt 10; VInt 20; VInt 30] init_state = (Ret (VRef r), st1) ∧
    heap st1 !! r = Some (Instance cr cg cb ca) ∧
    attr_rgba (VRef r) st1 = (Ret (VTuple [cr; cg; cb; ca]), st1) ∧
    attr_rgb (VRef r) st1 = (Ret (VTuple [cr; cg; cb]), st1).
Proof.
  apply (Color_channels init_state [VInt 10; VInt 20; VInt 30] wf_init).
  split; [by left|].
  repeat constructor; eexists; (split; [reflexivity|lia]).
Defined.

Lemma new_wrapped st t :
  CACHE st !! VTuple [VTuple t] = None →
  hashable (heap st) (VTuple t) = true →
  (length t = 3 ∨ length t = 4)%nat →
  new [VTuple t] st = new t st.
Proof.
  intros Hmiss Hh Hl.
  assert (unwrap t = VTuple t) as Hu.
  { destruct Hl as [Hl|Hl];
      [by do 4 (destruct t as [|? t]; try discriminate)
      |by do 5 (destruct t as [|? t]; try discriminate)]. }
  unfold new, new_body, try_except. fold (unwrap t). rewrite Hu.
  assert (hashable (heap st) (VTuple [VTuple t]) = true) as Hh'.
  { simpl in *. by rewrite Hh. }
  unfold CACHE_getitem at 1. rewrite Hh', Hmiss, decide_True by done.
  unfold CACHE_getitem at 3. rewrite Hh.
  destruct (CACHE st !! VTuple t) as [v|] eqn:Hv.
  - unfold bind. simpl py_len. cbn match.
    destruct Hl as [Hl|Hl]; rewrite Hl; cbn [Z.of_nat Pos.of_succ_nat Pos.succ].
    + rewrite decide_True by done. unfold CACHE_getitem. by rewrite Hh, Hv.
    + rewrite decide_False, decide_True by done.
      unfold CACHE_getitem. by rewrite Hh, Hv.
  - by rewrite decide_True.
Qed.

Lemma Color_of_tuple_eq st t :
  wf st → valid_tuple t → new [VTuple t] st = new t st.
Proof.
  intros Hwf [Hl Ht]. apply new_wrapped; [|by apply hashable_channels|done].
  apply cache_miss_wrapped; [done|]. by intros s.
Qed.

(** X2.  [Color(t)] on one argument that is a valid tuple does what
    [Color( *t)] does on its items: same result, same store; the colour
    returned is the cache entry of the components. *)
Theorem Color_of_tuple st t :
  wf st → valid_tuple t →
  new [VTuple t] st = new t st ∧
  ∃ r st1, new [VTuple t] st = (Ret (VRef r), st1) ∧
           CACHE st1 !! VTuple (canon t) = Some (VRef r).
Proof.
  intros Hwf Hvalid. rewrite (Color_of_tuple_eq st t Hwf Hvalid).
  split; [done|].
  destruct (new_valid st t (proj1 Hwf) Hvalid) as (r & st1 & Hnew & Hc & _).
  eauto.
Qed.

Lemma Color_of_tuple_witness :
  new [VTuple [VInt 10; VInt 20; VInt 30]] init_state
  = new [VInt 10; VInt 20; VInt 30] init_state.
Proof.
  apply (Color_of_tuple init_state [VInt 10; VInt 20; VInt 30] wf_init).
  split; [by left|].
  repeat constructor; eexists; (split; [reflexivity|lia]).
Defined.

(** X3.  [Color(c)] on an existing colour [c] with integer slots does
    not return [c]: the first such call makes another object with the
    same slots and caches it under [c] itself; [c] is unchanged, and
    from then on [Color(c)] returns that second object and changes
    nothing. *)
Theorem Color_of_Color st c a b d e :
  wf st →
  heap st !! c = Some (Instance (VInt a) (VInt b) (VInt d) (VInt e)) →
  ∃ r st1,
    new [VRef c] st = (Ret (VRef r), st1) ∧
    r ≠ c ∧
    heap st1 !! r = Some (Instance (VInt a) (VInt b) (VInt d) (VInt e)) ∧
    heap st1 !! c = Some (Instance (VInt a) (VInt b) (VInt d) (VInt e)) ∧
    new [VRef c] st1 = (Ret (VRef r), st1).
Proof.
  intros Hwf Hc.
  assert (CACHE st !! VTuple [VRef c] = None) as Hmiss
    by (apply cache_miss_wrapped; [done|by intros s]).
  assert (∀ h, h !! c = Some (Instance (VInt a) (VInt b) (VInt d) (VInt e)) →
               hashable h (VRef c) = true) as Hh
    by (intros h Hh; simpl; by rewrite Hh).
  assert (∀ st0 : state,
            heap st0 !! c = Some (Instance (VInt a) (VInt b) (VInt d) (VInt e)) →
            CACHE st0 !! VTuple [VRef c] = None →
            ∀ r, CACHE st0 !! VRef c = Some (VRef r) →
                 new [VRef c] st0 = (Ret (VRef r), st0)) as Hhit.
  { intros st0 Hc0 Hm0 r Hr.
    unfold new, new_body, try_except, CACHE_getitem. simpl hashable.
    rewrite Hc0. cbn [andb]. rewrite Hm0, decide_True by done.
    unfold bind. simpl py_len. rewrite Hc0. cbn match.
    rewrite decide_False, decide_True by done. simpl hashable.
    by rewrite Hc0, Hr. }
  destruct (CACHE st !! VRef c) as [v|] eqn:Hv.
  - destruct Hwf as (_ & H12 & H3).
    destruct (H12 _ _ Hv) as [(r & ? & ? & ? & ? & -> & Hr) _].
    assert ((py_len (VRef c) st).1 = Ret 4) as Hlen by (simpl; by rewrite Hc).
    destruct (H3 _ _ Hv Hlen) as (Hne & cr & cg & cb & ca & Hi & Hr').
    simpl in Hi. rewrite Hc in Hi. simpl in Hi. injection Hi as <- <- <- <-.
    exists r, st. split_and!; auto. congruence.
  - pose proof (fresh_loc_fresh (heap st)) as Hfresh.
    set (r := fresh_loc (heap st)) in *.
    assert (r ≠ c) as Hne by congruence.
    set (st1 := State (<[VRef c := VRef r]> (CACHE st))
                  (<[r := Instance (VInt a) (VInt b) (VInt d) (VInt e)]>
                     (heap st))).
    assert (heap st1 !! c
            = Some (Instance (VInt a) (VInt b) (VInt d) (VInt e))) as Hc1.
    { simpl. by rewrite lookup_insert_ne. }
    assert (new [VRef c] st = (Ret (VRef r), st1)) as Hnew.
    { unfold new, new_body, try_except, CACHE_getitem. simpl hashable.
      rewrite Hc. cbn [andb]. rewrite Hmiss, decide_True by done.
      unfold bind. simpl py_len. rewrite Hc. cbn match.
      rewrite decide_False, decide_True by done. simpl hashable.
      rewrite Hc, Hv, decide_True by done.
      unfold new_instance, bind. simpl py_items. rewrite Hc. cbn match.
      unfold alloc, CACHE_setitem, ret. fold r.
      cbn [heap CACHE]. simpl in Hc1. rewrite (Hh _ Hc1). done. }
    exists r, st1. split_and!; try done.
    + simpl. apply lookup_insert_eq.
    + apply Hhit; [done| |].
      * simpl. rewrite lookup_insert_ne by done. done.
      * simpl. apply lookup_insert_eq.
Qed.

Lemma Color_of_Color_witness :
  ∃ r st1,
    new [VRef 2] init_state = (Ret (VRef r), st1) ∧
    r ≠ 2%positive ∧
    heap st1 !! r = Some (Instance (VInt 0) (VInt 0) (VInt 0) (VInt 255)) ∧
    heap st1 !! 2%positive
      = Some (Instance (VInt 0) (VInt 0) (VInt 0) (VInt 255)) ∧
    new [VRef 2] st1 = (Ret (VRef r), st1).
Proof.
  apply (Color_of_Color init_state 2 0 0 0 255 wf_init). reflexivity.
Defined.

Lemma new_four_valid st cr cg cb ca :
  wf st → valid_tuple [cr; cg; cb; ca] →
  ∃ r st1,
    new [cr; cg; cb; ca] st = (Ret (VRef r), st1) ∧
    CACHE st1 !! VTuple [cr; cg; cb; ca] = Some (VRef r) ∧
    heap st1 !! r = Some (Instance cr cg cb ca) ∧
    (∀ x o, heap st !! x = Some o → heap st1 !! x = Some o) ∧
    (∀ x, CACHE st !! VTuple [cr; cg; cb; ca] = Some (VRef x) →
          r = x ∧ st1 = st) ∧
    wf st1.
Proof.
  intros Hwf Hvalid.
  destruct (new_valid_slots st _ Hwf Hvalid)
    as (r & st1 & ? & ? & ? & ? & [= <- <- <- <-] & Hnew & Hc & Hr & Hwf1).
  exists r, st1. split_and!; try done.
  - intros x o Hx. pose proof (good_heap _ good_new [cr; cg; cb; ca] st x o Hx)
      as H. by rewrite Hnew in H.
  - intros x Hx.
    assert (new [cr; cg; cb; ca] st = (Ret (VRef x), st)) as Hhit.
    { unfold new, new_body, try_except, CACHE_getitem.
      rewrite (hashable_channels _ _ (proj2 Hvalid)). by rewrite Hx. }
    rewrite Hhit in Hnew. by simplify_eq.
Qed.

Lemma valid_replace l i v :
  valid_tuple l → channel v → valid_tuple (<[i := v]> l).
Proof.
  intros [Hl Hall] Hv. split; [by rewrite length_insert|].
  by apply Forall_insert.
Qed.

(** X4.  Each setter on a colour [c] with valid slots returns a colour
    whose slots are those of [c] with the one component replaced by the
    new value, leaves [c] as it is, and the result is the cache entry of
    its components; on the canonical colour of its components, setting a
    component to the value it has returns the colour itself. *)
Theorem set_channel st c cr cg cb ca v :
  wf st →
  heap st !! c = Some (Instance cr cg cb ca) →
  valid_tuple [cr; cg; cb; ca] → channel v →
  (∃ r st1, set_red (VRef c) v st = (Ret (VRef r), st1) ∧
            heap st1 !! r = Some (Instance v cg cb ca) ∧
            heap st1 !! c = Some (Instance cr cg cb ca) ∧
            CACHE st1 !! VTuple [v; cg; cb; ca] = Some (VRef r)) ∧
  (∃ r st1, set_green (VRef c) v st = (Ret (VRef r), st1) ∧
            heap st1 !! r = Some (Instance cr v cb ca) ∧
            heap st1 !! c = Some (Instance cr cg cb ca) ∧
            CACHE st1 !! VTuple [cr; v; cb; ca] = Some (VRef r)) ∧
  (∃ r st1, set_blue (VRef c) v st = (Ret (VRef r), st1) ∧
            heap st1 !! r = Some (Instance cr cg v ca) ∧
            heap st1 !! c = Some (Instance cr cg cb ca) ∧
            CACHE st1 !! VTuple [cr; cg; v; ca] = Some (VRef r)) ∧
  (∃ r st1, set_alpha (VRef c) v st = (Ret (VRef r), st1) ∧
            heap st1 !! r = Some (Instance cr cg cb v) ∧
            heap st1 !! c = Some (Instance cr cg cb ca) ∧
            CACHE st1 !! VTuple [cr; cg; cb; v] = Some (VRef r)) ∧
  (CACHE st !! VTuple [cr; cg; cb; ca] = Some (VRef c) →
   set_red (VRef c) cr st = (Ret (VRef c), st) ∧
   set_green (VRef c) cg st = (Ret (VRef c), st) ∧
   set_blue (VRef c) cb st = (Ret (VRef c), st) ∧
   set_alpha (VRef c) ca st = (Ret (VRef c), st)).
Proof.
  intros Hwf Hc Hvalid Hv.
  unfold set_red, set_green, set_blue, set_alpha, with_slots. rewrite Hc.
  split_and!.
  - destruct (new_four_valid st v cg cb ca Hwf
                (valid_replace _ 0 v Hvalid Hv))
      as (r & st1 & Hnew & Hcache & Hr & Hkeep & _). eauto 10.
  - destruct (new_four_valid st cr v cb ca Hwf
                (valid_replace _ 1 v Hvalid Hv))
      as (r & st1 & Hnew & Hcache & Hr & Hkeep & _). eauto 10.
  - destruct (new_four_valid st cr cg v ca Hwf
                (valid_replace _ 2 v Hvalid Hv))
      as (r & st1 & Hnew & Hcache & Hr & Hkeep & _). eauto 10.
  - destruct (new_four_valid st cr cg cb v Hwf
                (valid_replace _ 3 v Hvalid Hv))
      as (r & st1 & Hnew & Hcache & Hr & Hkeep & _). eauto 10.
  - intros Hcanon.
    destruct (new_four_valid st cr cg cb ca Hwf Hvalid)
      as (r & st1 & Hnew & _ & _ & _ & Hsame & _).
    destruct (Hsame c Hcanon) as [-> ->]. done.
Qed.

Lemma set_channel_witness :
  (∃ r st1, set_alpha (VRef 2) (VInt 128) init_state = (Ret (VRef r), st1) ∧
            heap st1 !! r
              = Some (Instance (VInt 0) (VInt 0) (VInt 0) (VInt 128)) ∧
            heap st1 !! 2%positive
              = Some (Instance (VInt 0) (VInt 0) (VInt 0) (VInt 255)) ∧
            CACHE st1 !! VTuple [VInt 0; VInt 0; VInt 0; VInt 128]
              = Some (VRef r)).
Proof.
  assert (channel (VInt 0)) as H0 by (eexists; split; [reflexivity|lia]).
  assert (channel (VInt 255)) as H255 by (eexists; split; [reflexivity|lia]).
  assert (channel (VInt 128)) as H128 by (eexists; split; [reflexivity|lia]).
  assert (valid_tuple [VInt 0; VInt 0; VInt 0; VInt 255]) as Hvalid
    by (split; [by right|by repeat constructor]).
  exact (proj1 (proj2 (proj2 (proj2
           (set_channel init_state 2 _ _ _ _ (VInt 128) wf_init eq_refl
              Hvalid H128))))).
Defined.


(** *** Packed forms, hash and indexing *)

Lemma shiftl_mul x n : 0 ≤ n → Z.shiftl x n = x * 2 ^ n.
Proof. intros. by apply Z.shiftl_mul_pow2. Qed.

Lemma land_255 x : Z.land x 255 = x mod 256.
Proof. change 255 with (Z.ones 8). by rewrite Z.land_ones. Qed.

(** X5.  For channels in [0, 255] the packed form [u_rgba] is
    [r * 2^24 + g * 2^16 + b * 2^8 + a], an unsigned 32-bit value from
    which shifts and masks give the four channels back; [u_rgb] is
    [u_rgba] shifted right by 8, a 24-bit value. *)
Theorem u_rgba_roundtrip r g b a :
  0 ≤ r ≤ 255 → 0 ≤ g ≤ 255 → 0 ≤ b ≤ 255 → 0 ≤ a ≤ 255 →
  ∃ n m,
    u_rgba (VInt r) (VInt g) (VInt b) (VInt a) = Ret (VInt n) ∧
    u_rgb (VInt r) (VInt g) (VInt b) (VInt a) = Ret (VInt m) ∧
    n = r * 2 ^ 24 + g * 2 ^ 16 + b * 2 ^ 8 + a ∧
    0 ≤ n < 2 ^ 32 ∧
    Z.shiftr n 24 = r ∧
    Z.land (Z.shiftr n 16) 255 = g ∧
    Z.land (Z.shiftr n 8) 255 = b ∧
    Z.land n 255 = a ∧
    m = Z.shiftr n 8 ∧
    0 ≤ m < 2 ^ 24.
Proof.
  intros Hr Hg Hb Ha.
  exists (r * 2 ^ 24 + g * 2 ^ 16 + b * 2 ^ 8 + a),
         (r * 2 ^ 16 + g * 2 ^ 8 + b).
  split_and!.
  - unfold u_rgba.
    change (getitem (VInt r) (VInt g) (VInt b) (VInt a) (IdxInt 0))
      with (@Ret pyval (VInt r)).
    change (getitem (VInt r) (VInt g) (VInt b) (VInt a) (IdxInt 1))
      with (@Ret pyval (VInt g)).
    change (getitem (VInt r) (VInt g) (VInt b) (VInt a) (IdxInt 2))
      with (@Ret pyval (VInt b)).
    change (getitem (VInt r) (VInt g) (VInt b) (VInt a) (IdxInt 3))
      with (@Ret pyval (VInt a)).
    cbn [obind py_lshift py_add]. by rewrite !shiftl_mul by lia.
  - unfold u_rgb.
    change (getitem (VInt r) (VInt g) (VInt b) (VInt a) (IdxInt 0))
      with (@Ret pyval (VInt r)).
    change (getitem (VInt r) (VInt g) (VInt b) (VInt a) (IdxInt 1))
      with (@Ret pyval (VInt g)).
    change (getitem (VInt r) (VInt g) (VInt b) (VInt a) (IdxInt 2))
      with (@Ret pyval (VInt b)).
    cbn [obind py_lshift py_add]. by rewrite !shiftl_mul by lia.
  - done.
  - lia.
  - lia.
  - rewrite Z.shiftr_div_pow2 by lia.
    change (2 ^ 24) with 16777216; change (2 ^ 16) with 65536;
      change (2 ^ 8) with 256.
    symmetry. apply Z.div_unique with (g * 65536 + b * 256 + a); lia.
  - rewrite land_255, Z.shiftr_div_pow2 by lia.
    change (2 ^ 24) with 16777216; change (2 ^ 16) with 65536;
      change (2 ^ 8) with 256.
    rewrite <- (Z.div_unique _ 65536 (r * 256 + g) (b * 256 + a)) by lia.
    symmetry. apply Z.mod_unique with r; lia.
  - rewrite land_255, Z.shiftr_div_pow2 by lia.
    change (2 ^ 24) with 16777216; change (2 ^ 16) with 65536;
      change (2 ^ 8) with 256.
    rewrite <- (Z.div_unique _ 256 (r * 65536 + g * 256 + b) a) by lia.
    symmetry. apply Z.mod_unique with (r * 256 + g); lia.
  - rewrite land_255.
    change (2 ^ 24) with 16777216; change (2 ^ 16) with 65536;
      change (2 ^ 8) with 256.
    symmetry. apply Z.mod_unique with (r * 65536 + g * 256 + b); lia.
  - rewrite Z.shiftr_div_pow2 by lia.
    change (2 ^ 24) with 16777216; change (2 ^ 16) with 65536;
      change (2 ^ 8) with 256.
    apply Z.div_unique with a; lia.
  - lia.
  - lia.
Qed.

Lemma lxor_byte x y : 0 ≤ x ≤ 255 → 0 ≤ y ≤ 255 → 0 ≤ Z.lxor x y ≤ 255.
Proof.
  intros Hx Hy.
  assert (0 ≤ Z.lxor x y) as H0 by (apply Z.lxor_nonneg; lia).
  split; [done|].
  destruct (decide (Z.lxor x y = 0)) as [->|Hz]; [lia|].
  assert (∀ z, 0 ≤ z ≤ 255 → Z.log2 z < 8) as Hlog.
  { intros z Hz'. destruct (decide (z = 0)) as [->|?]; [done|].
    apply Z.log2_lt_pow2; lia. }
  assert (Z.lxor x y < 2 ^ 8); [|lia].
  apply Z.log2_lt_pow2; [lia|].
  pose proof (Z.log2_lxor x y ltac:(lia) ltac:(lia)).
  pose proof (Hlog x Hx). pose proof (Hlog y Hy). lia.
Qed.

(** X6.  [Color.__hash__] returns a value exactly when the four slots
    are integers (the notion [hashable] of the store agrees with it);
    for channels in [0, 255] the hash is in [0, 255]; exchanging red
    with green and blue with alpha does not change it. *)
Theorem hash_spec :
  (∀ h r cr cg cb ca,
     h !! r = Some (Instance cr cg cb ca) →
     hashable h (VRef r) = true ↔ ∃ v, hash cr cg cb ca = Ret v) ∧
  (∀ r g b a,
     0 ≤ r ≤ 255 → 0 ≤ g ≤ 255 → 0 ≤ b ≤ 255 → 0 ≤ a ≤ 255 →
     ∃ n, hash (VInt r) (VInt g) (VInt b) (VInt a) = Ret (VInt n) ∧
          0 ≤ n ≤ 255) ∧
  (∀ cr cg cb ca, hash cr cg cb ca = hash cg cr ca cb).
Proof.
  split_and!.
  - intros h r cr cg cb ca Hr. simpl. rewrite Hr. unfold hash.
    destruct cr, cg, cb, ca; simpl; split; intros H; try done;
      try (by destruct H); eauto.
  - intros r g b a Hr Hg Hb Ha. eexists. split; [reflexivity|].
    apply lxor_byte; by apply lxor_byte.
  - intros [] [] [] []; simpl; try done.
    unfold hash. simpl. by rewrite (Z.lxor_comm z z0), (Z.lxor_comm z1 z2).
Qed.

(** X7.  Indexing a colour: the indices 0 to 3 give the four slots in
    order, every other integer raises [IndexError]; a slice gives the
    tuple of the selected slots, as slicing the tuple of the slots would,
    and a step of 0 raises [ValueError]. *)
Theorem getitem_index cr cg cb ca :
  (∀ k, 0 ≤ k ≤ 3 →
     getitem cr cg cb ca (IdxInt k)
     = Ret (nth (Z.to_nat k) [cr; cg; cb; ca] VNone)) ∧
  (∀ k, k < 0 ∨ 3 < k →
     getitem cr cg cb ca (IdxInt k) = Raise IndexError) ∧
  (∀ start stop step,
     getitem cr cg cb ca (IdxSlice start stop step)
     = obind (tuple_slice [cr; cg; cb; ca] start stop step)
         (λ items, Ret (VTuple items))) ∧
  getitem cr cg cb ca (IdxSlice None None None)
    = Ret (VTuple [cr; cg; cb; ca]) ∧
  getitem cr cg cb ca (IdxSlice None (Some 3) None)
    = Ret (VTuple [cr; cg; cb]) ∧
  getitem cr cg cb ca (IdxSlice None None (Some (-1)))
    = Ret (VTuple [ca; cb; cg; cr]) ∧
  getitem cr cg cb ca (IdxSlice None None (Some 0)) = Raise ValueError.
Proof.
  split_and!; try reflexivity.
  - intros k Hk.
    assert (k = 0 ∨ k = 1 ∨ k = 2 ∨ k = 3) as [->|[->|[->| ->]]] by lia;
      reflexivity.
  - intros k [Hk|Hk]; [by apply getitem_negative|].
    apply getitem_too_large. lia.
  - apply getitem_slice.
Qed.

(** X8.  In a state that satisfies the invariant, a call with a number
    of arguments other than 1, 3 or 4 raises [KeyError] and leaves the
    store as it is, and so does a call on a string that is not one of
    the names and has neither 3 nor 4 characters. *)
Theorem new_malformed st :
  wf st →
  (∀ args, length args ≠ 1%nat → length args ≠ 3%nat →
           length args ≠ 4%nat →
           hashable (heap st) (VTuple args) = true →
           new args st = (Raise KeyError, st)) ∧
  (∀ s, s ∉ names → String.length s ≠ 3%nat → String.length s ≠ 4%nat →
        new [VStr s] st = (Raise KeyError, st)).
Proof.
  intros (_ & H12 & _). split.
  - intros args H1 H3 H4 Hh. apply new_bad_arity; try done.
    destruct (CACHE st !! VTuple args) as [v|] eqn:Hv; [|done].
    destruct (H12 _ _ Hv) as [_ [(s & [= ->] & _)|[(l & [= <-] & Hl)|Hl]]];
      try done.
    simpl in Hl. injection Hl. lia.
  - intros s Hs H3 H4.
    assert (CACHE st !! VTuple [VStr s] = None) as Hm1.
    { destruct (CACHE st !! VTuple [VStr s]) as [v|] eqn:Hv; [|done].
      destruct (H12 _ _ Hv) as [_ [(s' & [= ->] & Hin)|[(l & [= <-] & Hl)|Hl]]];
        done. }
    assert (CACHE st !! VStr s = None) as Hm2.
    { destruct (CACHE st !! VStr s) as [v|] eqn:Hv; [|done].
      destruct (H12 _ _ Hv) as [_ [(s' & [=] & _)|[(l & [=] & _)|Hl]]].
      simpl in Hl. injection Hl. lia. }
    unfold new, new_body, try_except, CACHE_getitem. simpl hashable.
    rewrite Hm1, decide_True by done.
    unfold bind. simpl py_len. cbn match.
    rewrite !decide_False by lia.
    unfold CACHE_delitem. simpl hashable. by rewrite Hm2.
Qed.

Lemma new_malformed_witness :
  new [] init_state = (Raise KeyError, init_state) ∧
  new [VInt 1; VInt 2] init_state = (Raise KeyError, init_state) ∧
  new [VStr "purple"] init_state = (Raise KeyError, init_state).
Proof.
  destruct (new_malformed init_state wf_init) as [Harity Hname].
  split_and!.
  - by apply Harity.
  - by apply Harity.
  - apply Hname; [|done..]. unfold names.
    rewrite !not_elem_of_cons. split_and!; try discriminate.
    apply not_elem_of_nil.
Defined.

(** X9.  The functions [rgb] and [rgba] on a valid tuple have the
    effect of the constructor on it and return the first three items,
    or the four components; on the colour made of the tuple they return
    the same and change nothing. *)
Theorem rgb_of_tuple st t :
  wf st → valid_tuple t →
  ∃ r st1,
    new t st = (Ret (VRef r), st1) ∧
    rgba (VTuple t) st = (Ret (VTuple (canon t)), st1) ∧
    rgb (VTuple t) st = (Ret (VTuple (take 3 t)), st1) ∧
    rgba (VRef r) st1 = (Ret (VTuple (canon t)), st1) ∧
    rgb (VRef r) st1 = (Ret (VTuple (take 3 t)), st1).
Proof.
  intros Hwf Hvalid.
  destruct (new_valid_slots st t Hwf Hvalid)
    as (r & st1 & cr & cg & cb & ca & Hcanon & Hnew & _ & Hr & _).
  assert (take 3 t = [cr; cg; cb]) as Htake.
  { destruct Hvalid as [[Hl|Hl] _];
      [do 4 (destruct t as [|? t]; try discriminate)
      |do 5 (destruct t as [|? t]; try discriminate)];
      simpl in *; by simplify_eq. }
  assert (truthy (VTuple t) = true) as Htrue.
  { destruct Hvalid as [[Hl|Hl] _]; simpl; by rewrite Hl. }
  exists r, st1. rewrite Hcanon, Htake. split_and!; [done|..].
  - unfold rgba, try_except, bind, or_black. rewrite Htrue.
    change (attr_rgba (VTuple t) st) with (@Raise pyval AttributeError, st).
    cbv iota beta. rewrite decide_True by done.
    rewrite (Color_of_tuple_eq st t Hwf Hvalid), Hnew.
    unfold attr_rgba. by rewrite Hr.
  - unfold rgb, try_except, bind, or_black. rewrite Htrue.
    change (attr_rgb (VTuple t) st) with (@Raise pyval AttributeError, st).
    cbv iota beta. rewrite decide_True by done.
    rewrite (Color_of_tuple_eq st t Hwf Hvalid), Hnew.
    unfold attr_rgb. by rewrite Hr.
  - unfold rgba, try_except, attr_rgba. by rewrite Hr.
  - unfold rgb, try_except, attr_rgb. by rewrite Hr.
Qed.

Lemma u_rgba_roundtrip_witness :
  ∃ n m,
    u_rgba (VInt 18) (VInt 52) (VInt 86) (VInt 120) = Ret (VInt n) ∧
    u_rgb (VInt 18) (VInt 52) (VInt 86) (VInt 120) = Ret (VInt m) ∧
    n = 18 * 2 ^ 24 + 52 * 2 ^ 16 + 86 * 2 ^ 8 + 120 ∧
    0 ≤ n < 2 ^ 32 ∧
    Z.shiftr n 24 = 18 ∧
    Z.land (Z.shiftr n 16) 255 = 52 ∧
    Z.land (Z.shiftr n 8) 255 = 86 ∧
    Z.land n 255 = 120 ∧
    m = Z.shiftr n 8 ∧
    0 ≤ m < 2 ^ 24.
Proof. apply (u_rgba_roundtrip 18 52 86 120); lia. Defined.

Lemma rgb_of_tuple_witness :
  ∃ r st1,
    new [VInt 10; VInt 20; VInt 30] init_state = (Ret (VRef r), st1) ∧
    rgba (VTuple [VInt 10; VInt 20; VInt 30]) init_state
      = (Ret (VTuple (canon [VInt 10; VInt 20; VInt 30])), st1) ∧
    rgb (VTuple [VInt 10; VInt 20; VInt 30]) init_state
      = (Ret (VTuple (take 3 [VInt 10; VInt 20; VInt 30])), st1) ∧
    rgba (VRef r) st1
      = (Ret (VTuple (canon [VInt 10; VInt 20; VInt 30])), st1) ∧
    rgb (VRef r) st1
      = (Ret (VTuple (take 3 [VInt 10; VInt 20; VInt 30])), st1).
Proof.
  apply (rgb_of_tuple init_state [VInt 10; VInt 20; VInt 30] wf_init).
  split; [by left|].
  repeat constructor; eexists; (split; [reflexivity|lia]).
Defined.

(** *** [rgb] and [rgba] while black is cached *)

Lemma truthy_falsy x : truthy x = false ↔ x ∈ falsy_values.
Proof.
  unfold falsy_values. rewrite !elem_of_cons, elem_of_nil. split.
  - destruct x as [|z|s|l|r]; simpl; intros H; try done.
    + by left.
    + apply negb_false_iff, Z.eqb_eq in H. subst. right; by left.
    + apply negb_false_iff, String.eqb_eq in H. subst. right; right; by left.
    + apply negb_false_iff, Nat.eqb_eq in H. destruct l; [|done].
      right; right; right; by left.
  - intros [->|[->|[->|[->|[]]]]]; reflexivity.
Qed.

(** X27.  While the name [black] is in the cache, bound to the colour
    (0, 0, 0, 255): when [x] has the attribute, [rgb(x)] and [rgba(x)]
    return it unchanged; for [None], 0, the empty string and the empty
    tuple they return (0, 0, 0) and (0, 0, 0, 255) and leave the store
    as it is; for any other [x] without the attribute they do what
    [Color(x).rgb] and [Color(x).rgba] do, exceptions included. *)
Theorem rgb_rgba_seeded st x :
  black_seeded st →
  (∀ v, attr_rgb x st = (Ret v, st) → rgb x st = (Ret v, st)) ∧
  (∀ v, attr_rgba x st = (Ret v, st) → rgba x st = (Ret v, st)) ∧
  (x ∈ falsy_values →
     rgb x st = (Ret (VTuple [VInt 0; VInt 0; VInt 0]), st) ∧
     rgba x st = (Ret (VTuple [VInt 0; VInt 0; VInt 0; VInt 255]), st)) ∧
  (x ∉ falsy_values →
     (attr_rgb x st = (Raise AttributeError, st) →
        rgb x st = (c <- new [x] ;; attr_rgb c) st) ∧
     (attr_rgba x st = (Raise AttributeError, st) →
        rgba x st = (c <- new [x] ;; attr_rgba c) st)).
Proof.
  intros (b & Hb & Hheap). split_and!.
  - intros v Hv. unfold rgb, try_except. by rewrite Hv.
  - intros v Hv. unfold rgba, try_except. by rewrite Hv.
  - intros Hx%truthy_falsy. split.
    + unfold rgb, try_except, or_black, bind.
      rewrite (attr_rgb_falsy x st Hx), decide_True, Hx by done.
      rewrite (new_black st b Hb). unfold attr_rgb. by rewrite Hheap.
    + unfold rgba, try_except, or_black, bind.
      rewrite (attr_rgba_falsy x st Hx), decide_True, Hx by done.
      rewrite (new_black st b Hb). unfold attr_rgba. by rewrite Hheap.
  - intros Hx.
    assert (truthy x = true) as Ht.
    { destruct (truthy x) eqn:E; [done|]. by apply truthy_falsy in E. }
    split; intros Hattr.
    + unfold rgb, try_except, or_black. by rewrite Hattr, decide_True, Ht.
    + unfold rgba, try_except, or_black. by rewrite Hattr, decide_True, Ht.
Qed.

Lemma rgb_rgba_seeded_witness :
  (∀ v, attr_rgb (VStr "") init_state = (Ret v, init_state) →
        rgb (VStr "") init_state = (Ret v, init_state)) ∧
  (∀ v, attr_rgba (VStr "") init_state = (Ret v, init_state) →
        rgba (VStr "") init_state = (Ret v, init_state)) ∧
  (VStr "" ∈ falsy_values →
     rgb (VStr "") init_state
     = (Ret (VTuple [VInt 0; VInt 0; VInt 0]), init_state) ∧
     rgba (VStr "") init_state
     = (Ret (VTuple [VInt 0; VInt 0; VInt 0; VInt 255]), init_state)) ∧
  (VStr "" ∉ falsy_values →
     (attr_rgb (VStr "") init_state = (Raise AttributeError, init_state) →
        rgb (VStr "") init_state
        = (c <- new [VStr ""] ;; attr_rgb c) init_state) ∧
     (attr_rgba (VStr "") init_state = (Raise AttributeError, init_state) →
        rgba (VStr "") init_state
        = (c <- new [VStr ""] ;; attr_rgba c) init_state)).
Proof. exact (rgb_rgba_seeded init_state (VStr "") black_seeded_init). Defined.

(** *** Calls that return [None] *)

Lemma wf_live st k v : wf st → CACHE st !! k = Some v → v ≠ VNone.
Proof.
  intros (_ & H12 & _) Hk. destruct (H12 _ _ Hk) as [(r & ? & ? & ? & ? & -> & _) _].
  done.
Qed.

Lemma wf_short_key st k v n :
  wf st → CACHE st !! k = Some v → (py_len k st).1 = Ret n → n ≠ 3 → n ≠ 4 →
  ∃ s, k = VTuple [VStr s] ∧ s ∈ names.
Proof.
  intros (_ & H12 & _) Hk Hn H3 H4.
  destruct (H12 _ _ Hk) as [_ [H|[(l & -> & Hl)|H]]]; [done|..].
  - simpl in Hn. rewrite Hl in Hn. by injection Hn as <-.
  - rewrite H in Hn. by injection Hn as <-.
Qed.

Lemma wf_wrapped_name st s : wf st → CACHE st !! VTuple [VTuple [VStr s]] = None.
Proof.
  intros (_ & H12 & _).
  destruct (CACHE st !! VTuple [VTuple [VStr s]]) as [v|] eqn:Hk; [|done].
  destruct (H12 _ _ Hk) as [_ [(? & [=] & _)|[(l & [= <-] & Hl)|H]]]; done.
Qed.

Lemma unwrap_name args s :
  unwrap args = VTuple [VStr s] → args = [VTuple [VStr s]].
Proof.
  destruct args as [|x [|y args]]; simpl; try congruence.
Qed.

Lemma new4_not_None st l :
  wf st → length l = 4%nat → (new4 l st).1 ≠ Ret VNone.
Proof.
  intros Hwf Hl. unfold new4.
  effect_cases (λ _ : list pyval, @raise state pyval RecursionError) l st;
    try done.
  - intros [= ->]. by destruct (wf_live _ _ _ Hwf Hhit).
  - rewrite (unwrap_len4 _ Hl) in Hlen. simpl in Hlen. rewrite Hl in Hlen.
    by injection Hlen as <-.
Qed.

Lemma new_wrapped_name st s v :
  wf st → CACHE st !! VTuple [VStr s] = Some v →
  new [VTuple [VStr s]] st
  = (Ret VNone, State (delete (VTuple [VStr s]) (CACHE st)) (heap st)).
Proof.
  intros Hwf Hk. unfold new, new_body, try_except, CACHE_getitem.
  change (hashable (heap st) (VTuple [VTuple [VStr s]])) with true.
  cbv iota. rewrite (wf_wrapped_name st s Hwf).
  rewrite decide_True by done.
  unfold bind, py_len, CACHE_delitem, ret. simpl.
  by rewrite Hk.
Qed.

Lemma new_wrapped_gone st s :
  wf st → CACHE st !! VTuple [VStr s] = None →
  new [VTuple [VStr s]] st = (Raise KeyError, st).
Proof.
  intros Hwf Hk. unfold new, new_body, try_except, CACHE_getitem.
  change (hashable (heap st) (VTuple [VTuple [VStr s]])) with true.
  cbv iota. rewrite (wf_wrapped_name st s Hwf).
  rewrite decide_True by done.
  unfold bind, py_len, CACHE_delitem, ret. simpl.
  by rewrite Hk.
Qed.

Lemma new_None_inv st args :
  wf st → (new args st).1 = Ret VNone →
  ∃ s, s ∈ names ∧ args = [VTuple [VStr s]] ∧
       is_Some (CACHE st !! VTuple [VStr s]).
Proof.
  intros Hwf. unfold new. effect_cases new4 args st; try done.
  - intros [= ->]. by destruct (wf_live _ _ _ Hwf Hhit).
  - intros [= ->]. exfalso.
    eapply (new4_not_None st (l3 ++ [VInt 255]) Hwf).
    + rewrite length_app, Hl3. done.
    + by rewrite Hf.
  - intros _. destruct Hdel as [v Hv].
    destruct (wf_short_key st _ _ _ Hwf Hv Hlen Hn3 Hn4) as (s & Hs & Hin).
    exists s. rewrite <- Hs. split; [done|]. split; [|by eexists].
    rewrite Hs. apply unwrap_name, Hs.
Qed.

(** X10.  In a state that satisfies the invariant the constructor
    returns [None] in exactly one case: the argument is the 1-tuple of a
    name that is in the cache.  The call then removes the name from the
    cache, and the same call repeated raises [KeyError]. *)
Theorem new_returns_None st args :
  wf st →
  ((new args st).1 = Ret VNone ↔
   ∃ s, s ∈ names ∧ args = [VTuple [VStr s]] ∧
        is_Some (CACHE st !! VTuple [VStr s])) ∧
  ((new args st).1 = Ret VNone →
   (new args st).2 = State (delete (unwrap args) (CACHE st)) (heap st) ∧
   new args (new args st).2 = (Raise KeyError, (new args st).2)).
Proof.
  intros Hwf. split; [split|].
  - by apply new_None_inv.
  - intros (s & _ & -> & v & Hv). by rewrite (new_wrapped_name st s v).
  - intros H. pose proof (wf_new args st Hwf) as Hwf'.
    destruct (new_None_inv st args Hwf H) as (s & _ & -> & v & Hv).
    rewrite (new_wrapped_name st s v) in * by done. simpl.
    split; [done|]. apply new_wrapped_gone; [done|]. simpl.
    apply lookup_delete_eq.
Qed.

Lemma new_returns_None_witness :
  ((new [VTuple [VStr "red"]] init_state).1 = Ret VNone ↔
   ∃ s, s ∈ names ∧ [VTuple [VStr "red"]] = [VTuple [VStr s]] ∧
        is_Some (CACHE init_state !! VTuple [VStr s])) ∧
  ((new [VTuple [VStr "red"]] init_state).1 = Ret VNone →
   (new [VTuple [VStr "red"]] init_state).2
   = State (delete (unwrap [VTuple [VStr "red"]]) (CACHE init_state))
       (heap init_state) ∧
   new [VTuple [VStr "red"]] (new [VTuple [VStr "red"]] init_state).2
   = (Raise KeyError, (new [VTuple [VStr "red"]] init_state).2)).
Proof. exact (new_returns_None init_state [VTuple [VStr "red"]] wf_init). Defined.

(** *** The named colours *)

Lemma run_calls_entry calls st k v :
  Forall (λ l, color_key k ∨ k ≠ unwrap l) calls →
  CACHE st !! k = Some v → CACHE (run_calls calls st) !! k = Some v.
Proof.
  intros Hcalls. revert st.
  induction Hcalls as [|l calls Hl _ IH]; intros st Hv; simpl; [done|].
  apply IH. by apply good_new.
Qed.

Lemma run_calls_heap calls st r o :
  heap st !! r = Some o → heap (run_calls calls st) !! r = Some o.
Proof.
  revert st. induction calls as [|l calls IH]; intros st Hr; simpl; [done|].
  apply IH. by apply good_new.
Qed.

Lemma new_cache_hit st args v :
  hashable (heap st) (VTuple args) = true →
  CACHE st !! VTuple args = Some v → new args st = (Ret v, st).
Proof.
  intros Hh Hv. unfold new, new_body, try_except, CACHE_getitem.
  by rewrite Hh, Hv.
Qed.

Lemma seeds_init n c :
  (n, c) ∈ seeds →
  ∃ r x y z,
    c = [VInt x; VInt y; VInt z] ∧
    CACHE init_state !! VTuple [VStr n] = Some (VRef r) ∧
    CACHE init_state !! VTuple [VInt x; VInt y; VInt z] = Some (VRef r) ∧
    CACHE init_state !! VTuple [VInt x; VInt y; VInt z; VInt 255]
      = Some (VRef r) ∧
    heap init_state !! r
      = Some (Instance (VInt x) (VInt y) (VInt z) (VInt 255)).
Proof.
  intros Hin. unfold seeds in Hin. rewrite !elem_of_cons in Hin.
  destruct Hin as [Hin|[Hin|[Hin|[Hin|[Hin|Hin]]]]];
    [..|by apply elem_of_nil in Hin];
    injection Hin as -> ->; eexists _, _, _, _;
    (split; [reflexivity|]); split_and!; vm_compute; reflexivity.
Qed.

(** X11.  After loading, and after any sequence of constructor calls
    none of which is on the 1-tuple of the name, each of the five names
    gives the object that its three components, and its components with
    alpha 255, give; the calls change nothing. *)
Theorem named_colors calls n c :
  (n, c) ∈ seeds →
  Forall (λ l, l ≠ [VTuple [VStr n]]) calls →
  let st := run_calls calls init_state in
  ∃ r cr cg cb,
    c = [cr; cg; cb] ∧
    heap st !! r = Some (Instance cr cg cb (VInt 255)) ∧
    new [VStr n] st = (Ret (VRef r), st) ∧
    new [cr; cg; cb] st = (Ret (VRef r), st) ∧
    new [cr; cg; cb; VInt 255] st = (Ret (VRef r), st).
Proof.
  intros Hin Hcalls.
  assert (Forall (λ l, color_key (VTuple [VStr n])
                       ∨ VTuple [VStr n] ≠ unwrap l) calls) as Hname.
  { eapply List.Forall_impl; [|exact Hcalls]. intros l Hl. right.
    intros Heq. symmetry in Heq. by apply unwrap_name in Heq. }
  destruct (seeds_init n c Hin) as (r & x & y & z & -> & H1 & H3 & H4 & Hr).
  clear Hin. remember init_state as st0 eqn:E. clear E.
  assert (∀ l, (length l = 3 ∨ length l = 4)%nat →
            Forall (λ a, color_key (VTuple l) ∨ VTuple l ≠ unwrap a) calls)
    as Hkey.
  { intros l Hl. apply List.Forall_forall. intros a _. left. by exists l. }
  exists r, (VInt x), (VInt y), (VInt z). split; [done|].
  split; [by apply run_calls_heap|].
  split_and!; (apply new_cache_hit; [reflexivity|]); apply run_calls_entry;
    auto.
Qed.

Lemma named_colors_witness :
  let st := run_calls [[VTuple [VStr "blue"]]; [VInt 1; VInt 2; VInt 3]]
              init_state in
  ∃ r cr cg cb,
    [VInt 255; VInt 0; VInt 0] = [cr; cg; cb] ∧
    heap st !! r = Some (Instance cr cg cb (VInt 255)) ∧
    new [VStr "red"] st = (Ret (VRef r), st) ∧
    new [cr; cg; cb] st = (Ret (VRef r), st) ∧
    new [cr; cg; cb; VInt 255] st = (Ret (VRef r), st).
Proof.
  apply (named_colors [[VTuple [VStr "blue"]]; [VInt 1; VInt 2; VInt 3]]
           "red" [VInt 255; VInt 0; VInt 0]).
  - unfold seeds. rewrite !elem_of_cons. right; right; left. reflexivity.
  - repeat apply List.Forall_cons; [discriminate|discriminate|apply List.Forall_nil].
Defined.

(** *** [color_property] *)

Lemma color_property_init_Ret name default st0 p st :
  color_property_init name default st0 = (Ret p, st) →
  prop_name p = name ∧
  closure_attr p = ("_" +:+ name)%string ∧
  closure_default p = default.
Proof.
  unfold color_property_init, bind, ret.
  case_decide.
  - by intros [= <- <-].
  - destruct (new [default] st0) as [[c|e] st']; [|done]. by intros [= <- <-].
Qed.

(** X12.  A property made by [color_property(name, default)], on an
    object with an instance dictionary: assigning a valid tuple stores
    the canonical colour of the tuple under ['_' + name], and reading
    gives that object back; assigning [None] deletes that attribute,
    after which reading gives [default] as it was passed, and deleting
    again does nothing. *)
Theorem color_property_roundtrip name default st0 p st d t :
  color_property_init name default st0 = (Ret p, st) →
  wf st → valid_tuple t →
  let attr := ("_" +:+ name)%string in
  ∃ r st1,
    new t st = (Ret (VRef r), st1) ∧
    fset p (VTuple t) (st, d) = (Ret tt, (st1, <[attr := VRef r]> d)) ∧
    fget p (st1, <[attr := VRef r]> d)
      = (Ret (VRef r), (st1, <[attr := VRef r]> d)) ∧
    fset p VNone (st1, <[attr := VRef r]> d)
      = (Ret tt, (st1, delete attr d)) ∧
    fget p (st1, delete attr d) = (Ret default, (st1, delete attr d)) ∧
    fdel p (st1, delete attr d) = (Ret tt, (st1, delete attr d)).
Proof.
  intros Hinit Hwf Hvalid attr.
  destruct (color_property_init_Ret _ _ _ _ _ Hinit) as (_ & Hattr & Hdef).
  destruct (new_valid_slots st t Hwf Hvalid)
    as (r & st1 & cr & cg & cb & ca & _ & Hnew & _).
  exists r, st1. split; [done|]. split_and!.
  - unfold fset. rewrite decide_False by done.
    unfold bind, on_colors. simpl.
    by rewrite (Color_of_tuple_eq st t Hwf Hvalid), Hnew, Hattr.
  - unfold fget. simpl. by rewrite Hattr, lookup_insert_eq.
  - unfold fset. rewrite decide_True by done.
    unfold fdel. simpl. rewrite Hattr, lookup_insert_eq.
    by rewrite delete_insert_eq.
  - unfold fget. simpl. by rewrite Hattr, lookup_delete_eq, Hdef.
  - unfold fdel. simpl. by rewrite Hattr, lookup_delete_eq.
Qed.

(** X13.  A [color_property] made with the name of a cached colour as
    default has that colour in its attribute [default], yet reading the
    property on an object without the attribute returns the name, the
    string, not the colour. *)
Theorem color_property_default name s c st :
  wf st → CACHE st !! VTuple [VStr s] = Some c →
  ∃ p, color_property_init name (VStr s) st = (Ret p, st) ∧
       prop_name p = name ∧
       prop_default p = c ∧
       c ≠ VStr s ∧
       ∀ d, d !! closure_attr p = None →
         fget p (st, d) = (Ret (VStr s), (st, d)).
Proof.
  intros Hwf Hc. eexists. split.
  - unfold color_property_init, bind. rewrite decide_False by done.
    rewrite (new_cache_hit st [VStr s] c) by done. reflexivity.
  - split; [done|]. split; [done|]. split.
    + destruct Hwf as (_ & H12 & _).
      destruct (H12 _ _ Hc) as [(r & ? & ? & ? & ? & -> & _) _]. done.
    + intros d Hd. unfold fget. simpl in *. by rewrite Hd.
Qed.

Lemma color_property_roundtrip_witness :
  let attr := ("_" +:+ "color")%string in
  let p := ColorProperty "color" (VRef 2) "_color" (VStr "black") in
  let t := [VInt 10; VInt 20; VInt 30] in
  ∃ r st1,
    new t init_state = (Ret (VRef r), st1) ∧
    fset p (VTuple t) (init_state, ∅)
      = (Ret tt, (st1, <[attr := VRef r]> ∅)) ∧
    fget p (st1, <[attr := VRef r]> ∅)
      = (Ret (VRef r), (st1, <[attr := VRef r]> ∅)) ∧
    fset p VNone (st1, <[attr := VRef r]> ∅)
      = (Ret tt, (st1, delete attr ∅)) ∧
    fget p (st1, delete attr ∅) = (Ret (VStr "black"), (st1, delete attr ∅)) ∧
    fdel p (st1, delete attr ∅) = (Ret tt, (st1, delete attr ∅)).
Proof.
  refine (color_property_roundtrip "color" (VStr "black") init_state
            (ColorProperty "color" (VRef 2) "_color" (VStr "black"))
            init_state ∅ [VInt 10; VInt 20; VInt 30] _ wf_init _).
  - unfold color_property_init, bind. rewrite decide_False by done.
    rewrite (new_cache_hit init_state [VStr "black"] (VRef 2));
      [reflexivity|reflexivity|vm_compute; reflexivity].
  - split; [by left|].
    repeat constructor; eexists; (split; [reflexivity|lia]).
Defined.

Lemma color_property_default_witness :
  ∃ p, color_property_init "color" (VStr "black") init_state
       = (Ret p, init_state) ∧
       prop_name p = "color"%string ∧
       prop_default p = VRef 2 ∧
       VRef 2 ≠ VStr "black" ∧
       ∀ d, d !! closure_attr p = None →
         fget p (init_state, d) = (Ret (VStr "black"), (init_state, d)).
Proof.
  apply (color_property_default "color" "black" (VRef 2) init_state wf_init).
  vm_compute. reflexivity.
Defined.

Lemma unwrap_valid t : valid_tuple t → unwrap t = VTuple t.
Proof.
  intros [[Hl|Hl] _];
    [by do 4 (destruct t as [|? t]; try discriminate)
    |by do 5 (destruct t as [|? t]; try discriminate)].
Qed.

(** After a call on a valid tuple the tuple itself is a key of the
    colour returned, and repeating the call changes nothing. *)
Lemma new_again st t :
  wf st → valid_tuple t →
  ∃ r st1,
    new t st = (Ret (VRef r), st1) ∧
    wf st1 ∧
    CACHE st1 !! VTuple (canon t) = Some (VRef r) ∧
    new t st1 = (Ret (VRef r), st1) ∧
    new (canon t) st1 = (Ret (VRef r), st1).
Proof.
  intros Hwf Hvalid.
  destruct (new_valid_slots st t Hwf Hvalid)
    as (r & stA & cr & cg & cb & ca & Hcanon & Hnew & Hc & Hr & Hwf1).
  exists r, stA. split_and!; try done.
  - apply new_cache_hit; [by apply hashable_channels, Hvalid|].
    pose proof (unwrap_valid t Hvalid) as Hunw.
    destruct Hvalid as [Hl Hall].
    revert Hnew. unfold new.
    effect_cases new4 t st; intros [= ? ?]; subst.
    + destruct Hkh as [-> | ->]; [done|by rewrite <- Hunw].
    + simpl. rewrite <- Hunw, Hu. apply lookup_insert_eq.
    + simpl. rewrite <- Hunw. apply lookup_insert_eq.
  - apply new_cache_hit; [|done].
    apply hashable_channels.
    destruct Hvalid as [[Hl|Hl] Hall];
      [do 4 (destruct t as [|? t]; try discriminate)
      |do 5 (destruct t as [|? t]; try discriminate)]; simpl; [|done].
    decompose_Forall; repeat constructor; try done.
    exists 255. split; [done|lia].
Qed.

(** *** Arguments are not validated *)

Lemma hashable_atoms h t : Forall atom t → hashable h (VTuple t) = true.
Proof.
  simpl. induction 1 as [|v l Hv _ IH]; simpl; [done|].
  destruct v; simpl in *; try done.
Qed.

Lemma length_chars_4 s :
  String.length s = 4%nat → ∃ c1 c2 c3 c4, chars s = [c1; c2; c3; c4].
Proof.
  destruct s as [|a [|b [|c [|d [|]]]]]; simpl; try discriminate.
  intros _. by eexists _, _, _, _.
Qed.

Lemma cache_miss_name st s :
  wf st → s ∉ names → CACHE st !! VTuple [VStr s] = None.
Proof.
  intros (_ & H12 & _) Hs.
  destruct (CACHE st !! VTuple [VStr s]) as [v|] eqn:Hv; [|done].
  destruct (H12 _ _ Hv) as [_ [(s' & [= ->] & Hin)|[(l & [= <-] & Hl)|Hl]]];
    done.
Qed.

(** X25.  The constructor does not validate its arguments.  In a state
    that satisfies the invariant, four arguments that are integers of any
    size, strings or [None] give a colour with exactly these values in
    its slots; a string of four characters that is not a name gives a
    colour whose slots are its characters; a string of three characters
    that is not a name raises [TypeError] and leaves the store as it
    is. *)
Theorem new_unvalidated st :
  wf st →
  (∀ a b c d, atom a → atom b → atom c → atom d →
     ∃ r st1, new [a; b; c; d] st = (Ret (VRef r), st1) ∧
              heap st1 !! r = Some (Instance a b c d)) ∧
  (∀ s, s ∉ names → String.length s = 4%nat →
     ∃ r st1 c1 c2 c3 c4,
       chars s = [c1; c2; c3; c4] ∧
       new [VStr s] st = (Ret (VRef r), st1) ∧
       heap st1 !! r = Some (Instance c1 c2 c3 c4)) ∧
  (∀ s, s ∉ names → String.length s = 3%nat →
     new [VStr s] st = (Raise TypeError, st)).
Proof.
  intros Hwf. split_and!.
  - intros a b c d Ha Hb Hc Hd.
    assert (Forall atom [a; b; c; d]) as Hall by (by repeat constructor).
    unfold new, new_body, try_except, CACHE_getitem.
    rewrite (hashable_atoms _ _ Hall).
    destruct (CACHE st !! VTuple [a; b; c; d]) as [v|] eqn:Hv.
    + destruct Hwf as (_ & H12 & H3).
      destruct (H12 _ _ Hv) as [(r & ? & ? & ? & ? & -> & _) _].
      destruct (H3 _ _ Hv eq_refl) as (_ & ? & ? & ? & ? & [= <- <- <- <-] & Hr).
      by exists r, st.
    + rewrite decide_True by done. unfold bind. simpl py_len. cbn match.
      rewrite decide_False by done. rewrite decide_True by done.
      cbn [unwrap]. rewrite (hashable_atoms _ _ Hall), Hv.
      rewrite decide_True by done.
      unfold new_instance, bind, alloc, CACHE_setitem, ret. simpl py_items.
      cbn match. cbn [heap CACHE].
      rewrite (hashable_atoms _ _ Hall).
      do 2 eexists. split; [reflexivity|]. simpl. apply lookup_insert_eq.
  - intros s Hs Hl.
    destruct (length_chars_4 s Hl) as (c1 & c2 & c3 & c4 & Hch).
    unfold new, new_body, try_except, CACHE_getitem. simpl hashable.
    rewrite (cache_miss_name st s Hwf Hs), decide_True by done.
    unfold bind. simpl py_len. rewrite Hl. cbn match.
    rewrite decide_False by done. rewrite decide_True by done.
    destruct (CACHE st !! VStr s) as [v|] eqn:Hv.
    + destruct Hwf as (_ & H12 & H3).
      destruct (H12 _ _ Hv) as [(r & ? & ? & ? & ? & -> & _) _].
      assert ((py_len (VStr s) st).1 = Ret 4) as Hlen
        by (simpl; by rewrite Hl).
      destruct (H3 _ _ Hv Hlen) as (_ & ? & ? & ? & ? & Hi & Hr).
      simpl in Hi. rewrite Hch in Hi. injection Hi as <- <- <- <-.
      by exists r, st, c1, c2, c3, c4.
    + rewrite decide_True by done.
      unfold new_instance, bind, alloc, CACHE_setitem, ret. simpl py_items.
      rewrite Hch. cbn match. cbn [heap CACHE]. simpl hashable.
      eexists _, _, c1, c2, c3, c4. split; [done|].
      split; [reflexivity|]. simpl. apply lookup_insert_eq.
  - intros s Hs Hl.
    assert (CACHE st !! VStr s = None) as Hm2.
    { destruct Hwf as (_ & H12 & _).
      destruct (CACHE st !! VStr s) as [v|] eqn:Hv; [|done].
      destruct (H12 _ _ Hv) as [_ [(s' & [=] & _)|[(l & [=] & _)|Hl']]].
      simpl in Hl'. rewrite Hl in Hl'. discriminate. }
    unfold new, new_body, try_except, CACHE_getitem. simpl hashable.
    rewrite (cache_miss_name st s Hwf Hs), decide_True by done.
    unfold bind. simpl py_len. rewrite Hl. cbn match.
    rewrite decide_True by done. rewrite Hm2, decide_True by done.
    reflexivity.
Qed.

Lemma new_unvalidated_witness :
  (∀ a b c d, atom a → atom b → atom c → atom d →
     ∃ r st1, new [a; b; c; d] init_state = (Ret (VRef r), st1) ∧
              heap st1 !! r = Some (Instance a b c d)) ∧
  (∀ s, s ∉ names → String.length s = 4%nat →
     ∃ r st1 c1 c2 c3 c4,
       chars s = [c1; c2; c3; c4] ∧
       new [VStr s] init_state = (Ret (VRef r), st1) ∧
       heap st1 !! r = Some (Instance c1 c2 c3 c4)) ∧
  (∀ s, s ∉ names → String.length s = 3%nat →
     new [VStr s] init_state = (Raise TypeError, init_state)).
Proof. exact (new_unvalidated init_state wf_init). Defined.

(** *** The invariant is kept *)

(** X14.  The invariant holds when the module is loaded, every
    constructor call preserves it whatever its arguments and outcome,
    and so it holds after every sequence of calls. *)
Theorem wf_invariant calls :
  wf init_state ∧
  (∀ args st, wf st → wf (new args st).2) ∧
  wf (run_calls calls init_state).
Proof.
  split_and!; [apply wf_init|intros; by apply wf_new|apply wf_reachable].
Qed.

End ColorProofs.

(** ** Circles *)

Module PyMathProofs.
Import PyMath.

Lemma intersects_circle_None a b : intersects_circle a b = VNone.
Proof. reflexivity. Qed.

(** C5.  Evaluation of [Circle.intersects_circle] on two circles of
    radius 1 whose centres are 2 apart (they touch): the method returns
    [None], which is false, not [True]. *)
Theorem intersects_circle_touching :
  let a := mkCircle 1 (0, 0)%Q in
  let b := mkCircle 1 (2, 0)%Q in
  touching_or_overlapping a b ∧
  intersects_circle a b = VNone ∧
  Color.truthy (intersects_circle a b) = false.
Proof. split; [|done]. by vm_compute. Qed.

End PyMathProofs.

(** ** Shapes *)

Module DrawProofs.
Import Draw.





Lemma draw_on_canvas st s sh c tag :
  shapes st !! s = Some sh →
  class_of sh ≠ Image →
  canvas_primitive (class_of sh) = Some tag →
  draw s c st = ext_call c ("draw_" +:+ tag) [DShape s] st.
Proof.
  intros Hs Hc Htag. unfold draw, bind, read_shape. rewrite Hs.
  destruct (class_of sh) eqn:Hcls; simpl in Htag; simplify_eq; try done.
Qed.

Lemma ext_call_spec st c e name args :
  exts st !! c = Some e →
  (name ∈ methods e →
   ext_call c name args st
   = (Ret tt, mkState (colors st) (shapes st) (exts st)
                (ECall c name args :: trace st))) ∧
  (name ∉ methods e → attrs e !! name = None →
   ext_call c name args st = (Raise AttributeError, st)).
Proof.
  intros He. unfold ext_call. rewrite He. split.
  - intros Hin. by rewrite decide_True.
  - intros Hin Hattr. rewrite decide_False by done.
    rewrite decide_False; [done|]. rewrite Hattr. by intros [? ?].
Qed.

Lemma Image_draw_any_canvas st s sh c c' :
  shapes st !! s = Some sh → class_of sh = Image →
  draw s c st = draw s c' st.
Proof.
  intros Hs Hc. unfold draw, bind, read_shape. by rewrite Hs, Hc.
Qed.

(** C3.  Evaluation of [draw] on the image of the store (class [Image]
    of [base.py]) and the canvas, which has the method [draw_image]: the
    call raises [AttributeError] and no method of the canvas is called;
    on the circle, [draw] calls [draw_circle] of the canvas with the
    circle as sole argument. *)
Theorem Image_draw_misses_canvas :
  let st := demo_state in
  class_of <$> shapes st !! 2%positive = Some Image ∧
  (methods <$> exts st !! 3%positive)
    = Some ["draw_circle"; "draw_aabb"; "draw_poly"; "draw_image"]%string ∧
  (draw 2 3 st).1 = Raise AttributeError ∧
  trace (draw 2 3 st).2 = [] ∧
  (draw 1 3 st).1 = Ret tt ∧
  trace (draw 1 3 st).2 = [ECall 3 "draw_circle" [DShape 1]].
Proof. vm_compute. repeat split. Qed.

(** C8 (amended).  For a [Poly] and for a [Rectangle], [get_vertices]
    returns the attribute [vertices] of the owned primitive as it is,
    whatever [tol]; for a shape of any other class it raises
    [NotImplementedError]. *)
Theorem get_vertices_by_class st s sh tol :
  shapes st !! s = Some sh →
  (class_of sh = Poly ∨ class_of sh = Rectangle →
   ∀ e v, exts st !! geometric sh = Some e →
          attrs e !! "vertices"%string = Some v →
          get_vertices s tol st = (Ret v, st)) ∧
  (class_of sh ≠ Poly → class_of sh ≠ Rectangle →
   get_vertices s tol st = (Raise NotImplementedError, st)).
Proof.
  intros Hs. split.
  - intros Hc e v He Hv.
    unfold get_vertices, Poly_get_vertices, bind, read_shape. rewrite Hs.
    destruct Hc as [-> | ->]; rewrite Hs; unfold ext_getattr;
      by rewrite He, Hv.
  - intros Hp Hr. unfold get_vertices, bind, read_shape. rewrite Hs.
    by destruct (class_of sh).
Qed.

Lemma get_vertices_by_class_witness :
  shapes demo_state !! 1%positive
    = Some (mkShape Circle 1 (VRef 2) (VRef 2) 0) ∧
  shapes demo_state !! 3%positive
    = Some (mkShape Poly 4 (VRef 2) (VRef 2) 0) ∧
  get_vertices 1 2 demo_state = (Raise NotImplementedError, demo_state) ∧
  get_vertices 3 2 demo_state
    = (Ret (DPoints [(0, 0)%Q; (1, 0)%Q; (1, 1)%Q; (0, 1)%Q]), demo_state).
Proof.
  assert (shapes demo_state !! 1%positive
          = Some (mkShape Circle 1 (VRef 2) (VRef 2) 0)) as Hc by reflexivity.
  assert (shapes demo_state !! 3%positive
          = Some (mkShape Poly 4 (VRef 2) (VRef 2) 0)) as Hp by reflexivity.
  split; [exact Hc|]. split; [exact Hp|]. split.
  - apply (get_vertices_by_class demo_state 1 _ 2 Hc); discriminate.
  - apply (proj1 (get_vertices_by_class demo_state 3 _ 2 Hp)
             (or_introl eq_refl) square); reflexivity.
Defined.

(** C8 fails as stated: on the circle and on the image of the store
    [get_vertices] raises [NotImplementedError]. *)
Lemma get_vertices_Circle_raises :
  let st := demo_state in
  class_of <$> shapes st !! 1%positive = Some Circle ∧
  class_of <$> shapes st !! 2%positive = Some Image ∧
  (get_vertices 1 2 st).1 = Raise NotImplementedError ∧
  (get_vertices 2 2 st).1 = Raise NotImplementedError.
Proof. vm_compute. repeat split. Qed.

(** C9 (amended).  Whenever [m.Rectangle] returns a primitive and the
    keyword arguments do not include [geometric], [Rectangle.__init__]
    raises [TypeError]: the primitive it built is in the store but no
    shape is created. *)
Theorem Rectangle_init_TypeError m_Rectangle a k st e :
  m_Rectangle a = Ret e →
  kw_geometric k = None →
  Rectangle_init m_Rectangle a k st
  = (Raise TypeError,
     mkState (colors st) (shapes st)
       (<[fresh_loc (exts st) := e]> (exts st)) (trace st)).
Proof.
  intros Hm Hk. unfold Rectangle_init, bind, lift, alloc_ext. rewrite Hm.
  unfold Shape_init_kwds. rewrite Hk. by destruct (kw_other k).
Qed.

Lemma Rectangle_init_raises m_Rectangle a k st x :
  m_Rectangle a = Raise x →
  Rectangle_init m_Rectangle a k st = (Raise x, st).
Proof. intros Hm. unfold Rectangle_init, bind, lift. by rewrite Hm. Qed.

Lemma Rectangle_init_TypeError_witness :
  (Rectangle_init demo_Rectangle demo_args
     (mkKwds None (Some (VStr "red")) None None []) demo_state).1
  = Raise TypeError.
Proof.
  by rewrite (Rectangle_init_TypeError demo_Rectangle demo_args
                (mkKwds None (Some (VStr "red")) None None []) demo_state
                _ eq_refl eq_refl).
Defined.

(** C9 fails as stated: with the keyword [geometric] among the
    arguments the constructor returns a [Rectangle] with that geometry
    attached, and [get_vertices] reads it. *)
Lemma Rectangle_with_geometric :
  let k := mkKwds (Some 5%positive) None None None [] in
  let r := Rectangle_init demo_Rectangle demo_args k demo_state in
  r.1 = Ret 4%positive ∧
  shapes r.2 !! 4%positive
    = Some (mkShape Rectangle 5 (VRef 2) (VRef 2) 0) ∧
  (get_vertices 4 2 r.2).1
    = Ret (DPoints [(0, 0)%Q; (1, 0)%Q; (1, 1)%Q; (0, 1)%Q]).
Proof. vm_compute. repeat split. Qed.

(** *** Drawing, constructors and delegated attributes *)

(** X15.  [draw] of a shape of any class but [Image] of [base.py] calls
    exactly one method of the canvas, [draw_circle], [draw_aabb],
    [draw_poly] or [draw_image] by the class of the shape, with the shape
    as sole argument, and changes nothing else; when the canvas has no
    such attribute it raises [AttributeError] and nothing is called; a
    plain [Shape] raises [TypeError]. *)
Theorem draw_dispatch st s sh c e :
  shapes st !! s = Some sh →
  exts st !! c = Some e →
  class_of sh ≠ Image →
  match canvas_primitive (class_of sh) with
  | None => draw s c st = (Raise TypeError, st)
  | Some tag =>
      let name := ("draw_" +:+ tag)%string in
      (name ∈ methods e →
       draw s c st
       = (Ret tt, mkState (colors st) (shapes st) (exts st)
                    (ECall c name [DShape s] :: trace st))) ∧
      (name ∉ methods e → attrs e !! name = None →
       draw s c st = (Raise AttributeError, st)) ∧
      tag ∈ ["circle"; "aabb"; "poly"; "image"]%string
  end.
Proof.
  intros Hs He Hc.
  destruct (canvas_primitive (class_of sh)) as [tag|] eqn:Htag.
  - rewrite (draw_on_canvas st s sh c tag Hs Hc Htag).
    destruct (ext_call_spec st c e ("draw_" +:+ tag) [DShape s] He)
      as [Hyes Hno].
    split_and!; [done|done|].
    destruct (class_of sh); simpl in Htag; simplify_eq; set_solver.
  - unfold draw, bind, read_shape. rewrite Hs.
    destruct (class_of sh) eqn:Hcls; simpl in Htag; try done.
    unfold Shape_draw, bind, read_shape. by rewrite Hs, Hcls.
Qed.

Lemma Shape_init_spec c g color lcolor lw st col lcol cs1 cs2 :
  Color.new [color] (colors st) = (Ret col, cs1) →
  Color.new [lcolor] cs1 = (Ret lcol, cs2) →
  Shape_init c g color lcolor lw st
  = (Ret (fresh_loc (shapes st)),
     mkState cs2 (<[fresh_loc (shapes st) := mkShape c g col lcol lw]>
                    (shapes st)) (exts st) (trace st)).
Proof.
  intros H1 H2. unfold Shape_init, bind, in_colors, alloc_shape. simpl.
  rewrite H1. simpl. by rewrite H2.
Qed.

Lemma Shape_init_Ret c g color lcolor lw st s st' :
  Shape_init c g color lcolor lw st = (Ret s, st') →
  ∃ col lcol cs1 cs2,
    Color.new [color] (colors st) = (Ret col, cs1) ∧
    Color.new [lcolor] cs1 = (Ret lcol, cs2) ∧
    s = fresh_loc (shapes st) ∧
    st' = mkState cs2 (<[s := mkShape c g col lcol lw]> (shapes st))
            (exts st) (trace st).
Proof.
  unfold Shape_init, bind, in_colors, alloc_shape. simpl.
  destruct (Color.new [color] (colors st)) as [[col|x] cs1] eqn:H1; [|done].
  simpl.
  destruct (Color.new [lcolor] cs1) as [[lcol|x] cs2] eqn:H2; [|done]. simpl.
  intros [= <- <-]. by exists col, lcol, cs1, cs2.
Qed.

Lemma Shape_init_Raise c g color lcolor lw st x st' :
  Shape_init c g color lcolor lw st = (Raise x, st') →
  shapes st' = shapes st ∧ exts st' = exts st ∧ trace st' = trace st.
Proof.
  unfold Shape_init, bind, in_colors, alloc_shape. simpl.
  destruct (Color.new [color] (colors st)) as [[col|y] cs1]; simpl.
  - destruct (Color.new [lcolor] cs1) as [[lcol|y] cs2]; simpl; [done|].
    by intros [= <- <-].
  - by intros [= <- <-].
Qed.

Lemma built_init c (mk : outcome ext) e k st col lcol cs1 cs2 :
  kw_other k = [] → kw_geometric k = None →
  Color.new [default (VStr "black") (kw_color k)] (colors st) = (Ret col, cs1) →
  Color.new [default (VStr "black") (kw_line_color k)] cs1 = (Ret lcol, cs2) →
  mk = Ret e →
  built c e col lcol (default 0%Q (kw_line_width k)) st
    ((e <- lift mk ;; obj <- alloc_ext e ;; Shape_init_args c obj k) st).
Proof.
  intros Ho Hg H1 H2 ->. unfold bind, lift, alloc_ext, Shape_init_args.
  rewrite Ho, Hg.
  erewrite Shape_init_spec; [|exact H1|exact H2].
  unfold built. simpl.
  split_and!; try done; apply fresh_loc_fresh.
Qed.

Lemma clash_init c (mk : outcome ext) e k st :
  is_Some (kw_geometric k) ∨ kw_other k ≠ [] →
  mk = Ret e →
  (e <- lift mk ;; obj <- alloc_ext e ;; Shape_init_args c obj k) st
  = (Raise TypeError,
     mkState (colors st) (shapes st)
       (<[fresh_loc (exts st) := e]> (exts st)) (trace st)).
Proof.
  intros Hk ->. unfold bind, lift, alloc_ext, Shape_init_args. simpl.
  destruct (kw_other k), (kw_geometric k); try done.
  destruct Hk as [[? [=]]|?]; done.
Qed.

(** X16.  When the keywords are among [color], [line_color] and
    [line_width] and the two colours can be made, [Circle], [AABB] and
    [Poly] each create one primitive and one shape of their class that
    owns it, with the colours and the line width given or defaulted, and
    call nothing; [get_vertices] on the new [Poly] returns the
    attribute [vertices] of the primitive [m.Poly] built. *)
Theorem shape_constructors m_Circle m_AABB m_Poly radius pos a vertices
    k st col lcol cs1 cs2 :
  kw_other k = [] → kw_geometric k = None →
  Color.new [default (VStr "black") (kw_color k)] (colors st) = (Ret col, cs1) →
  Color.new [default (VStr "black") (kw_line_color k)] cs1 = (Ret lcol, cs2) →
  let lw := default 0%Q (kw_line_width k) in
  (∀ e, m_Circle radius pos = Ret e →
     built Circle e col lcol lw st (Circle_init m_Circle radius pos k st)) ∧
  (∀ e, m_AABB a = Ret e →
     built AABB e col lcol lw st (AABB_init m_AABB a k st)) ∧
  (∀ e, m_Poly vertices = Ret e →
     built Poly e col lcol lw st (Poly_init m_Poly vertices k st) ∧
     ∀ tol v, attrs e !! "vertices"%string = Some v →
       (get_vertices (fresh_loc (shapes st)) tol
          (Poly_init m_Poly vertices k st).2).1 = Ret v).
Proof.
  intros Ho Hg H1 H2 lw. split_and!.
  - intros e He. by eapply built_init.
  - intros e He. by eapply built_init.
  - intros e He.
    assert (built Poly e col lcol lw st (Poly_init m_Poly vertices k st))
      as Hb by (by eapply built_init).
    split; [done|]. intros tol v Hv.
    destruct Hb as (_ & Hs & Hx & _).
    destruct (Poly_init m_Poly vertices k st) as [o st']. simpl in *.
    unfold get_vertices, Poly_get_vertices, bind, read_shape, ext_getattr.
    rewrite Hs, lookup_insert_eq. simpl.
    rewrite Hs, lookup_insert_eq. simpl.
    by rewrite Hx, lookup_insert_eq, Hv.
Qed.

(** X17.  With a keyword [geometric], or a keyword that
    [Shape.__init__] does not know, [Circle], [AABB] and [Poly] raise
    [TypeError] after the primitive was built: no shape is created and
    no colour is looked up. *)
Theorem positional_geometric m_Circle m_AABB m_Poly radius pos a vertices
    k st :
  is_Some (kw_geometric k) ∨ kw_other k ≠ [] →
  let failed e := (@Raise loc TypeError,
                   mkState (colors st) (shapes st)
                     (<[fresh_loc (exts st) := e]> (exts st)) (trace st)) in
  (∀ e, m_Circle radius pos = Ret e →
        Circle_init m_Circle radius pos k st = failed e) ∧
  (∀ e, m_AABB a = Ret e → AABB_init m_AABB a k st = failed e) ∧
  (∀ e, m_Poly vertices = Ret e → Poly_init m_Poly vertices k st = failed e).
Proof.
  intros Hk failed. split_and!; intros e He; by eapply clash_init.
Qed.

(** X18.  [Shape.from_primitive] picks the class by the first test
    that succeeds, circle before polygon before box, and raises
    [ValueError] with the store unchanged when none does; the shape it
    returns is new, owns the object given and has the line width given;
    no external object is created or called. *)
Theorem from_primitive_class isC isP isA obj color lcolor lw st e :
  exts st !! obj = Some e →
  let r := from_primitive isC isP isA obj color lcolor lw st in
  (isC e = false → isP e = false → isA e = false →
   r = (Raise ValueError, st)) ∧
  (∀ s, r.1 = Ret s →
     ∃ col lcol,
       shapes r.2
       = <[s := mkShape (if isC e then Circle
                         else if isP e then Poly else AABB)
                 obj col lcol lw]> (shapes st) ∧
       shapes st !! s = None ∧
       (isC e || isP e || isA e) = true) ∧
  exts r.2 = exts st ∧ trace r.2 = trace st.
Proof.
  intros He r. unfold r, from_primitive, bind. rewrite He.
  destruct (isC e) eqn:HC; [|destruct (isP e) eqn:HP;
                              [|destruct (isA e) eqn:HA]];
    unfold ret, raise; simpl;
    try (destruct (Shape_init _ obj color lcolor lw st) as [[s|x] st'] eqn:Hi;
         [apply Shape_init_Ret in Hi
            as (col & lcol & cs1 & cs2 & _ & _ & -> & ->)
         |apply Shape_init_Raise in Hi as (Hs & Hx & Ht)]; simpl;
         split_and!; try done;
         intros ? [= <-]; exists col, lcol;
         split_and!; try done; apply fresh_loc_fresh).
  split_and!; try done.
Qed.

Lemma properties_own c name :
  name ∈ own_names → properties c !! name = None.
Proof.
  intros Hin.
  destruct (properties c !! name) as [target|] eqn:Ht; [|done]. exfalso.
  unfold own_names, shape_methods in Hin. simpl in Hin.
  destruct c;
    cbv [properties class_dict Circle_body AABB_body Poly_body foldl
         fst snd] in Ht;
    repeat (apply lookup_insert_Some in Ht as [[<- _]|[_ Ht]];
            [repeat (apply elem_of_cons in Hin as [Hin|Hin];
                     [discriminate Hin|]);
             by apply elem_of_nil in Hin|]);
    by rewrite lookup_empty in Ht.
Qed.

Lemma ext_attribute_has st g e name :
  exts st !! g = Some e →
  if ext_has e name
  then ∃ a, ext_attribute g name st = (Ret a, st)
  else ext_attribute g name st = (Raise AttributeError, st).
Proof.
  intros He. unfold ext_attribute, ext_has. rewrite He.
  destruct (decide (name ∈ methods e)) as [Hm|Hm].
  - rewrite bool_decide_eq_true_2 by done. simpl. eauto.
  - rewrite bool_decide_eq_false_2 by done. simpl.
    destruct (attrs e !! name) as [v|] eqn:Hv.
    + rewrite bool_decide_eq_true_2 by eauto. eauto.
    + rewrite bool_decide_eq_false_2; [done|]. by intros [? ?].
Qed.

(** A property: the getter reads [target], and [Shape.__getattr__]
    reads [name] when the primitive has no [target]. *)
Lemma shape_getattr_property st s sh e name target :
  shapes st !! s = Some sh →
  exts st !! geometric sh = Some e →
  unmodelled (class_of sh) name = false →
  properties (class_of sh) !! name = Some target →
  shape_getattr s name st
  = found (ext_attribute (geometric sh)
             (if ext_has e target then target else name)) st.
Proof.
  intros Hs He Hu Hp. unfold shape_getattr, bind at 1, read_shape.
  rewrite Hs, Hu, Hp. unfold found, bind, try_except.
  pose proof (ext_attribute_has st (geometric sh) e target He) as Ht.
  destruct (ext_has e target).
  - destruct Ht as [a ->]. done.
  - rewrite Ht, decide_True by done.
    unfold Shape_getattr, bind, read_shape. by rewrite Hs.
Qed.

Lemma own_names_ne name x : name ∉ own_names → x ∈ own_names → name ≠ x.
Proof. by intros Hn Hx ->. Qed.

(** A name that no class defines, and the slot [sync]. *)
Lemma shape_getattr_foreign st s sh name :
  shapes st !! s = Some sh →
  unmodelled (class_of sh) name = false →
  properties (class_of sh) !! name = None →
  name ∉ own_names ∨ name = "sync"%string →
  shape_getattr s name st = found (ext_attribute (geometric sh) name) st.
Proof.
  intros Hs Hu Hp Hn. unfold shape_getattr, bind at 1, read_shape.
  rewrite Hs, Hu, Hp.
  assert (found (Shape_getattr s name) st
          = found (ext_attribute (geometric sh) name) st) as Hg.
  { unfold found, Shape_getattr, bind, read_shape. by rewrite Hs. }
  destruct Hn as [Hn| ->]; [|exact Hg].
  assert (∀ x, x ∈ own_names → name ≠ x) as Hne
    by (intros x; by apply own_names_ne).
  rewrite !decide_False; [exact Hg|..].
  - intros Hm. apply Hn. unfold own_names. apply elem_of_app. by right.
  - apply Hne. unfold own_names. simpl. by repeat constructor.
  - apply Hne. unfold own_names. simpl. by repeat constructor.
  - apply Hne. unfold own_names. simpl. by repeat constructor.
  - apply Hne. unfold own_names. simpl. by repeat constructor.
  - apply Hne. unfold own_names. simpl. by repeat constructor.
  - apply Hne. unfold own_names. simpl. by repeat constructor.
Qed.

(** X19.  Reading attributes of a shape.  [pos] of an [AABB] or an
    [Image] is the attribute [pos_ne] of the primitive (the last of the
    five bindings of [pos] in the class body), and the attribute [pos]
    only when the primitive has no [pos_ne]; [shape] of a [Poly] or a
    [Rectangle] is [vertices], and [shape] only without it.  The slots
    [geometric], [color], [line_color] and [line_width], the property
    [visualization], the class attribute [canvas_primitive] and the
    methods are answered by the shape itself.  Any other ordinary name,
    the unassigned slot [sync] and a property of its own name read the
    primitive's attribute of that name.  No property reads [pos_sw],
    [pos_nw] or [pos_se]. *)
Theorem delegated_properties st s sh e :
  shapes st !! s = Some sh →
  exts st !! geometric sh = Some e →
  let prim name := found (ext_attribute (geometric sh) name) st in
  let own v := (@Ret (option attribute) (Some v), st) in
  (class_of sh ∈ [AABB; Image; ImageTex] →
   shape_getattr s "pos" st
   = prim (if ext_has e "pos_ne" then "pos_ne" else "pos")%string) ∧
  (class_of sh ∈ [Poly; Rectangle] →
   shape_getattr s "shape" st
   = prim (if ext_has e "vertices" then "vertices" else "shape")%string) ∧
  shape_getattr s "geometric" st = own (AValue (DExt (geometric sh))) ∧
  shape_getattr s "color" st = own (AValue (DPy (color sh))) ∧
  shape_getattr s "line_color" st = own (AValue (DPy (line_color sh))) ∧
  shape_getattr s "line_width" st = own (AValue (DNum (line_width sh))) ∧
  shape_getattr s "visualization" st = own (AValue (DShape s)) ∧
  shape_getattr s "canvas_primitive" st
  = own (AValue (DPy (match canvas_primitive (class_of sh) with
                      | Some tag => VStr tag
                      | None => VNone
                      end))) ∧
  (∀ name, name ∈ shape_methods →
     shape_getattr s name st = own (AMethod name)) ∧
  (∀ name, unmodelled (class_of sh) name = false →
     name ∉ own_names ∨ name = "sync"%string →
     properties (class_of sh) !! name = None ∨
     properties (class_of sh) !! name = Some name →
     shape_getattr s name st = prim name) ∧
  (∀ name target, properties (class_of sh) !! name = Some target →
     target ∉ ["pos_sw"; "pos_nw"; "pos_se"]%string).
Proof.
  intros Hs He prim own.
  assert (∀ name v,
            name ∈ own_names →
            (∀ c, unmodelled c name = false) →
            (∀ c, class_of sh = c →
               (if decide (name = "visualization"%string) then
                  ret (AValue (DShape s))
                else if decide (name = "geometric"%string) then
                  ret (AValue (DExt (geometric sh)))
                else if decide (name = "color"%string) then
                  ret (AValue (DPy (color sh)))
                else if decide (name = "line_color"%string) then
                  ret (AValue (DPy (line_color sh)))
                else if decide (name = "line_width"%string) then
                  ret (AValue (DNum (line_width sh)))
                else if decide (name = "canvas_primitive"%string) then
                  ret (AValue (DPy (match canvas_primitive c with
                                    | Some tag => VStr tag
                                    | None => VNone
                                    end)))
                else if decide (name ∈ shape_methods) then ret (AMethod name)
                else Shape_getattr s name) st = (Ret v, st)) →
            shape_getattr s name st = own v) as Hown.
  { intros name v Hin Hu Hv. unfold shape_getattr, bind at 1, read_shape.
    rewrite Hs, Hu, (properties_own _ name Hin).
    unfold found, bind. by rewrite (Hv _ eq_refl). }
  split_and!.
  - intros Hc. apply (shape_getattr_property st s sh e); try done.
    + rewrite !elem_of_cons in Hc.
      destruct Hc as [->|[->|[->|Hc]]]; [..|by apply elem_of_nil in Hc];
        reflexivity.
    + rewrite !elem_of_cons in Hc.
      destruct Hc as [->|[->|[->|Hc]]]; [..|by apply elem_of_nil in Hc];
        vm_compute; reflexivity.
  - intros Hc. apply (shape_getattr_property st s sh e); try done.
    + rewrite !elem_of_cons in Hc.
      destruct Hc as [->|[->|Hc]]; [..|by apply elem_of_nil in Hc];
        reflexivity.
    + rewrite !elem_of_cons in Hc.
      destruct Hc as [->|[->|Hc]]; [..|by apply elem_of_nil in Hc];
        vm_compute; reflexivity.
  - apply Hown; [by repeat constructor|by intros []|by intros].
  - apply Hown; [by repeat constructor|by intros []|by intros].
  - apply Hown; [by repeat constructor|by intros []|by intros].
  - apply Hown; [by repeat constructor|by intros []|by intros].
  - apply Hown; [by repeat constructor|by intros []|by intros].
  - apply Hown; [by repeat constructor|by intros []|by intros c <-].
  - intros name Hm. apply Hown.
    + unfold own_names. apply elem_of_app. by right.
    + unfold shape_methods in Hm.
      repeat (apply elem_of_cons in Hm as [->|Hm]; [by intros []|]).
      by apply elem_of_nil in Hm.
    + intros c _. unfold shape_methods in Hm.
      repeat (apply elem_of_cons in Hm as [->|Hm]; [reflexivity|]).
      by apply elem_of_nil in Hm.
  - intros name Hu Hn [Hp|Hp].
    + by apply (shape_getattr_foreign st s sh).
    + rewrite (shape_getattr_property st s sh e name name Hs He Hu Hp).
      by destruct (ext_has e name).
  - intros name target Ht.
    destruct (class_of sh);
      cbv [properties class_dict Circle_body AABB_body Poly_body foldl
           fst snd] in Ht;
      repeat (apply lookup_insert_Some in Ht as [[? <-]|[? Ht]];
              [first [ by subst
                     | rewrite !not_elem_of_cons;
                       split_and!; [discriminate..|apply not_elem_of_nil] ]|]);
      by rewrite lookup_empty in Ht.
Qed.

(** X20.  [Shape.__init__] with the same valid tuple as [color] and
    [line_color] stores one and the same colour object in both slots,
    the cache entry of the components, which a later [Color( *t)]
    returns again; the invariant of the colours is kept. *)
Theorem Shape_init_shares_colors c g t lw st :
  Color.wf (colors st) → Color.valid_tuple t →
  ∃ r st',
    Shape_init c g (VTuple t) (VTuple t) lw st
    = (Ret (fresh_loc (shapes st)), st') ∧
    shapes st' !! fresh_loc (shapes st)
    = Some (mkShape c g (VRef r) (VRef r) lw) ∧
    Color.CACHE (colors st') !! VTuple (Color.canon t) = Some (VRef r) ∧
    Color.wf (colors st') ∧
    Color.new t (colors st') = (Ret (VRef r), colors st').
Proof.
  intros Hwf Hvalid.
  destruct (ColorProofs.new_again (colors st) t Hwf Hvalid)
    as (r & cs & Hnew & Hwf1 & Hc & Hagain & _).
  exists r. eexists. split.
  - apply (Shape_init_spec _ _ _ _ _ _ (VRef r) (VRef r) cs cs).
    + by rewrite (ColorProofs.Color_of_tuple_eq _ _ Hwf Hvalid).
    + by rewrite (ColorProofs.Color_of_tuple_eq _ _ Hwf1 Hvalid).
  - simpl. split_and!; try done. apply lookup_insert_eq.
Qed.

Lemma Shape_init_shares_colors_witness :
  ∃ r st',
    Shape_init Circle 1 (VTuple [VInt 10; VInt 20; VInt 30])
      (VTuple [VInt 10; VInt 20; VInt 30]) 0 demo_state
    = (Ret (fresh_loc (shapes demo_state)), st') ∧
    shapes st' !! fresh_loc (shapes demo_state)
    = Some (mkShape Circle 1 (VRef r) (VRef r) 0) ∧
    Color.CACHE (colors st')
      !! VTuple (Color.canon [VInt 10; VInt 20; VInt 30]) = Some (VRef r) ∧
    Color.wf (colors st') ∧
    Color.new [VInt 10; VInt 20; VInt 30] (colors st')
    = (Ret (VRef r), colors st').
Proof.
  apply (Shape_init_shares_colors Circle 1 [VInt 10; VInt 20; VInt 30] 0
           demo_state ColorProofs.wf_init).
  split; [by left|].
  repeat constructor; eexists; (split; [reflexivity|lia]).
Defined.

Lemma draw_dispatch_witness :
  let name := ("draw_" +:+ "poly")%string in
  (name ∈ methods canvas →
   draw 3 3 demo_state
   = (Ret tt, mkState (colors demo_state) (shapes demo_state)
                (exts demo_state)
                (ECall 3 name [DShape 3] :: trace demo_state))) ∧
  (name ∉ methods canvas → attrs canvas !! name = None →
   draw 3 3 demo_state = (Raise AttributeError, demo_state)) ∧
  "poly"%string ∈ ["circle"; "aabb"; "poly"; "image"]%string.
Proof.
  exact (draw_dispatch demo_state 3 (mkShape Poly 4 (VRef 2) (VRef 2) 0) 3
           canvas eq_refl eq_refl ltac:(discriminate)).
Defined.

Lemma from_primitive_class_witness :
  let r := from_primitive (λ _, false) (λ _, true) (λ _, true) 5
             (VStr "red") (VStr "blue") 1 demo_state in
  ((λ _ : ext, false) square = false → (λ _ : ext, true) square = false →
   (λ _ : ext, true) square = false →
   r = (Raise ValueError, demo_state)) ∧
  (∀ s, r.1 = Ret s →
     ∃ col lcol,
       shapes r.2
       = <[s := mkShape (if (λ _ : ext, false) square then Circle
                         else if (λ _ : ext, true) square then Poly else AABB)
                 5 col lcol 1]> (shapes demo_state) ∧
       shapes demo_state !! s = None ∧
       ((λ _ : ext, false) square || (λ _ : ext, true) square
        || (λ _ : ext, true) square) = true) ∧
  exts r.2 = exts demo_state ∧ trace r.2 = trace demo_state.
Proof.
  exact (from_primitive_class (λ _, false) (λ _, true) (λ _, true) 5
           (VStr "red") (VStr "blue") 1 demo_state square eq_refl).
Defined.

Lemma delegated_properties_witness :
  let st := demo_state in
  let sh := mkShape Image 2 (VRef 2) (VRef 2) 0 in
  let prim name := found (ext_attribute (geometric sh) name) st in
  let own v := (@Ret (option attribute) (Some v), st) in
  (class_of sh ∈ [AABB; Image; ImageTex] →
   shape_getattr 2 "pos" st
   = prim (if ext_has box "pos_ne" then "pos_ne" else "pos")%string) ∧
  (class_of sh ∈ [Poly; Rectangle] →
   shape_getattr 2 "shape" st
   = prim (if ext_has box "vertices" then "vertices" else "shape")%string) ∧
  shape_getattr 2 "geometric" st = own (AValue (DExt (geometric sh))) ∧
  shape_getattr 2 "color" st = own (AValue (DPy (color sh))) ∧
  shape_getattr 2 "line_color" st = own (AValue (DPy (line_color sh))) ∧
  shape_getattr 2 "line_width" st = own (AValue (DNum (line_width sh))) ∧
  shape_getattr 2 "visualization" st = own (AValue (DShape 2)) ∧
  shape_getattr 2 "canvas_primitive" st
  = own (AValue (DPy (match canvas_primitive (class_of sh) with
                      | Some tag => VStr tag
                      | None => VNone
                      end))) ∧
  (∀ name, name ∈ shape_methods →
     shape_getattr 2 name st = own (AMethod name)) ∧
  (∀ name, unmodelled (class_of sh) name = false →
     name ∉ own_names ∨ name = "sync"%string →
     properties (class_of sh) !! name = None ∨
     properties (class_of sh) !! name = Some name →
     shape_getattr 2 name st = prim name) ∧
  (∀ name target, properties (class_of sh) !! name = Some target →
     target ∉ ["pos_sw"; "pos_nw"; "pos_se"]%string).
Proof.
  exact (delegated_properties demo_state 2
           (mkShape Image 2 (VRef 2) (VRef 2) 0) box eq_refl eq_refl).
Defined.

Lemma shape_constructors_witness :
  let m_Circle := λ (r : Q) (p : Q * Q), Ret disc in
  let m_Poly := λ vs : list (Q * Q),
                  Ret (mkExt {[ "vertices"%string := DPoints vs ]} []) in
  let k := mkKwds None None None None [] in
  let vs := [(0, 0)%Q; (1, 0)%Q; (0, 1)%Q] in
  let st := demo_state in
  (∀ e, m_Circle 1%Q (0, 0)%Q = Ret e →
     built Circle e (VRef 2) (VRef 2) 0 st
       (Circle_init m_Circle 1 (0, 0)%Q k st)) ∧
  (∀ e, demo_Rectangle demo_args = Ret e →
     built AABB e (VRef 2) (VRef 2) 0 st
       (AABB_init demo_Rectangle demo_args k st)) ∧
  (∀ e, m_Poly vs = Ret e →
     built Poly e (VRef 2) (VRef 2) 0 st (Poly_init m_Poly vs k st) ∧
     ∀ tol v, attrs e !! "vertices"%string = Some v →
       (get_vertices (fresh_loc (shapes st)) tol
          (Poly_init m_Poly vs k st).2).1 = Ret v).
Proof.
  refine (shape_constructors (λ _ _, Ret disc) demo_Rectangle
            (λ vs, Ret (mkExt {[ "vertices"%string := DPoints vs ]} []))
            1 (0, 0)%Q demo_args [(0, 0)%Q; (1, 0)%Q; (0, 1)%Q]
            (mkKwds None None None None []) demo_state
            (VRef 2) (VRef 2) Color.init_state Color.init_state
            eq_refl eq_refl _ _);
    (apply ColorProofs.new_cache_hit; [reflexivity|vm_compute; reflexivity]).
Defined.

Lemma positional_geometric_witness :
  let m_Circle := λ (r : Q) (p : Q * Q), Ret disc in
  let m_Poly := λ vs : list (Q * Q),
                  Ret (mkExt {[ "vertices"%string := DPoints vs ]} []) in
  let k := mkKwds (Some 5%positive) None None None [] in
  let vs := [(0, 0)%Q; (1, 0)%Q; (0, 1)%Q] in
  let st := demo_state in
  let failed e := (@Raise loc TypeError,
                   mkState (colors st) (shapes st)
                     (<[fresh_loc (exts st) := e]> (exts st)) (trace st)) in
  (∀ e, m_Circle 1%Q (0, 0)%Q = Ret e →
        Circle_init m_Circle 1 (0, 0)%Q k st = failed e) ∧
  (∀ e, demo_Rectangle demo_args = Ret e →
        AABB_init demo_Rectangle demo_args k st = failed e) ∧
  (∀ e, m_Poly vs = Ret e → Poly_init m_Poly vs k st = failed e).
Proof.
  exact (positional_geometric (λ _ _, Ret disc) demo_Rectangle
           (λ vs, Ret (mkExt {[ "vertices"%string := DPoints vs ]} []))
           1 (0, 0)%Q demo_args [(0, 0)%Q; (1, 0)%Q; (0, 1)%Q]
           (mkKwds (Some 5%positive) None None None []) demo_state
           (or_introl (ex_intro _ 5%positive eq_refl))).
Defined.

(** *** Copies *)



End DrawProofs.

(** ** Textures *)

Module ImageProofs.
Import Image.






Lemma Forall_removelast {A} (P : A → Prop) l :
  Forall P l → Forall P (removelast l).
Proof.
  induction 1 as [|x [|y l] Hx Hl IH]; simpl in *; try by constructor.
Qed.

Lemma Forall_cache_remove (P : call * loc → Prop) k l :
  Forall P l → Forall P (cache_remove k l).
Proof.
  induction 1 as [|[k' t] l Hx Hl IH]; simpl; [done|].
  case_decide; [done|by constructor].
Qed.

Lemma cache_get_Forall (P : call * loc → Prop) k t l :
  Forall P l → cache_get k l = Some t → P (k, t).
Proof.
  induction 1 as [|[k' t'] l Hx Hl IH]; simpl; [done|].
  case_decide; [|done]. by intros [= <-]; subst.
Qed.

(** *** Positions in the cache *)

Lemma cache_rank_lt k l i : cache_rank k l = Some i → (i < length l)%nat.
Proof.
  revert i. induction l as [|[k' t'] l IH]; intros i; simpl; [done|].
  case_decide; [intros [= <-]; lia|].
  destruct (cache_rank k l) as [j|]; simpl; [|done].
  intros [= <-]. specialize (IH j eq_refl). lia.
Qed.




Section decoder.
Variable PIL_open : string → outcome pil.

Lemma Texture_new_lru p st : lru (Texture_new PIL_open p st).2 = lru st.
Proof.
  unfold Texture_new, bind, lift. by destruct (PIL_open p).
Qed.



Lemma get_texture_body_base f g p st :
  get_texture_body PIL_open f (Call1 p) st
  = get_texture_body PIL_open g (Call1 p) st.
Proof. unfold get_texture_body. by rewrite decide_True. Qed.

Lemma get_texture1_base p st :
  get_texture1 PIL_open (Call1 p) st = get_texture PIL_open (Call1 p) st.
Proof.
  unfold get_texture1, get_texture, lru_cache.
  destruct (cache_get _ _); [done|].
  by rewrite (get_texture_body_base _ (get_texture1 PIL_open)).
Qed.

Lemma get_texture_unfold k st :
  get_texture PIL_open k st
  = lru_cache (get_texture_body PIL_open (get_texture PIL_open)) k st.
Proof.
  unfold get_texture at 1. unfold lru_cache.
  destruct (cache_get _ _); [done|].
  unfold get_texture_body. case_decide; [done|].
  unfold bind. by rewrite get_texture1_base.
Qed.

Lemma get_texture_hit st k t :
  cache_get k (lru st) = Some t →
  get_texture PIL_open k st
  = (Ret t, mkState ((k, t) :: cache_remove k (lru st)) (textures st)).
Proof. intros H. unfold get_texture, lru_cache. by rewrite H. Qed.

Lemma get_texture_body_Ret f k st t st' :
  get_texture_body PIL_open f k st = (Ret t, st') → lru st' = lru st.
Proof.
  unfold get_texture_body. case_decide.
  - intros Hn. by rewrite <- (Texture_new_lru (path_of k) st), Hn.
  - unfold bind. by destruct (f _ st) as [[?|?] ?].
Qed.

Lemma get_texture_cached st k t st1 :
  get_texture PIL_open k st = (Ret t, st1) → cache_get k (lru st1) = Some t.
Proof.
  unfold get_texture, lru_cache.
  destruct (cache_get k (lru st)) as [t'|] eqn:Hk.
  - intros [= -> <-]. simpl. by rewrite decide_True.
  - destruct (get_texture_body _ _ k st) as [[t'|e] st'] eqn:Hb; [|done].
    intros [= -> <-]. simpl. apply get_texture_body_Ret in Hb.
    unfold cache_store. rewrite Hb, Hk.
    case_decide; simpl; by rewrite decide_True.
Qed.

Lemma get_texture_repeat st k t st1 :
  get_texture PIL_open k st = (Ret t, st1) →
  ∃ st2, get_texture PIL_open k st1 = (Ret t, st2) ∧
         textures st2 = textures st1.
Proof.
  intros H%get_texture_cached. eexists. split; [by apply get_texture_hit|done].
Qed.

Lemma get_texture_variant st k :
  ¬ (theta_of k = 0 ∧ scale_of k = 1) →
  cache_get k (lru st) = None →
  get_texture PIL_open k st
  = match get_texture PIL_open (Call1 (path_of k)) st with
    | (Ret _, st') => (Raise AttributeError, st')
    | (Raise e, st') => (Raise e, st')
    end.
Proof.
  intros Hv Hk. unfold get_texture at 1. unfold lru_cache. rewrite Hk.
  unfold get_texture_body. rewrite decide_False by done.
  unfold bind. rewrite get_texture1_base.
  by destruct (get_texture _ _ st) as [[t|e] st'].
Qed.

Lemma base_only_miss st k :
  base_only st → ¬ (theta_of k = 0 ∧ scale_of k = 1) →
  cache_get k (lru st) = None.
Proof.
  intros Hb Hv. destruct (cache_get k (lru st)) as [t|] eqn:Hk; [|done].
  destruct Hv. exact (cache_get_Forall _ k t _ Hb Hk).
Qed.

Lemma lru_cache_base_only f :
  (∀ k st, base_only st → base_only (f k st).2) →
  (∀ k st t st', f k st = (Ret t, st') → theta_of k = 0 ∧ scale_of k = 1) →
  ∀ k st, base_only st → base_only (lru_cache f k st).2.
Proof.
  intros Hf Hret k st Hb. unfold lru_cache.
  destruct (cache_get k (lru st)) as [t|] eqn:Hk; simpl.
  - constructor; [exact (cache_get_Forall _ k t _ Hb Hk)|].
    by apply Forall_cache_remove.
  - specialize (Hf k st Hb). specialize (Hret k st).
    destruct (f k st) as [[t|e] st']; simpl in *; [|done].
    unfold base_only, cache_store. simpl. destruct (cache_get k (lru st')); [done|].
    case_decide; (constructor; [by eapply Hret|]); [|done].
    by apply Forall_removelast.
Qed.

Lemma get_texture_body_base_only f :
  (∀ k st, base_only st → base_only (f k st).2) →
  ∀ k st, base_only st → base_only (get_texture_body PIL_open f k st).2.
Proof.
  intros Hf k st Hb. unfold get_texture_body. case_decide.
  - unfold base_only. by rewrite Texture_new_lru.
  - unfold bind. specialize (Hf (Call1 (path_of k)) st Hb).
    by destruct (f _ st) as [[?|?] ?].
Qed.

Lemma get_texture_body_Ret_base f k st t st' :
  get_texture_body PIL_open f k st = (Ret t, st') →
  theta_of k = 0 ∧ scale_of k = 1.
Proof.
  unfold get_texture_body. case_decide; [done|].
  unfold bind. by destruct (f _ st) as [[?|?] ?].
Qed.

Lemma get_texture_base_only k st :
  base_only st → base_only (get_texture PIL_open k st).2.
Proof.
  apply lru_cache_base_only; [|apply get_texture_body_Ret_base].
  apply get_texture_body_base_only.
  apply lru_cache_base_only; [|apply get_texture_body_Ret_base].
  apply get_texture_body_base_only. by intros.
Qed.

(** *** Recency *)











End decoder.


(** *** The cache holds textures for its keys *)

Section soundness.
Variable PIL_open : string → outcome pil.

Lemma fits_mono st st' k t :
  (∀ x tex, textures st !! x = Some tex → textures st' !! x = Some tex) →
  fits PIL_open st k t → fits PIL_open st' k t.
Proof.
  intros Hk (tex & H1 & H2 & H3). exists tex. split_and!; try done.
  by apply Hk.
Qed.

Lemma sound_mono st l l' tx :
  (∀ x tex, textures st !! x = Some tex → tx !! x = Some tex) →
  Forall (λ e : call * loc, fits PIL_open st e.1 e.2) l →
  (∀ e, e ∈ l' → e ∈ l) →
  sound PIL_open (mkState l' tx).
Proof.
  intros Hk Hl Hsub. unfold sound. simpl.
  apply List.Forall_forall. intros e He%list_elem_of_In%Hsub.
  rewrite List.Forall_forall in Hl.
  apply (fits_mono st); [done|]. by apply Hl, list_elem_of_In.
Qed.

Lemma elem_of_cache_remove k l e : e ∈ cache_remove k l → e ∈ l.
Proof.
  induction l as [|[k' t] l IH]; simpl; [done|].
  case_decide; rewrite ?elem_of_cons; [by right; apply IH|].
  intros [->|?]; [by left|right; by apply IH].
Qed.

Lemma elem_of_removelast {A} (l : list A) e : e ∈ removelast l → e ∈ l.
Proof.
  induction l as [|x [|y l] IH]; simpl; [done|by intros ?%elem_of_nil|].
  rewrite !elem_of_cons. intros [->|H]; [by left|right].
  apply elem_of_cons. by apply IH.
Qed.

Lemma cache_get_elem k l t : cache_get k l = Some t → (k, t) ∈ l.
Proof.
  induction l as [|[k' t'] l IH]; simpl; [done|].
  case_decide as Hd; [intros [= ->]; subst; by left|].
  intros Hg. right. by apply IH.
Qed.

Lemma elem_of_cache_store k t l e :
  e ∈ cache_store k t l → e = (k, t) ∨ e ∈ l.
Proof.
  unfold cache_store. destruct (cache_get k l); [by right|].
  case_decide as Hd; rewrite elem_of_cons; intros [->|Hin]; try by left.
  - right. by apply elem_of_removelast.
  - by right.
Qed.

Lemma keeps_sound_bottom :
  keeps_sound PIL_open (λ _, raise RecursionError).
Proof. intros k st Hs. by split_and!. Qed.

Lemma keeps_sound_body f :
  keeps_sound PIL_open f → keeps_sound PIL_open (get_texture_body PIL_open f).
Proof.
  intros Hf k st Hs. unfold get_texture_body. case_decide as Hk.
  - unfold Texture_new, bind, lift.
    destruct (PIL_open (path_of k)) as [img|e] eqn:Ho; simpl;
      [|by split_and!].
    assert (∀ x tex, textures st !! x = Some tex →
              <[fresh_loc (textures st) := mkTexture img (path_of k)]>
                (textures st) !! x = Some tex) as Hkeep.
    { intros x tex Hx. rewrite lookup_insert_ne; [done|].
      intros <-. by rewrite fresh_loc_fresh in Hx. }
    split_and!; [|done|].
    + eapply sound_mono; [exact Hkeep|exact Hs|done].
    + intros t [= <-]. eexists. split; [apply lookup_insert_eq|]. done.
  - unfold bind. specialize (Hf (Call1 (path_of k)) st Hs).
    destruct (f (Call1 (path_of k)) st) as [[t|e] st'];
      simpl in *; destruct Hf as (H1 & H2 & _); by split_and!.
Qed.

Lemma keeps_sound_lru f :
  keeps_sound PIL_open f → keeps_sound PIL_open (lru_cache f).
Proof.
  intros Hf k st Hs. unfold lru_cache.
  destruct (cache_get k (lru st)) as [t|] eqn:Hk; simpl.
  - assert (fits PIL_open st k t) as Hfit.
    { unfold sound in Hs. rewrite List.Forall_forall in Hs.
      by apply (Hs (k, t)), list_elem_of_In, cache_get_elem. }
    split_and!; [|done|by intros ? [= <-]].
    eapply (sound_mono st); [done|exact Hs|].
    intros e. rewrite elem_of_cons. intros [->|H];
      [by apply cache_get_elem|by eapply elem_of_cache_remove].
  - specialize (Hf k st Hs).
    destruct (f k st) as [[t|e] st']; simpl in *; [|done].
    destruct Hf as (Hs' & Hkeep & Hfit). specialize (Hfit t eq_refl).
    split_and!; [|done|by intros ? [= <-]].
    unfold sound. simpl. apply List.Forall_forall.
    intros e [->|He]%list_elem_of_In%elem_of_cache_store; [done|].
    unfold sound in Hs'. rewrite List.Forall_forall in Hs'.
    by apply Hs', list_elem_of_In.
Qed.

Lemma keeps_sound_get_texture : keeps_sound PIL_open (get_texture PIL_open).
Proof.
  apply keeps_sound_lru, keeps_sound_body, keeps_sound_lru, keeps_sound_body,
    keeps_sound_bottom.
Qed.

(** X21.  When every cached texture is a texture for its key, this
    stays so after [get_texture], no texture of the store is replaced,
    and the texture returned is in the store, has the requested path as
    [path] and the picture decoded from it as [_pil], of which [shape]
    gives width and height. *)
Theorem get_texture_sound st k :
  sound PIL_open st →
  let r := get_texture PIL_open k st in
  sound PIL_open r.2 ∧
  (∀ t tex, textures st !! t = Some tex → textures r.2 !! t = Some tex) ∧
  (∀ t, r.1 = Ret t →
     ∃ tex, textures r.2 !! t = Some tex ∧
            path tex = path_of k ∧
            PIL_open (path_of k) = Ret (_pil tex) ∧
            Texture_shape t r.2
            = (Ret (width (_pil tex), height (_pil tex)), r.2)).
Proof.
  intros Hs r. subst r.
  destruct (keeps_sound_get_texture k st Hs) as (H1 & H2 & H3).
  split_and!; [done|done|]. intros t Ht.
  destruct (H3 t Ht) as (tex & Hx & Hp & Ho). exists tex.
  split_and!; try done. unfold Texture_shape. by rewrite Hx.
Qed.

Lemma sound_miss st k e :
  sound PIL_open st → PIL_open (path_of k) = Raise e →
  cache_get k (lru st) = None.
Proof.
  intros Hs Ho. destruct (cache_get k (lru st)) as [t|] eqn:Hk; [|done].
  apply cache_get_elem in Hk. unfold sound in Hs.
  rewrite List.Forall_forall in Hs.
  destruct (Hs (k, t)) as (tex & _ & _ & H);
    [by apply list_elem_of_In|]. simpl in H. congruence.
Qed.

(** X22.  A path that the decoder rejects is never cached: in a sound
    cache every call of [get_texture] for it, with any [theta] and
    [scale], raises the decoder's exception and leaves the store as it
    is. *)
Theorem get_texture_failure st k e :
  sound PIL_open st → PIL_open (path_of k) = Raise e →
  get_texture PIL_open k st = (Raise e, st).
Proof.
  intros Hs Ho.
  assert (get_texture PIL_open (Call1 (path_of k)) st = (Raise e, st)) as Hb.
  { unfold get_texture, lru_cache.
    rewrite (sound_miss st (Call1 (path_of k)) e Hs Ho).
    unfold get_texture_body. rewrite decide_True by done.
    unfold Texture_new, bind, lift. simpl. by rewrite Ho. }
  destruct (decide (theta_of k = 0 ∧ scale_of k = 1)) as [Hk|Hk].
  - unfold get_texture, lru_cache. rewrite (sound_miss st k e Hs Ho).
    unfold get_texture_body. rewrite decide_True by done.
    unfold Texture_new, bind, lift. by rewrite Ho.
  - rewrite (get_texture_variant PIL_open st k Hk (sound_miss st k e Hs Ho)).
    by rewrite Hb.
Qed.

(** X23.  While only unrotated, unscaled keys are cached, a call with
    another [theta] or [scale] never returns a texture: it raises
    [AttributeError] when the base texture is obtained, and the
    exception of the base call otherwise. *)
Theorem get_texture_variant_raises st k :
  base_only st → ¬ (theta_of k = 0 ∧ scale_of k = 1) →
  ∃ e, (get_texture PIL_open k st).1 = Raise e ∧
       (∀ t, (get_texture PIL_open (Call1 (path_of k)) st).1 = Ret t →
             e = AttributeError) ∧
       (∀ x, (get_texture PIL_open (Call1 (path_of k)) st).1 = Raise x →
             e = x).
Proof.
  intros Hb Hk.
  rewrite (get_texture_variant PIL_open st k Hk (base_only_miss st k Hb Hk)).
  destruct (get_texture PIL_open (Call1 (path_of k)) st) as [[t|x] st'];
    simpl; eexists; (split; [reflexivity|]); split; by intros ? [= <-].
Qed.

End soundness.

Section constructor.
Variable PIL_open : string → outcome pil.
Variable asvector : Draw.dval → outcome Draw.dval.

(** X24.  [Image.__init__] of [image.py] never returns: whatever the
    arguments it raises, no shape is created, and the store of the
    textures is left as binding the texture left it.  When the texture
    and its size are obtained, the exception is [TypeError] for
    [reference == 'center'] (after [asvector(pos)]), [RecursionError]
    for ['origin'], and [ValueError] for any other reference. *)
Theorem Image_init_never_returns path_or_texture pos reference st :
  let r := Image_init PIL_open asvector path_or_texture pos reference st in
  (∃ e, r.1 = Raise e) ∧
  r.2 = ((Image_texture PIL_open path_or_texture st.1).2, st.2) ∧
  (∀ t tex v w,
     (Image_texture PIL_open path_or_texture st.1).1 = Ret t →
     textures (Image_texture PIL_open path_or_texture st.1).2 !! t
       = Some tex →
     asvector (Draw.DPoint (inject_Z (width (_pil tex)),
                            inject_Z (height (_pil tex)))) = Ret v →
     (reference = "center"%string → asvector pos = Ret w →
      r.1 = Raise TypeError) ∧
     (reference = "origin"%string → r.1 = Raise RecursionError) ∧
     (reference ≠ "center"%string → reference ≠ "origin"%string →
      r.1 = Raise ValueError)).
Proof.
  intros r. subst r. unfold Image_init, bind, on_textures, on_shapes, lift.
  destruct st as [ts ds]. simpl.
  destruct (Image_texture PIL_open path_or_texture ts) as [[t|e] ts1];
    simpl; [|split_and!; [by eexists|done|by intros]].
  unfold Texture_shape.
  destruct (textures ts1 !! t) as [tex|] eqn:Ht; simpl.
  2:{ split_and!; [by eexists|done|].
      intros ? ? ? ? [= <-] Htex. congruence. }
  destruct (asvector (Draw.DPoint _)) as [v|e] eqn:Hv; simpl.
  2:{ split_and!; [by eexists|done|].
      intros ? ? ? ? [= <-] Htex Hv'. congruence. }
  destruct (decide (reference = "center"%string)) as [Hc|Hc]; simpl.
  - destruct (asvector pos) as [w|e] eqn:Hw; simpl;
      (split_and!; [by eexists|done|]); intros ? ? ? ? _ _ _;
      (split_and!; [congruence|by intros ->|done]).
  - destruct (decide (reference = "origin"%string)) as [Ho|Ho]; simpl;
      (split_and!; [by eexists|done|]); intros ? ? ? ? _ _ _;
      by split_and!.
Qed.

End constructor.

Lemma get_texture_sound_witness :
  let r := get_texture demo_open (Call1 ".png") init_state in
  sound demo_open r.2 ∧
  (∀ t tex, textures init_state !! t = Some tex →
            textures r.2 !! t = Some tex) ∧
  (∀ t, r.1 = Ret t →
     ∃ tex, textures r.2 !! t = Some tex ∧
            path tex = path_of (Call1 ".png") ∧
            demo_open (path_of (Call1 ".png")) = Ret (_pil tex) ∧
            Texture_shape t r.2
            = (Ret (width (_pil tex), height (_pil tex)), r.2)).
Proof.
  exact (get_texture_sound demo_open init_state (Call1 ".png")
           (List.Forall_nil _)).
Defined.

Lemma get_texture_failure_witness :
  get_texture (λ _, Raise OSError) (Call3 ".png" 90 2) init_state
  = (Raise OSError, init_state).
Proof.
  exact (get_texture_failure (λ _, Raise OSError) init_state
           (Call3 ".png" 90 2) OSError (List.Forall_nil _) eq_refl).
Defined.

Lemma get_texture_variant_raises_witness :
  ∃ e, (get_texture demo_open (Call2 ".png" 90) init_state).1 = Raise e ∧
       (∀ t, (get_texture demo_open (Call1 (path_of (Call2 ".png" 90)))
                init_state).1 = Ret t →
             e = AttributeError) ∧
       (∀ x, (get_texture demo_open (Call1 (path_of (Call2 ".png" 90)))
                init_state).1 = Raise x →
             e = x).
Proof.
  apply (get_texture_variant_raises demo_open init_state (Call2 ".png" 90)).
  - apply List.Forall_nil.
  - intros [H _]. discriminate H.
Defined.

End ImageProofs.
